(** * The MCP client and the tool-dispatch loop of
      [integration/MCP/Bedrock_marketplace_with_mcp_and_langchain.ipynb]

    The notebook defines a small MCP client ([MCP_client], with the methods
    [list_tools] and [execute_tool]), three helpers ([is_valid_json],
    [is_tool_use], [handle_llm_response]) and a [while] loop that keeps calling
    the model until it answers with something that is not an operation call.
    Two more pieces of code are embedded with them: the cell that builds the
    client and tests its two methods, and the printing of the chat history
    after the loop.

    The embedding is shallow.  Python values are an inductive type, Python
    exceptions are the [Raise] side of a result type, and the notebook's
    globals together with the interaction with the MCP server processes are an
    explicit state that every function threads.  What lives outside the
    notebook (the model behind [chain.invoke], the MCP server, [json.loads],
    pydantic's [model_dump_json], [uuid.uuid4]) is an [environment] of
    oracles over which every general statement is quantified; a reference
    decoder for [json.loads] and the notebook's own weather server are given
    after the code, to run it on concrete replies. *)

From Stdlib Require Import ZArith Ascii String List Lia.
From stdpp Require Import base option strings gmap list.

Local Open Scope string_scope.

(** ** Python values and exceptions *)

(** The values [json.loads] can build.  A [float] is kept as the text it was
    read from, so that no floating-point arithmetic is needed; a [dict] is the
    list of its items in insertion order, with unique keys. *)
#[warnings="-register-all"]
Inductive py_value : Type :=
| PyNone
| PyBool (b : bool)
| PyInt (z : Z)
| PyFloat (repr : string)
| PyStr (s : string)
| PyList (items : list py_value)
| PyDict (items : list (string * py_value)).

(** The reasons for which the code below can raise [TypeError]. *)
Inductive type_error : Type :=
| StrIndicesMustBeIntegers          (* "abc"["operation"] *)
| ListIndicesMustBeIntegers         (* [1, 2]["operation"] *)
| NotSubscriptable                  (* None["operation"], 1["operation"] *)
| NotIterable                       (* "operation" in 1 *)
| Unhashable                        (* [] in {...} *)
| MissingArguments (names : list string)
| UnexpectedKeyword (name : string).

#[warnings="-register-all"]
Inductive exn : Type :=
| JSONDecodeError
| TypeError (why : type_error)
| KeyError (key : py_value)
| IndexError
| AttributeError (attr : string)
| RecursionError
| ValueError
| ExternalError (what : string)     (* raised by a service outside the notebook *)
| ExceptionGroup (exceptions : list exn).   (* raised by a task group of anyio *)

Inductive py_result (A : Type) : Type :=
| Ok (a : A)
| Raise (e : exn).
Arguments Ok {A} a.
Arguments Raise {A} e.

(** *** [dict] *)

(** [d[k]] as an expression ([None] stands for [KeyError]) and [k in d]. *)
Fixpoint dict_get (k : string) (d : list (string * py_value)) : option py_value :=
  match d with
  | [] => None
  | (k', v) :: d' => if String.eqb k k' then Some v else dict_get k d'
  end.

(** [d[k] = v]: an existing key keeps its place and takes the new value, a
    new key goes last. *)
Fixpoint dict_setitem (k : string) (v : py_value) (d : list (string * py_value))
  : list (string * py_value) :=
  match d with
  | [] => [(k, v)]
  | (k', v') :: d' =>
      if String.eqb k k' then (k', v) :: d' else (k', v') :: dict_setitem k v d'
  end.

(** [dict(pairs)] *)
Definition dict_of_pairs (pairs : list (string * py_value)) : list (string * py_value) :=
  fold_left (fun d kv => dict_setitem (fst kv) (snd kv) d) pairs [].

(** *** [str] *)

(** [needle in hay] on two strings. *)
Fixpoint str_contains (needle hay : string) : bool :=
  String.prefix needle hay ||
  match hay with
  | EmptyString => false
  | String _ hay' => str_contains needle hay'
  end.

(** Truth value of a [str]: the empty string is false. *)
Definition str_truthy (s : string) : bool :=
  match s with EmptyString => false | String _ _ => true end.

(** *** Operators used by the notebook, at the types they can meet *)

(** [key in container] for a [str] key. *)
Definition py_contains (key : string) (container : py_value) : py_result bool :=
  match container with
  | PyDict d => Ok (bool_decide (is_Some (dict_get key d)))
  | PyList l =>
      Ok (existsb (fun x => match x with PyStr s => String.eqb s key | _ => false end) l)
  | PyStr s => Ok (str_contains key s)
  | PyNone | PyBool _ | PyInt _ | PyFloat _ => Raise (TypeError NotIterable)
  end.

(** [container[key]] for a [str] key. *)
Definition py_getitem (container : py_value) (key : string) : py_result py_value :=
  match container with
  | PyDict d =>
      match dict_get key d with
      | Some v => Ok v
      | None => Raise (KeyError (PyStr key))
      end
  | PyStr _ => Raise (TypeError StrIndicesMustBeIntegers)
  | PyList _ => Raise (TypeError ListIndicesMustBeIntegers)
  | PyNone | PyBool _ | PyInt _ | PyFloat _ => Raise (TypeError NotSubscriptable)
  end.

(** [x in table] for a [dict] whose keys are all [str]: the key is hashed
    first, which fails on a [list] or a [dict]; a value that is not a [str]
    equals no key. *)
Definition py_in_table {V} (x : py_value) (table : gmap string V) : py_result bool :=
  match x with
  | PyList _ | PyDict _ => Raise (TypeError Unhashable)
  | PyStr s => Ok (bool_decide (is_Some (table !! s)))
  | PyNone | PyBool _ | PyInt _ | PyFloat _ => Ok false
  end.

(** ** The MCP library as the notebook sees it *)

Record StdioServerParameters : Type := {
  command : string;
  args : list string
}.

(** An entry of [session.list_tools().tools]. *)
Record mcp_Tool : Type := {
  name : string;
  description : string;
  inputSchema : py_value
}.

(** An item of [CallToolResult.content]; only [TextContent] has [.text]. *)
Inductive Content : Type :=
| TextContent (text : string)
| ImageContent (data mimeType : string)
| EmbeddedResource (uri : string).

Record CallToolResult : Type := {
  content : list Content;
  isError : bool
}.

(** What a server process sees, in order.  The number identifies the process
    and session that one [async with] pair creates. *)
Inductive event : Type :=
| stdio_client_enter (params : StdioServerParameters) (sid : nat)
| ClientSession_enter (sid : nat)
| session_initialize (sid : nat)
| session_list_tools (sid : nat)
| session_call_tool (sid : nat) (tool_name tool_parameters : py_value)
| ClientSession_exit (sid : nat)
| stdio_client_exit (sid : nat).

(** ** The notebook's objects *)

(** The two methods an [MCP_client] binds in its [operation] table. *)
Inductive method : Type :=
| list_tools_method
| execute_tool_method.

Record MCP_client : Type := {
  server_params : StdioServerParameters;
  operation : gmap string method
}.

(** [MCP_client.__init__] *)
Definition MCP_client_init (params : StdioServerParameters) : MCP_client :=
  {| server_params := params;
     operation := <["list_tools" := list_tools_method]>
                    (<["execute_tool" := execute_tool_method]> ∅) |}.

(** An element of [messages]. *)
Record message : Type := {
  role : string;
  msg_content : string
}.

(** The dictionary [handle_llm_response] returns: [{"AI": ...}] or
    [{"Tool": ..., "call_id": ...}]. *)
Inductive llm_result : Type :=
| AI (text : string)
| Tool (text : string) (call_id : N).

(** The dictionary [is_valid_json] returns. *)
Record valid_json : Type := {
  isJSON : bool;
  parsedJson : py_value
}.

(** The dictionary [is_tool_use] returns; [tool_use] is the empty string or
    the parsed object. *)
Record tool_use_result : Type := {
  tool_use : py_value;
  inputMessage : string
}.

(** The keyword arguments [handle_llm_response] collects. *)
Record kwargs : Type := {
  kw_tool_name : option py_value;
  kw_tool_parameters : option py_value
}.

(** ** State *)

(** The notebook's globals that the code reads or writes, and the world
    outside: the events the MCP server processes have seen, the number of
    sessions created so far and the number of UUIDs drawn so far. *)
Record state : Type := {
  weather_client : MCP_client;
  messages : list message;
  AI_responded : bool;
  tool_response : string;
  response : string;
  trace : list event;
  sessions : nat;
  uuids : nat
}.

(** Everything the notebook calls but does not define.  The model answers
    from the history it is given, which grows with every pass of the loop, so
    that it may answer differently at every pass; a server answers from its
    parameters and the number of the session, so that it may answer
    differently at every call; each of them may raise. *)
Record environment : Type := {
  (** [json.loads] *)
  json_loads : string -> py_result py_value;
  (** [chain.invoke(messages)], the model behind [ChatBedrockConverse]
      followed by [StrOutputParser] *)
  chain_invoke : list message -> py_result string;
  (** [session.initialize()] of the given session *)
  server_initialize : StdioServerParameters -> nat -> py_result unit;
  (** [session.list_tools().tools] *)
  server_list_tools : StdioServerParameters -> nat -> py_result (list mcp_Tool);
  (** [session.call_tool(tool_name, tool_parameters)] *)
  server_call_tool :
    StdioServerParameters -> nat -> py_value -> py_value -> py_result CallToolResult;
  (** [tool.model_dump_json(indent=4)] *)
  model_dump_json : mcp_Tool -> string;
  (** the value of the n-th [uuid.uuid4()] *)
  uuid4_value : nat -> N
}.

(** ** The state and exception monad *)

Definition M (A : Type) : Type := state -> py_result A * state.

Definition ret {A} (a : A) : M A := fun st => (Ok a, st).

Definition bind {A B} (m : M A) (k : A -> M B) : M B :=
  fun st =>
    match m st with
    | (Ok a, st') => k a st'
    | (Raise e, st') => (Raise e, st')
    end.

(** A computation that has no effect on the state. *)
Definition lift {A} (r : py_result A) : M A := fun st => (r, st).

Definition modify (f : state -> state) : M unit := fun st => (Ok tt, f st).

Declare Scope py_scope.
Delimit Scope py_scope with py.
Notation "x <- m ;; k" := (bind m (fun x => k))
  (at level 100, m at next level, right associativity) : py_scope.
Notation "m ;; k" := (bind m (fun _ => k))
  (at level 100, right associativity) : py_scope.
Notation "'await' m" := m (at level 10, only parsing) : py_scope.

Definition raise {A} (e : exn) : M A := lift (Raise e).
Definition gets {A} (f : state -> A) : M A := fun st => (Ok (f st), st).

Local Open Scope py_scope.

(** Assignments to the notebook's globals and to the world. *)
Definition set_messages (v : list message) (st : state) : state :=
  {| weather_client := weather_client st; messages := v;
     AI_responded := AI_responded st; tool_response := tool_response st;
     response := response st; trace := trace st; sessions := sessions st;
     uuids := uuids st |}.

Definition set_AI_responded (v : bool) (st : state) : state :=
  {| weather_client := weather_client st; messages := messages st;
     AI_responded := v; tool_response := tool_response st;
     response := response st; trace := trace st; sessions := sessions st;
     uuids := uuids st |}.

Definition set_tool_response (v : string) (st : state) : state :=
  {| weather_client := weather_client st; messages := messages st;
     AI_responded := AI_responded st; tool_response := v;
     response := response st; trace := trace st; sessions := sessions st;
     uuids := uuids st |}.

Definition set_response (v : string) (st : state) : state :=
  {| weather_client := weather_client st; messages := messages st;
     AI_responded := AI_responded st; tool_response := tool_response st;
     response := v; trace := trace st; sessions := sessions st;
     uuids := uuids st |}.

Definition set_trace (v : list event) (st : state) : state :=
  {| weather_client := weather_client st; messages := messages st;
     AI_responded := AI_responded st; tool_response := tool_response st;
     response := response st; trace := v; sessions := sessions st;
     uuids := uuids st |}.

Definition set_sessions (v : nat) (st : state) : state :=
  {| weather_client := weather_client st; messages := messages st;
     AI_responded := AI_responded st; tool_response := tool_response st;
     response := response st; trace := trace st; sessions := v;
     uuids := uuids st |}.

Definition set_uuids (v : nat) (st : state) : state :=
  {| weather_client := weather_client st; messages := messages st;
     AI_responded := AI_responded st; tool_response := tool_response st;
     response := response st; trace := trace st; sessions := sessions st;
     uuids := v |}.

(** The server process sees [es]. *)
Definition emit (es : list event) : M unit :=
  modify (fun st => set_trace (trace st ++ es) st).

(** [messages.append(m)] *)
Definition messages_append (m : message) : M unit :=
  modify (fun st => set_messages (messages st ++ [m]) st).

(** ** Regular expression of [is_valid_json] *)

(** [[\s\S]*\}] matched greedily at the start of [s]: the class matches any
    character, so the star runs to the end and backs up to the last ['}'].
    The result is what the star matched. *)
Fixpoint match_any_star_brace (s : string) : option string :=
  match s with
  | EmptyString => None
  | String c s' =>
      match match_any_star_brace s' with
      | Some group => Some (String c group)
      | None => if Ascii.eqb c "}" then Some EmptyString else None
      end
  end.

(** [re.search] of [is_valid_json]; its pattern is an opening brace, a
    group that holds [[\s\S]*], and a closing brace.  The start positions are
    tried from left to right; the result is [match.group(1)] of the first
    that matches. *)
Fixpoint re_search_braces (text : string) : option string :=
  match text with
  | EmptyString => None
  | String c text' =>
      if Ascii.eqb c "{" then
        match match_any_star_brace text' with
        | Some group => Some group
        | None => re_search_braces text'
        end
      else re_search_braces text'
  end.

(** [",\n"] *)
Definition comma_newline : string := String "," (String "010"%char EmptyString).

(** [sep.join(parts)] *)
Fixpoint str_join (sep : string) (parts : list string) : string :=
  match parts with
  | [] => ""
  | [p] => p
  | p :: parts' => p ++ sep ++ str_join sep parts'
  end.

Definition NoSuchOperationError_text : string :=
  "NoSuchOperationError: Operation not supported. Did you mean to use execute_tool operation with tool_name? reformat your JSON correctly and try again.".

(** ** The notebook's code *)

Section Notebook.

Variable env : environment.

(** *** [MCP_client] *)

(** Leaving an [async with] block whose context manager runs a task group of
    anyio, as [stdio_client] and [ClientSession] both do: an exception that
    leaves the body of the block is raised again as the one member of an
    [ExceptionGroup]. *)
Definition task_group_exit {A} (r : py_result A) : py_result A :=
  match r with
  | Ok a => Ok a
  | Raise e => Raise (ExceptionGroup [e])
  end.

(** The two nested [async with] blocks of both methods: a server process is
    started from [self.server_params], a [ClientSession] is opened on its
    pipes and initialized, [request] runs inside it, and both context
    managers exit whether or not the body raised.  What the body raises
    leaves the inner block in one exception group and the outer block in
    another around it. *)
Definition async_with_session {A}
    (request : StdioServerParameters -> nat -> M A) : M A :=
  fun st =>
    let params := server_params (weather_client st) in
    let sid := sessions st in
    let st1 :=
      set_trace (trace st ++ [stdio_client_enter params sid; ClientSession_enter sid])
                (set_sessions (S sid) st) in
    let '(r, st2) :=
      (emit [session_initialize sid] ;;
       await (lift (server_initialize env params sid)) ;;
       request params sid) st1 in
    (task_group_exit (task_group_exit r),
     set_trace (trace st2 ++ [ClientSession_exit sid; stdio_client_exit sid]) st2).

(** [MCP_client.list_tools] *)
Definition list_tools : M (string * bool) :=
  async_with_session (fun params sid =>
    emit [session_list_tools sid] ;;
    tools <- await (lift (server_list_tools env params sid)) ;;
    ret ("[" ++ str_join comma_newline (map (model_dump_json env) tools) ++ "]", false)).

(** [MCP_client.execute_tool] *)
Definition execute_tool (tool_name tool_parameters : py_value) : M (string * bool) :=
  async_with_session (fun params sid =>
    emit [session_call_tool sid tool_name tool_parameters] ;;
    result <- await (lift (server_call_tool env params sid tool_name tool_parameters)) ;;
    match content result with
    | [] => raise IndexError
    | TextContent text :: _ => ret (text, isError result)
    | _ :: _ => raise (AttributeError "text")
    end).

(** Calling a bound method of the client with [**kwargs].  The arguments are
    bound before the body runs: [list_tools] takes none, [execute_tool]
    requires both. *)
Definition call_method (f : method) (kw : kwargs) : M (string * bool) :=
  match f with
  | list_tools_method =>
      match kw_tool_name kw, kw_tool_parameters kw with
      | None, None => list_tools
      | Some _, _ => raise (TypeError (UnexpectedKeyword "tool_name"))
      | None, Some _ => raise (TypeError (UnexpectedKeyword "tool_parameters"))
      end
  | execute_tool_method =>
      match kw_tool_name kw, kw_tool_parameters kw with
      | Some tool_name, Some tool_parameters => execute_tool tool_name tool_parameters
      | None, None => raise (TypeError (MissingArguments ["tool_name"; "tool_parameters"]))
      | None, Some _ => raise (TypeError (MissingArguments ["tool_name"]))
      | Some _, None => raise (TypeError (MissingArguments ["tool_parameters"]))
      end
  end.

(** *** Helper code *)

Definition is_valid_json (text : string) : py_result valid_json :=
  match re_search_braces text with
  | None => Ok {| isJSON := false; parsedJson := PyNone |}
  | Some group =>
      let json_candidate := "{" ++ group ++ "}" in
      match json_loads env json_candidate with
      | Ok parsed_json => Ok {| isJSON := true; parsedJson := parsed_json |}
      | Raise JSONDecodeError => Ok {| isJSON := false; parsedJson := PyNone |}
      | Raise e => Raise e
      end
  end.

Definition is_tool_use (input_data : string) : py_result tool_use_result :=
  match is_valid_json input_data with
  | Raise e => Raise e
  | Ok is_json =>
      if isJSON is_json then
        let parsed_json := parsedJson is_json in
        match py_contains "operation" parsed_json with
        | Raise e => Raise e
        | Ok true => Ok {| tool_use := parsed_json; inputMessage := "" |}
        | Ok false => Ok {| tool_use := PyStr ""; inputMessage := input_data |}
        end
      else Ok {| tool_use := PyStr ""; inputMessage := input_data |}
  end.

(** [uuid.uuid4()] *)
Definition uuid4 : M N :=
  fun st => (Ok (uuid4_value env (uuids st)), set_uuids (S (uuids st)) st).

(** [kwargs[key] = tool_use[key]] when [key in tool_use]. *)
Definition kwarg_of (tool_use : py_value) (key : string) : py_result (option py_value) :=
  match py_contains key tool_use with
  | Raise e => Raise e
  | Ok false => Ok None
  | Ok true =>
      match py_getitem tool_use key with
      | Raise e => Raise e
      | Ok v => Ok (Some v)
      end
  end.

(** [table[x]] on the operation table. *)
Definition py_table_getitem (table : gmap string method) (x : py_value) : py_result method :=
  match x with
  | PyList _ | PyDict _ => Raise (TypeError Unhashable)
  | PyStr s =>
      match table !! s with
      | Some f => Ok f
      | None => Raise (KeyError x)
      end
  | PyNone | PyBool _ | PyInt _ | PyFloat _ => Raise (KeyError x)
  end.

Definition handle_llm_response (response : string) : M llm_result :=
  tool_use_response <- lift (is_tool_use response) ;;
  tool_call_id <- uuid4 ;;
  if str_truthy (inputMessage tool_use_response) then
    ret (AI (inputMessage tool_use_response))
  else
    operation_name <- lift (py_getitem (tool_use tool_use_response) "operation") ;;
    client <- gets weather_client ;;
    known <- lift (py_in_table operation_name (operation client)) ;;
    if (known : bool) then
      tool_name <- lift (kwarg_of (tool_use tool_use_response) "tool_name") ;;
      tool_parameters <- lift (kwarg_of (tool_use tool_use_response) "tool_parameters") ;;
      let kw := {| kw_tool_name := tool_name; kw_tool_parameters := tool_parameters |} in
      f <- lift (py_table_getitem (operation client) operation_name) ;;
      result <- await (call_method f kw) ;;
      if snd result then
        ret (Tool ("Error: " ++ fst result) tool_call_id)
      else
        ret (Tool (fst result) tool_call_id)
    else
      ret (Tool NoSuchOperationError_text tool_call_id).

(** *** Invocation logic *)

(** One pass through the body of [while not AI_responded]. *)
Definition loop_body : M unit :=
  history <- gets messages ;;
  reply <- lift (chain_invoke env history) ;;
  modify (set_response reply) ;;
  messages_append {| role := "ai"; msg_content := reply |} ;;
  result <- await (handle_llm_response reply) ;;
  match result with
  | AI _ => modify (set_AI_responded true)
  | Tool text _ =>
      messages_append {| role := "user"; msg_content := text |} ;;
      modify (set_tool_response text)
  end.

(** The [while] loop, run for at most [fuel] passes.  The result tells
    whether the loop was left because [AI_responded] became true. *)
Fixpoint while_not_AI_responded (fuel : nat) : M bool :=
  fun st =>
    if AI_responded st then (Ok true, st)
    else
      match fuel with
      | O => (Ok false, st)
      | S fuel' => (loop_body ;; while_not_AI_responded fuel') st
      end.

(** The cell [# Invoke Example] up to the end of its loop. *)
Definition invoke_example (systemMessage question : string) (fuel : nat) : M bool :=
  modify (set_messages [ {| role := "system"; msg_content := systemMessage |};
                         {| role := "user"; msg_content := question |} ]) ;;
  modify (set_AI_responded false) ;;
  modify (set_tool_response "") ;;
  while_not_AI_responded fuel.

End Notebook.

(** ** The end of the cell: the chat history

    After its loop the cell [# Invoke Example] prints the last reply and the
    chat history.  It reads the globals and writes to the standard output
    only, so it is a function of the state. *)

(** The label under which the chat history shows a message: the texts fed
    back to the model were appended under the role ["user"]. *)
Definition chat_role (m : message) : string :=
  if String.eqb (role m) "user" then "Tool" else "AI".

(** The body of the loop over [messages[2:]]: the message under its label,
    and an empty line.  What is printed is listed with one entry for each
    call of [print], the empty string for [print()]. *)
Definition print_message (m : message) : list string :=
  [chat_role m ++ ": " ++ msg_content m; ""].

(** What the cell prints after its loop, and how the printing ends:
    [messages[1]] raises [IndexError] on a history of fewer than two
    messages. *)
Definition print_chat_history (st : state) : list string * py_result unit :=
  let printed := [response st; ""; ""; "### CHAT HISTORY ###"; ""] in
  match messages st !! 1%nat with
  | None => (printed, Raise IndexError)
  | Some question =>
      ((printed ++ ["User: " ++ msg_content question; ""]%string
          ++ flat_map print_message (drop 2 (messages st)))%list,
       Ok tt)
  end.

(** ** The cell that tests the client *)

(** [weather_client = ...] *)
Definition set_weather_client (v : MCP_client) (st : state) : state :=
  {| weather_client := v; messages := messages st;
     AI_responded := AI_responded st; tool_response := tool_response st;
     response := response st; trace := trace st; sessions := sessions st;
     uuids := uuids st |}.

Section TestCell.

Variable env : environment.

(** The cell under [Let's test our MCP client]: it builds the client from
    the global [server_params], here [params], calls both methods and prints
    the first component of what they return.  The result is what was printed
    (one entry for each call of [print]), how the cell ended, and the
    state. *)
Definition test_cell (params : StdioServerParameters) (st : state)
  : list string * py_result unit * state :=
  let st := set_weather_client (MCP_client_init params) st in
  let printed := ["Calling list_tools operation"] in
  match list_tools env st with
  | (Raise e, st) => (printed, Raise e, st)
  | (Ok listed, st) =>
      let printed := (printed ++ [fst listed; ""; "Calling execute_tool operation"])%list in
      match execute_tool env (PyStr "get_weather") (PyDict [("location", PyStr "Sydney")]) st with
      | (Raise e, st) => (printed, Raise e, st)
      | (Ok executed, st) => ((printed ++ [fst executed])%list, Ok tt, st)
      end
  end.

End TestCell.

(** ** A reference decoder for [json.loads]

    [json.loads] belongs to Python's standard library.  The decoder below
    follows [json.decoder] and [json.scanner] of CPython 3.10 (the kernel of
    the notebook) with the default options: [scan_once] dispatches on the
    first character, [JSONObject] and [JSONArray] loop over the members,
    [py_scanstring] reads a string in strict mode and [match_number] is the
    number pattern.  Positions in the text are replaced by the text that
    remains, and digits are the ASCII digits, as the C accelerator of the
    module reads them.  A [str] is held as its UTF-8 bytes.  The depth at
    which CPython gives up on nested containers with [RecursionError]
    depends on the interpreter's stack and is not modelled: [loads] gives its
    scanner fuel that cannot run out ([json_fuel.loads_has_fuel]). *)
Module json.

Local Open Scope char_scope.

(** The result of a scanner: the value read and the text after it. *)
Definition scan (A : Type) : Type := py_result (A * string).

(** [WHITESPACE = re.compile(r'[ \t\n\r]*')] *)
Definition is_whitespace (c : ascii) : bool :=
  (c =? " ") || (c =? "009") || (c =? "010") || (c =? "013").

Fixpoint skip_whitespace (s : string) : string :=
  match s with
  | String c s' => if is_whitespace c then skip_whitespace s' else s
  | EmptyString => s
  end.

Definition is_digit (c : ascii) : bool :=
  let n := N_of_ascii c in (48 <=? n)%N && (n <=? 57)%N.

Definition digit_value (c : ascii) : Z := Z.of_N (N_of_ascii c) - 48.

(** The value of a hexadecimal digit. *)
Definition hex_value (c : ascii) : option N :=
  let n := N_of_ascii c in
  if (48 <=? n)%N && (n <=? 57)%N then Some (n - 48)%N
  else if (65 <=? n)%N && (n <=? 70)%N then Some (n - 55)%N
  else if (97 <=? n)%N && (n <=? 102)%N then Some (n - 87)%N
  else None.

(** The four digits of a [\uXXXX] escape. *)
Definition decode_uXXXX (h1 h2 h3 h4 : ascii) : option N :=
  match hex_value h1, hex_value h2, hex_value h3, hex_value h4 with
  | Some a, Some b, Some c, Some d => Some (((a * 16 + b) * 16 + c) * 16 + d)%N
  | _, _, _, _ => None
  end.

Definition byte (n : N) : ascii := ascii_of_N n.

(** The UTF-8 bytes of a code point (a lone surrogate is encoded like any
    other code point of its range). *)
Definition utf8 (cp : N) : string :=
  if (cp <? 128)%N then String (byte cp) EmptyString
  else if (cp <? 2048)%N then
    String (byte (192 + cp / 64)) (String (byte (128 + cp mod 64)) EmptyString)
  else if (cp <? 65536)%N then
    String (byte (224 + cp / 4096))
      (String (byte (128 + (cp / 64) mod 64))
         (String (byte (128 + cp mod 64)) EmptyString))
  else
    String (byte (240 + cp / 262144))
      (String (byte (128 + (cp / 4096) mod 64))
         (String (byte (128 + (cp / 64) mod 64))
            (String (byte (128 + cp mod 64)) EmptyString))).

Definition is_high_surrogate (cp : N) : bool := (55296 <=? cp)%N && (cp <=? 56319)%N.
Definition is_low_surrogate (cp : N) : bool := (56320 <=? cp)%N && (cp <=? 57343)%N.

(** The [BACKSLASH] table. *)
Definition backslash (esc : ascii) : option ascii :=
  if esc =? "034" then Some "034"
  else if esc =? "\" then Some "\"
  else if esc =? "/" then Some "/"
  else if esc =? "b" then Some "008"
  else if esc =? "f" then Some "012"
  else if esc =? "n" then Some "010"
  else if esc =? "r" then Some "013"
  else if esc =? "t" then Some "009"
  else None.

(** [cons_scan prefix r]: put [prefix] before the string that [r] read. *)
Definition cons_scan (prefix : string) (r : scan string) : scan string :=
  match r with
  | Ok (text, rest) => Ok ((prefix ++ text)%string, rest)
  | Raise e => Raise e
  end.

(** What [py_scanstring] does after the escape of the code point [uni]: when
    [uni] is a high surrogate and the escape of a low surrogate follows at
    [s6], the two make one code point; otherwise [uni] stands alone.  [rest]
    reads the rest of the string. *)
Definition surrogate_pair (uni : N) (rest : string -> scan string) (s6 : string)
  : scan string :=
  match s6 with
  | String b (String u (String l1 (String l2 (String l3 (String l4 s12))))) =>
      match decode_uXXXX l1 l2 l3 l4 with
      | Some uni2 =>
          if (is_high_surrogate uni && (b =? "\") && (u =? "u")
              && is_low_surrogate uni2)%bool
          then cons_scan (utf8 (65536 + ((uni - 55296) * 1024 + (uni2 - 56320)))) (rest s12)
          else cons_scan (utf8 uni) (rest s6)
      | None => cons_scan (utf8 uni) (rest s6)
      end
  | _ => cons_scan (utf8 uni) (rest s6)
  end.

(** [py_scanstring(s, end, strict=True)], called after the opening quote. *)
Fixpoint py_scanstring (s : string) : scan string :=
  match s with
  | EmptyString => Raise JSONDecodeError           (* Unterminated string *)
  | String c s1 =>
      if c =? "034" then Ok (EmptyString, s1)
      else if c =? "\" then
        match s1 with
        | EmptyString => Raise JSONDecodeError     (* Unterminated string *)
        | String esc s2 =>
            if esc =? "u" then
              match s2 with
              | String h1 (String h2 (String h3 (String h4 s6))) =>
                  match decode_uXXXX h1 h2 h3 h4 with
                  | None => Raise JSONDecodeError  (* Invalid \uXXXX escape *)
                  | Some uni => surrogate_pair uni py_scanstring s6
                  end
              | _ => Raise JSONDecodeError         (* Invalid \uXXXX escape *)
              end
            else
              match backslash esc with
              | Some char => cons_scan (String char EmptyString) (py_scanstring s2)
              | None => Raise JSONDecodeError      (* Invalid \escape *)
              end
        end
      else if (N_of_ascii c <? 32)%N then
        Raise JSONDecodeError                      (* Invalid control character *)
      else cons_scan (String c EmptyString) (py_scanstring s1)
  end.

(** The decimal digits in front of [s], and the text after them. *)
Fixpoint span_digits (s : string) : string * string :=
  match s with
  | String c s' =>
      if is_digit c then
        let '(digits, rest) := span_digits s' in (String c digits, rest)
      else (EmptyString, s)
  | EmptyString => (EmptyString, s)
  end.

(** The integer part of [NUMBER_RE]: an optional minus sign, then a single
    zero or a non-zero digit followed by digits. *)
Definition match_integer (s : string) : option (string * string) :=
  let '(sign, s0) :=
    match s with
    | String c s' => if c =? "-" then ("-"%string, s') else (EmptyString, s)
    | EmptyString => (EmptyString, s)
    end in
  match s0 with
  | String c s' =>
      if c =? "0" then Some ((sign ++ "0")%string, s')
      else if is_digit c then
        let '(digits, rest) := span_digits s' in
        Some ((sign ++ String c digits)%string, rest)
      else None
  | EmptyString => None
  end.

(** The optional fraction of [NUMBER_RE]: a dot and at least one digit. *)
Definition match_frac (s : string) : string * string :=
  match s with
  | String c s' =>
      if c =? "." then
        match span_digits s' with
        | (EmptyString, _) => (EmptyString, s)
        | (digits, rest) => (String c digits, rest)
        end
      else (EmptyString, s)
  | EmptyString => (EmptyString, s)
  end.

(** The optional exponent of [NUMBER_RE]: [e] or [E], an optional sign and
    at least one digit. *)
Definition match_exp (s : string) : string * string :=
  match s with
  | String c s' =>
      if (c =? "e") || (c =? "E") then
        let '(sign, s0) :=
          match s' with
          | String d s'' =>
              if (d =? "-") || (d =? "+") then (String d EmptyString, s'') else (EmptyString, s')
          | EmptyString => (EmptyString, s')
          end in
        match span_digits s0 with
        | (EmptyString, _) => (EmptyString, s)
        | (digits, rest) => (String c (sign ++ digits), rest)
        end
      else (EmptyString, s)
  | EmptyString => (EmptyString, s)
  end.

(** [NUMBER_RE.match]: the three groups and the text after the match. *)
Definition match_number (s : string) : option (string * string * string * string) :=
  match match_integer s with
  | None => None
  | Some (integer, s1) =>
      let '(frac, s2) := match_frac s1 in
      let '(exp, s3) := match_exp s2 in
      Some (integer, frac, exp, s3)
  end.

(** [int(integer)] for the integer group of a match.  From 3.10.7 on [int]
    refuses more than 4300 digits with a [ValueError]. *)
Definition int_max_str_digits : nat := 4300.

Fixpoint int_of_digits (acc : Z) (digits : string) : Z :=
  match digits with
  | String c digits' => int_of_digits (acc * 10 + digit_value c) digits'
  | EmptyString => acc
  end.

Definition parse_int (integer : string) : py_result py_value :=
  match integer with
  | String "-" digits =>
      if Nat.ltb int_max_str_digits (String.length digits) then Raise ValueError
      else Ok (PyInt (- int_of_digits 0 digits))
  | digits =>
      if Nat.ltb int_max_str_digits (String.length digits) then Raise ValueError
      else Ok (PyInt (int_of_digits 0 digits))
  end.

(** [string[idx:idx + len(literal)] == literal], with the text after it. *)
Fixpoint strip_prefix (literal s : string) : option string :=
  match literal, s with
  | EmptyString, _ => Some s
  | String a literal', String b s' =>
      if a =? b then strip_prefix literal' s' else None
  | String _ _, EmptyString => None
  end.


(** The cases of [scan_once] that read no container and no string: the
    literals [null], [true] and [false], a number, and the constants [NaN],
    [Infinity] and [-Infinity], tried in this order. *)
Definition scan_scalar (s : string) : scan py_value :=
  match strip_prefix "null" s, strip_prefix "true" s, strip_prefix "false" s with
  | Some rest, _, _ => Ok (PyNone, rest)
  | _, Some rest, _ => Ok (PyBool true, rest)
  | _, _, Some rest => Ok (PyBool false, rest)
  | None, None, None =>
      match match_number s with
      | Some (integer, frac, exp, rest) =>
          match frac, exp with
          | EmptyString, EmptyString =>
              match parse_int integer with
              | Ok res => Ok (res, rest)
              | Raise e => Raise e
              end
          | _, _ => Ok (PyFloat (integer ++ frac ++ exp)%string, rest)
          end
      | None =>
          match strip_prefix "NaN" s, strip_prefix "Infinity" s,
                strip_prefix "-Infinity" s with
          | Some rest, _, _ => Ok (PyFloat "nan", rest)
          | _, Some rest, _ => Ok (PyFloat "inf", rest)
          | _, _, Some rest => Ok (PyFloat "-inf", rest)
          | None, None, None => Raise JSONDecodeError       (* Expecting value *)
          end
      end
  end.

(** [scan_once], with the bodies of [JSONObject] and [JSONArray].  The three
    functions call each other; [fuel] bounds the depth of these calls.
    [object_members] starts after the opening quote of a key and
    [array_items] at the first character of an item; both carry the members
    read so far. *)
Fixpoint scan_once (fuel : nat) (s : string) : scan py_value :=
  match fuel with
  | O => Raise RecursionError
  | S fuel' =>
      match s with
      | EmptyString => Raise JSONDecodeError       (* Expecting value *)
      | String nextchar rest =>
          if nextchar =? "034" then
            match py_scanstring rest with
            | Ok (text, rest') => Ok (PyStr text, rest')
            | Raise e => Raise e
            end
          else if nextchar =? "{" then
            match skip_whitespace rest with
            | String c rest' =>
                if c =? "}" then Ok (PyDict [], rest')
                else if c =? "034" then object_members fuel' rest' []
                else Raise JSONDecodeError         (* Expecting property name *)
            | EmptyString => Raise JSONDecodeError
            end
          else if nextchar =? "[" then
            match skip_whitespace rest with
            | String c rest' =>
                if c =? "]" then Ok (PyList [], rest')
                else array_items fuel' (String c rest') []
            | EmptyString => Raise JSONDecodeError (* Expecting value *)
            end
          else scan_scalar s
      end
  end

with object_members (fuel : nat) (s : string) (pairs : list (string * py_value))
  : scan py_value :=
  match fuel with
  | O => Raise RecursionError
  | S fuel' =>
      match py_scanstring s with
      | Raise e => Raise e
      | Ok (key, s1) =>
          match skip_whitespace s1 with
          | String colon s2 =>
              if colon =? ":" then
                match scan_once fuel' (skip_whitespace s2) with
                | Raise e => Raise e
                | Ok (value, s3) =>
                    let pairs := (pairs ++ [(key, value)])%list in
                    match skip_whitespace s3 with
                    | String c s4 =>
                        if c =? "}" then Ok (PyDict (dict_of_pairs pairs), s4)
                        else if c =? "," then
                          match skip_whitespace s4 with
                          | String quote s5 =>
                              if quote =? "034" then object_members fuel' s5 pairs
                              else Raise JSONDecodeError   (* Expecting property name *)
                          | EmptyString => Raise JSONDecodeError
                          end
                        else Raise JSONDecodeError         (* Expecting ',' delimiter *)
                    | EmptyString => Raise JSONDecodeError
                    end
                end
              else Raise JSONDecodeError                   (* Expecting ':' delimiter *)
          | EmptyString => Raise JSONDecodeError
          end
      end
  end

with array_items (fuel : nat) (s : string) (values : list py_value) : scan py_value :=
  match fuel with
  | O => Raise RecursionError
  | S fuel' =>
      match scan_once fuel' s with
      | Raise e => Raise e
      | Ok (value, s1) =>
          let values := (values ++ [value])%list in
          match skip_whitespace s1 with
          | String c s2 =>
              if c =? "]" then Ok (PyList values, s2)
              else if c =? "," then array_items fuel' (skip_whitespace s2) values
              else Raise JSONDecodeError               (* Expecting ',' delimiter *)
          | EmptyString => Raise JSONDecodeError
          end
      end
  end.

(** The UTF-8 bytes of U+FEFF. *)
Definition BOM : string := String "239" (String "187" (String "191" EmptyString)).

(** [json.loads(s)] for a [str]: [JSONDecoder.decode], which allows white
    space around the document and nothing else. *)
Definition loads (s : string) : py_result py_value :=
  if String.prefix BOM s then Raise JSONDecodeError    (* Unexpected UTF-8 BOM *)
  else
    match scan_once (2 * String.length s + 1) (skip_whitespace s) with
    | Raise e => Raise e
    | Ok (obj, rest) =>
        match skip_whitespace rest with
        | EmptyString => Ok obj
        | String _ _ => Raise JSONDecodeError          (* Extra data *)
        end
    end.

(** Predicates on texts, used to state what the scanners read. *)

(** The text starts with [\u]. *)
Definition starts_with_escape_u (s : string) : bool :=
  match s with
  | String b (String u _) => (b =? "\") && (u =? "u")
  | _ => false
  end.

(** The characters that may follow a value inside a container. *)
Definition delimiter (c : ascii) : bool :=
  is_whitespace c || (c =? ",") || (c =? "]") || (c =? "}").

Definition delimited (rest : string) : Prop :=
  exists c rest', rest = String c rest' /\ delimiter c = true.

(** A string, an object or an array shows by its first character that it
    ends at its own closing character. *)
Definition self_delimiting (s : string) : bool :=
  match s with
  | String c _ => (c =? "034") || (c =? "{") || (c =? "[")
  | EmptyString => false
  end.

End json.

(** ** The notebook's own objects

    The rest of the definitions instantiate the code: the server parameters
    of the notebook, its [weather_server.py], and models that answer from a
    script. *)

(** [occurs c s]: the character [c] is somewhere in [s]. *)
Fixpoint occurs (c : ascii) (s : string) : bool :=
  match s with
  | EmptyString => false
  | String a s' => Ascii.eqb a c || occurs c s'
  end.

(** Replies are written with apostrophes where the text has double quotes;
    [dq] puts the double quotes back. *)
Fixpoint dq (s : string) : string :=
  match s with
  | EmptyString => EmptyString
  | String c s' => String (if Ascii.eqb c "'" then "034"%char else c) (dq s')
  end.

(** The global [server_params]. *)
Definition notebook_server_params : StdioServerParameters :=
  {| command := "python"; args := ["/home/ec2-user/SageMaker/weather_server.py"] |}.

(** The state right after [weather_client = MCP_client(server_params)]. *)
Definition notebook_state : state :=
  {| weather_client := MCP_client_init notebook_server_params;
     messages := []; AI_responded := false; tool_response := ""; response := "";
     trace := []; sessions := 0; uuids := 0 |}.

(** The tool that [weather_server.py] registers. *)
Definition get_weather_tool : mcp_Tool :=
  {| name := "get_weather";
     description := "Get weather for location.";
     inputSchema :=
       PyDict [("properties",
                PyDict [("location",
                         PyDict [("title", PyStr "Location"); ("type", PyStr "string")])]);
               ("required", PyList [PyStr "location"]);
               ("title", PyStr "get_weatherArguments");
               ("type", PyStr "object")] |}.

(** [get_weather] of [weather_server.py]. *)
Definition get_weather (location : string) : string := "It's sunny in " ++ location.

(** Before it validates the arguments of a tool, FastMCP reads every
    argument that is a string as JSON: what [json.loads] makes of the string
    takes its place, unless that is a string or a number (in Python a Boolean
    is a number) or [json.loads] raises [JSONDecodeError].  [loads] is the
    [json.loads] of the server's interpreter. *)
Definition pre_parse_json (loads : string -> py_result py_value) (value : string)
  : py_result py_value :=
  match loads value with
  | Ok (PyStr _) | Ok (PyInt _) | Ok (PyFloat _) | Ok (PyBool _) => Ok (PyStr value)
  | Ok pre_parsed => Ok pre_parsed
  | Raise JSONDecodeError => Ok (PyStr value)
  | Raise e => Raise e
  end.

(** What the server reports when the call of [get_weather] fails (the text
    of the report is abridged). *)
Definition get_weather_failed : CallToolResult :=
  {| content := [TextContent "Error executing tool get_weather"]; isError := true |}.

(** The server running [get_weather] on the arguments of a call: the tool
    runs when [location], as FastMCP read it, is a string; every other case
    is reported as a result flagged [isError]. *)
Definition run_get_weather (loads : string -> py_result py_value)
    (arguments : list (string * py_value)) : CallToolResult :=
  match dict_get "location" arguments with
  | Some (PyStr value) =>
      match pre_parse_json loads value with
      | Ok (PyStr location) =>
          {| content := [TextContent (get_weather location)]; isError := false |}
      | _ => get_weather_failed
      end
  | _ => get_weather_failed
  end.

(** [weather_server.py] answering [call_tool].  The client refuses, before
    any request is sent, a tool name that is not a string and arguments
    that are neither a [dict] nor [None]; the server takes [None] for no
    arguments, and reports a tool it does not know as a result flagged
    [isError]. *)
Definition weather_server (loads : string -> py_result py_value)
    (tool_name tool_parameters : py_value) : py_result CallToolResult :=
  match tool_name, tool_parameters with
  | PyStr tool, (PyDict _ | PyNone) =>
      let arguments := match tool_parameters with PyDict d => d | _ => [] end in
      if String.eqb tool "get_weather" then Ok (run_get_weather loads arguments)
      else Ok {| content := [TextContent ("Unknown tool: " ++ tool)]; isError := true |}
  | _, _ => Raise (ExternalError "ValidationError")
  end.

(** The weather server when its [json.loads] is the reference decoder. *)
Definition weather_server_call_tool : py_value -> py_value -> py_result CallToolResult :=
  weather_server json.loads.

(** Text in printable ASCII without opening bracket or brace, as the name of
    a place is.  Nothing nests in such a text, so that what [json.loads]
    makes of it does not depend on the recursion limit of the interpreter. *)
Fixpoint plain_text (s : string) : bool :=
  match s with
  | EmptyString => true
  | String c s' =>
      (32 <=? N_of_ascii c)%N && (N_of_ascii c <? 127)%N
      && negb (Ascii.eqb c "[") && negb (Ascii.eqb c "{") && plain_text s'
  end.

(** An environment made of the reference decoder, the weather server and a
    given model.  The serializer stands in for pydantic's and prints the name
    and the description of a tool only. *)
Definition weather_env (model : list message -> py_result string) : environment :=
  {| json_loads := json.loads;
     chain_invoke := model;
     server_initialize := fun _ _ => Ok tt;
     server_list_tools := fun _ _ => Ok [get_weather_tool];
     server_call_tool := fun _ _ => weather_server_call_tool;
     model_dump_json := fun tool =>
       dq "{'name': '" ++ name tool ++ dq "', 'description': '" ++ description tool ++ dq "'}";
     uuid4_value := N.of_nat |}.

(** A second tool, and an environment like [weather_env] whose server lists
    both tools. *)
Definition get_forecast_tool : mcp_Tool :=
  {| name := "get_forecast";
     description := "Get forecast for location.";
     inputSchema := inputSchema get_weather_tool |}.

Definition two_tools_env (model : list message -> py_result string) : environment :=
  {| json_loads := json.loads;
     chain_invoke := model;
     server_initialize := fun _ _ => Ok tt;
     server_list_tools := fun _ _ => Ok [get_weather_tool; get_forecast_tool];
     server_call_tool := fun _ _ => weather_server_call_tool;
     model_dump_json := model_dump_json (weather_env model);
     uuid4_value := N.of_nat |}.

(** A model that always gives the same reply. *)
Definition constant_model (reply : string) : list message -> py_result string :=
  fun _ => Ok reply.

(** The model of the recorded run: it lists the tools, calls [get_weather]
    and then answers in prose. *)
Definition recorded_model : list message -> py_result string :=
  fun history =>
    match length history with
    | 2 => Ok (dq "{'operation': 'list_tools'}")
    | 4 => Ok (dq "{'operation': 'execute_tool', 'tool_name': 'get_weather', 'tool_parameters': {'location': 'New York'}}")
    | _ => Ok "The weather in New York is currently sunny."
    end.

(** The state in which [handle_llm_response] runs during a pass of the loop:
    [response] holds the reply and the reply is the last of [messages]. *)
Definition after_reply (reply : string) (st : state) : state :=
  set_messages (messages st ++ [{| role := "ai"; msg_content := reply |}])
               (set_response reply st).

(** The state after [uuid.uuid4()]. *)
Definition after_uuid4 (st : state) : state := set_uuids (S (uuids st)) st.

(** The [kwargs] that [handle_llm_response] builds from a request that is a
    [dict]. *)
Definition kwargs_of (request : list (string * py_value)) : kwargs :=
  {| kw_tool_name := dict_get "tool_name" request;
     kw_tool_parameters := dict_get "tool_parameters" request |}.

(** The state of the recorded run when its loop starts (of the system prompt
    only the first sentence is kept). *)
Definition recorded_state : state :=
  set_messages [ {| role := "system"; msg_content := "You are a helpful assistance." |};
                 {| role := "user"; msg_content := "What's the weather in New York?" |} ]
               notebook_state.

(** The session an event belongs to. *)
Definition event_session (e : event) : nat :=
  match e with
  | stdio_client_enter _ sid | ClientSession_enter sid | session_initialize sid
  | session_list_tools sid | session_call_tool sid _ _ | ClientSession_exit sid
  | stdio_client_exit sid => sid
  end.

(** Every session seen so far was counted. *)
Definition sessions_counted (st : state) : Prop :=
  Forall (fun e => event_session e < sessions st) (trace st).

(** What the server side sees of one method call: the process and the
    session are entered and initialized, [request] is what is sent inside the
    session, and both are left. *)
Definition session_events (params : StdioServerParameters) (sid : nat)
    (request : list event) : list event :=
  [stdio_client_enter params sid; ClientSession_enter sid; session_initialize sid]
    ++ request ++ [ClientSession_exit sid; stdio_client_exit sid].

(** The state after a method call that sent [request]. *)
Definition after_session (request : list event) (st : state) : state :=
  set_trace
    (trace st ++ session_events (server_params (weather_client st)) (sessions st) request)
    (set_sessions (S (sessions st)) st).

(** The exception with which a method of the client ends when [e] is raised
    inside its session: [e] in the exception group of the [ClientSession]
    block, in the exception group of the [stdio_client] block. *)
Definition in_session (e : exn) : exn := ExceptionGroup [ExceptionGroup [e]].

(** [same_globals st st']: the notebook's globals are the same in both
    states; only the world outside may differ. *)
Definition same_globals (st st' : state) : Prop :=
  weather_client st' = weather_client st /\
  messages st' = messages st /\
  AI_responded st' = AI_responded st /\
  tool_response st' = tool_response st /\
  response st' = response st.

(** [keeps_globals m]: running [m] changes none of the notebook's globals. *)
Definition keeps_globals {A} (m : M A) : Prop :=
  forall st, same_globals st (snd (m st)).

(** ** The words of the claims about JSON text *)

(** White space, as JSON has it between the tokens of a text. *)
Definition blank (ws : string) : Prop := json.skip_whitespace ws = "".

(** [separated_by_commas documents text]: [text] is the documents one after
    the other, in their order, with a comma between each document and the
    next; white space may stand around the comma. *)
Inductive separated_by_commas : list string -> string -> Prop :=
| separated_one document : separated_by_commas [document] document
| separated_more document ws1 ws2 documents text :
    blank ws1 -> blank ws2 ->
    separated_by_commas documents text ->
    separated_by_commas (document :: documents) (document ++ ws1 ++ "," ++ ws2 ++ text).

(** [json_array_text documents text]: [text] is a JSON array as the grammar
    of JSON writes it, with [documents] as the texts of its elements: an
    opening bracket, the elements separated by commas, a closing bracket. *)
Inductive json_array_text : list string -> string -> Prop :=
| array_text_empty ws : blank ws -> json_array_text [] ("[" ++ ws ++ "]")
| array_text_elements ws1 documents text ws2 :
    blank ws1 -> blank ws2 ->
    separated_by_commas documents text ->
    json_array_text documents ("[" ++ ws1 ++ text ++ ws2 ++ "]").


(** ** Vocabulary of the further properties *)

(** The messages that passes of the loop append when each of them feeds a
    text back to the model: a turn is the reply of the model and that text. *)
Definition exchanges (turns : list (string * string)) : list message :=
  flat_map (fun turn => [ {| role := "ai"; msg_content := fst turn |};
                          {| role := "user"; msg_content := snd turn |} ]) turns.

(** [asked env history turns]: each reply of [turns] is what the model
    answers to the history before it, which is [history] followed by the
    turns before. *)
Fixpoint asked (env : environment) (history : list message) (turns : list (string * string))
  : Prop :=
  match turns with
  | [] => True
  | turn :: turns' =>
      chain_invoke env history = Ok (fst turn) /\
      asked env (history ++ exchanges [turn]) turns'
  end.

(** The four ways in which a pass of the loop ends: the reply is the answer;
    a text is fed back to the model; the model raised; the handling of the
    reply raised. *)
Inductive pass_outcome (env : environment) (st : state) : py_result unit -> state -> Prop :=
| pass_answer reply :
    chain_invoke env (messages st) = Ok reply ->
    reply <> "" ->
    handle_llm_response env reply (after_reply reply st)
      = (Ok (AI reply), after_uuid4 (after_reply reply st)) ->
    pass_outcome env st (Ok tt) (set_AI_responded true (after_uuid4 (after_reply reply st)))
| pass_tool reply text call_id st' :
    chain_invoke env (messages st) = Ok reply ->
    handle_llm_response env reply (after_reply reply st) = (Ok (Tool text call_id), st') ->
    pass_outcome env st (Ok tt)
      (set_tool_response text
         (set_messages (messages st' ++ [{| role := "user"; msg_content := text |}]) st'))
| pass_model_raises e :
    chain_invoke env (messages st) = Raise e ->
    pass_outcome env st (Raise e) st
| pass_handler_raises reply e st' :
    chain_invoke env (messages st) = Ok reply ->
    handle_llm_response env reply (after_reply reply st) = (Raise e, st') ->
    pass_outcome env st (Raise e) st'.

(** What the chat history shows of a turn. *)
Definition printed_turn (turn : string * string) : list string :=
  ["AI: " ++ fst turn; ""; "Tool: " ++ snd turn; ""].

(** [json.loads] returns a [dict] for every document that starts with an
    opening brace, as a JSON decoder does. *)
Definition decodes_objects (env : environment) : Prop :=
  forall body v, json_loads env (String "{" body) = Ok v -> exists d, v = PyDict d.

(** [doc] is the text of a JSON object, which the reference decoder reads
    as [v]. *)
Definition object_document (doc : string) (v : py_value) : Prop :=
  (exists body, doc = String "{" body) /\ json.loads doc = Ok v.

(** The number of opening brackets and braces of a text.  The arrays and
    objects of a JSON text do not nest deeper than that. *)
Fixpoint openings (s : string) : nat :=
  match s with
  | EmptyString => 0
  | String c s' =>
      (if Ascii.eqb c "[" || Ascii.eqb c "{" then 1 else 0) + openings s'
  end.

(** [decodes_to_depth depth env]: [json.loads] is the reference decoder on
    every text with at most [depth] opening brackets and braces.  CPython's
    decoder raises [RecursionError] where arrays and objects nest deeper
    than the recursion limit of the interpreter allows, which the reference
    decoder does not; [depth] is what that limit leaves. *)
Definition decodes_to_depth (depth : nat) (env : environment) : Prop :=
  forall text, openings text <= depth -> json_loads env text = json.loads text.

(** What is sent inside a session: at most one request, for the list of
    tools or for the call of a tool. *)
Definition one_request (request : list event) : Prop :=
  match request with
  | [] | [session_list_tools _] | [session_call_tool _ _ _] => True
  | _ => False
  end.

(** What the server processes see of sessions that follow each other, the
    first of them numbered [sid]: one list of requests for each session. *)
Fixpoint sessions_in_sequence (params : StdioServerParameters) (sid : nat)
    (requests : list (list event)) : list event :=
  match requests with
  | [] => []
  | request :: requests' =>
      session_events params sid request ++ sessions_in_sequence params (S sid) requests'
  end.

(** The environment [env] with other values for [uuid.uuid4()]. *)
Definition with_uuid4 (value : nat -> N) (env : environment) : environment :=
  {| json_loads := json_loads env;
     chain_invoke := chain_invoke env;
     server_initialize := server_initialize env;
     server_list_tools := server_list_tools env;
     server_call_tool := server_call_tool env;
     model_dump_json := model_dump_json env;
     uuid4_value := value |}.

(** Up to the call id of a [Tool] result, the two results are the same. *)
Definition same_but_call_id (a b : py_result llm_result) : Prop :=
  match a, b with
  | Ok (AI text), Ok (AI text') => text = text'
  | Ok (Tool text _), Ok (Tool text' _) => text = text'
  | Raise e, Raise e' => e = e'
  | _, _ => False
  end.

(** A model that lists the tools and then asks for [execute_tool] without
    saying which tool. *)
Definition careless_model : list message -> py_result string :=
  fun history =>
    match length history with
    | 2 => Ok (dq "{'operation': 'list_tools'}")
    | _ => Ok (dq "{'operation': 'execute_tool'}")
    end.

(** An environment like [weather_env], except that the server answers every
    call of a tool with a result that has no content. *)
Definition silent_env (model : list message -> py_result string) : environment :=
  {| json_loads := json.loads;
     chain_invoke := model;
     server_initialize := fun _ _ => Ok tt;
     server_list_tools := fun _ _ => Ok [get_weather_tool];
     server_call_tool := fun _ _ _ _ => Ok {| content := []; isError := false |};
     model_dump_json := model_dump_json (weather_env model);
     uuid4_value := N.of_nat |}.

(** The state [st] with another conversation: other values for [messages],
    [AI_responded], [tool_response] and [response]. *)
Definition with_conversation (other st : state) : state :=
  set_messages (messages other)
    (set_AI_responded (AI_responded other)
       (set_tool_response (tool_response other)
          (set_response (response other) st))).

(** * Properties *)

(** ** Strings *)

Lemma append_cons (x : ascii) (a b : string) : String x a ++ b = String x (a ++ b).
Proof. reflexivity. Qed.

Lemma append_nil (b : string) : "" ++ b = b.
Proof. reflexivity. Qed.

(** [String.append] does not unfold under [simpl]; its two equations are
    rewritten instead. *)
Ltac simpl_append := rewrite ?append_cons, ?append_nil; simpl.

Lemma append_assoc (a b c : string) : (a ++ b) ++ c = a ++ (b ++ c).
Proof.
  induction a as [|x a IH]; simpl_append; [reflexivity | now rewrite IH].
Qed.

(** Both sides of an equation between concatenations, in normal form. *)
Ltac normalize_append :=
  repeat first [rewrite append_assoc | rewrite append_cons | rewrite append_nil].

Lemma occurs_append (c : ascii) (a b : string) :
  occurs c (a ++ b) = occurs c a || occurs c b.
Proof.
  induction a as [|x a IH]; simpl_append; [reflexivity |].
  rewrite IH. now rewrite orb_assoc.
Qed.

(** ** The regular expression *)

Lemma match_any_star_brace_none (s : string) :
  match_any_star_brace s = None <-> occurs "}" s = false.
Proof.
  induction s as [|c s IH]; simpl; [tauto |].
  destruct (match_any_star_brace s) as [g|].
  - split; [discriminate |].
    intros H. apply orb_false_elim in H as [_ H].
    apply IH in H. discriminate.
  - destruct (Ascii.eqb c "}"); simpl.
    + split; discriminate.
    + split; intros _; [now apply IH | reflexivity].
Qed.

(** The greedy star stops before the last closing brace. *)
Lemma match_any_star_brace_last (group post : string) :
  occurs "}" post = false ->
  match_any_star_brace (group ++ String "}" post) = Some group.
Proof.
  intros Hpost. induction group as [|c group IH]; simpl_append.
  - apply match_any_star_brace_none in Hpost. now rewrite Hpost.
  - now rewrite IH.
Qed.

Lemma match_any_star_brace_some (s group : string) :
  match_any_star_brace s = Some group ->
  exists post, s = group ++ String "}" post /\ occurs "}" post = false.
Proof.
  revert group. induction s as [|c s IH]; simpl; intros group H; [discriminate |].
  destruct (match_any_star_brace s) as [g|] eqn:Hs.
  - injection H as <-. destruct (IH g eq_refl) as (post & -> & Hpost).
    now exists post.
  - destruct (Ascii.eqb_spec c "}") as [->|]; [|discriminate].
    injection H as <-. exists s. split; [reflexivity |].
    now apply match_any_star_brace_none.
Qed.

(** The search finds the text between the first opening brace and the last
    closing brace. *)
Lemma re_search_braces_first_last (pre group post : string) :
  occurs "{" pre = false ->
  occurs "}" post = false ->
  re_search_braces (pre ++ String "{" (group ++ String "}" post)) = Some group.
Proof.
  intros Hpre Hpost. induction pre as [|c pre IH]; simpl_append.
  - now rewrite match_any_star_brace_last.
  - simpl in Hpre. apply orb_false_elim in Hpre as [Hc Hpre].
    rewrite Hc. now apply IH.
Qed.

Lemma re_search_braces_some (text group : string) :
  re_search_braces text = Some group ->
  exists pre post,
    text = pre ++ String "{" (group ++ String "}" post) /\
    occurs "{" pre = false /\ occurs "}" post = false.
Proof.
  induction text as [|c text IH]; simpl; intros H; [discriminate |].
  destruct (Ascii.eqb_spec c "{") as [->|Hc].
  - destruct (match_any_star_brace text) as [g|] eqn:Hm.
    + injection H as <-.
      destruct (match_any_star_brace_some _ _ Hm) as (post & -> & Hpost).
      now exists "", post.
    + (* no closing brace is left, so no later start can match either *)
      destruct (IH H) as (pre & post & -> & _ & Hpost).
      apply match_any_star_brace_none in Hm.
      rewrite occurs_append in Hm. simpl in Hm.
      rewrite occurs_append in Hm. simpl in Hm.
      rewrite !orb_true_r in Hm. discriminate.
  - destruct (IH H) as (pre & post & -> & Hpre & Hpost).
    exists (String c pre), post. repeat split; [|assumption].
    simpl. apply Ascii.eqb_neq in Hc. now rewrite Hc.
Qed.

Lemma re_search_braces_none (text : string) :
  re_search_braces text = None ->
  forall pre group post, text <> pre ++ String "{" (group ++ String "}" post).
Proof.
  induction text as [|c text IH]; simpl; intros H pre group post E.
  - destruct pre; discriminate.
  - destruct (Ascii.eqb_spec c "{") as [->|Hc].
    + destruct (match_any_star_brace text) as [g|] eqn:Hm; [discriminate |].
      apply match_any_star_brace_none in Hm.
      destruct pre as [|x pre]; rewrite ?append_cons, ?append_nil in E;
        injection E as E; subst.
      * rewrite occurs_append in Hm. simpl in Hm. rewrite orb_true_r in Hm. discriminate.
      * rewrite occurs_append in Hm. simpl in Hm.
        rewrite occurs_append in Hm. simpl in Hm.
        rewrite !orb_true_r in Hm. discriminate.
    + destruct pre as [|x pre]; rewrite ?append_cons, ?append_nil in E;
        injection E as E1 E2.
      * now subst.
      * now apply (IH H pre group post).
Qed.

(** ** What a computation leaves alone *)

Lemma same_globals_refl st : same_globals st st.
Proof. repeat split. Qed.

Lemma same_globals_trans st1 st2 st3 :
  same_globals st1 st2 -> same_globals st2 st3 -> same_globals st1 st3.
Proof.
  intros (a1 & b1 & c1 & d1 & e1) (a2 & b2 & c2 & d2 & e2).
  repeat split; congruence.
Qed.

Lemma keeps_globals_ret {A} (a : A) : keeps_globals (ret a).
Proof. intros st. apply same_globals_refl. Qed.

Lemma keeps_globals_lift {A} (r : py_result A) : keeps_globals (lift r).
Proof. intros st. apply same_globals_refl. Qed.

Lemma keeps_globals_raise {A} (e : exn) : keeps_globals (@raise A e).
Proof. intros st. apply same_globals_refl. Qed.

Lemma keeps_globals_gets {A} (f : state -> A) : keeps_globals (gets f).
Proof. intros st. apply same_globals_refl. Qed.

Lemma keeps_globals_emit es : keeps_globals (emit es).
Proof. intros st. repeat split. Qed.

Lemma keeps_globals_bind {A B} (m : M A) (k : A -> M B) :
  keeps_globals m -> (forall a, keeps_globals (k a)) -> keeps_globals (bind m k).
Proof.
  intros Hm Hk st. unfold bind. specialize (Hm st).
  destruct (m st) as [[a|e] st1]; simpl in *; [|assumption].
  eapply same_globals_trans; [eassumption | apply Hk].
Qed.

Create HintDb globals.
#[local] Hint Resolve keeps_globals_ret keeps_globals_lift keeps_globals_raise
  keeps_globals_gets keeps_globals_emit : globals.

Ltac keep_globals :=
  repeat first
    [ apply keeps_globals_bind; [|intros ?]
    | solve [auto with globals] ].

Section NotebookProperties.

Variable env : environment.

Lemma keeps_globals_async_with_session {A}
    (request : StdioServerParameters -> nat -> M A) :
  (forall params sid, keeps_globals (request params sid)) ->
  keeps_globals (async_with_session env request).
Proof.
  intros Hreq st. unfold async_with_session.
  match goal with
  | |- context [bind ?m ?k ?s] =>
      assert (Hk : keeps_globals (bind m k)) by keep_globals;
      specialize (Hk s); destruct (bind m k s) as [r st2]
  end.
  simpl in *. destruct Hk as (a & b & c & d & e). repeat split; assumption.
Qed.

Lemma keeps_globals_list_tools : keeps_globals (list_tools env).
Proof.
  apply keeps_globals_async_with_session. intros params sid. keep_globals.
Qed.

Lemma keeps_globals_execute_tool tool_name tool_parameters :
  keeps_globals (execute_tool env tool_name tool_parameters).
Proof.
  apply keeps_globals_async_with_session. intros params sid.
  apply keeps_globals_bind; [auto with globals | intros _].
  apply keeps_globals_bind; [auto with globals | intros result].
  destruct (content result) as [|[] ?]; auto with globals.
Qed.

Lemma keeps_globals_call_method f kw : keeps_globals (call_method env f kw).
Proof.
  destruct f, kw as [[?|] [?|]]; simpl;
    auto using keeps_globals_list_tools, keeps_globals_execute_tool with globals.
Qed.

Lemma keeps_globals_uuid4 : keeps_globals (uuid4 env).
Proof. intros st. repeat split. Qed.

Lemma keeps_globals_handle_llm_response reply :
  keeps_globals (handle_llm_response env reply).
Proof.
  unfold handle_llm_response.
  apply keeps_globals_bind; [auto with globals | intros r].
  apply keeps_globals_bind; [apply keeps_globals_uuid4 | intros id].
  destruct (str_truthy (inputMessage r)); [auto with globals |].
  apply keeps_globals_bind; [auto with globals | intros op].
  apply keeps_globals_bind; [auto with globals | intros client].
  apply keeps_globals_bind; [auto with globals | intros known].
  destruct known; [|auto with globals].
  apply keeps_globals_bind; [auto with globals | intros n].
  apply keeps_globals_bind; [auto with globals | intros p].
  apply keeps_globals_bind; [auto with globals | intros f].
  apply keeps_globals_bind; [apply keeps_globals_call_method | intros res].
  destruct (snd res); auto with globals.
Qed.

(** *** [handle_llm_response], branch by branch *)

Lemma kwarg_of_dict (d : list (string * py_value)) (key : string) :
  kwarg_of (PyDict d) key = Ok (dict_get key d).
Proof.
  unfold kwarg_of. simpl. destruct (dict_get key d) as [v|] eqn:E.
  - now rewrite bool_decide_true by eauto.
  - rewrite bool_decide_false; [reflexivity |]. now intros [? ?].
Qed.

Lemma handle_llm_response_raise st reply e :
  is_tool_use env reply = Raise e ->
  handle_llm_response env reply st = (Raise e, st).
Proof.
  intros H. unfold handle_llm_response, bind, lift. now rewrite H.
Qed.

(** A reply whose [inputMessage] is not empty is the answer. *)
Lemma handle_llm_response_answer st reply r :
  is_tool_use env reply = Ok r ->
  str_truthy (inputMessage r) = true ->
  handle_llm_response env reply st = (Ok (AI (inputMessage r)), after_uuid4 st).
Proof.
  intros H Ht. unfold handle_llm_response, bind, lift, uuid4. rewrite H. simpl.
  now rewrite Ht.
Qed.

(** A request whose operation is a key of the table is dispatched through
    the table. *)
Lemma handle_llm_response_dispatch st reply d k f :
  is_tool_use env reply = Ok {| tool_use := PyDict d; inputMessage := "" |} ->
  dict_get "operation" d = Some (PyStr k) ->
  operation (weather_client st) !! k = Some f ->
  handle_llm_response env reply st =
    match call_method env f (kwargs_of d) (after_uuid4 st) with
    | (Ok (out, true), st') =>
        (Ok (Tool ("Error: " ++ out) (uuid4_value env (uuids st))), st')
    | (Ok (out, false), st') => (Ok (Tool out (uuid4_value env (uuids st))), st')
    | (Raise e, st') => (Raise e, st')
    end.
Proof.
  intros H Hop Hf.
  unfold handle_llm_response, bind, lift, uuid4, gets. rewrite H. simpl.
  rewrite Hop. simpl. rewrite Hf. rewrite bool_decide_true by eauto.
  rewrite !kwarg_of_dict. simpl.
  fold (after_uuid4 st). fold (kwargs_of d).
  destruct (call_method env f (kwargs_of d) (after_uuid4 st)) as [[[out [|]]|e] st'];
    reflexivity.
Qed.

(** A request whose operation can be hashed and is no key of the table gets
    the fixed error text; the server is not contacted. *)
Lemma handle_llm_response_no_such_operation st reply d op :
  is_tool_use env reply = Ok {| tool_use := PyDict d; inputMessage := "" |} ->
  dict_get "operation" d = Some op ->
  py_in_table op (operation (weather_client st)) = Ok false ->
  handle_llm_response env reply st =
    (Ok (Tool NoSuchOperationError_text (uuid4_value env (uuids st))), after_uuid4 st).
Proof.
  intros H Hop Hin.
  unfold handle_llm_response, bind, lift, uuid4, gets. rewrite H. simpl.
  rewrite Hop. simpl. now rewrite Hin.
Qed.

(** A request whose operation cannot be hashed makes the test against the
    table raise. *)
Lemma handle_llm_response_unhashable st reply d op e :
  is_tool_use env reply = Ok {| tool_use := PyDict d; inputMessage := "" |} ->
  dict_get "operation" d = Some op ->
  py_in_table op (operation (weather_client st)) = Raise e ->
  handle_llm_response env reply st = (Raise e, after_uuid4 st).
Proof.
  intros H Hop Hin.
  unfold handle_llm_response, bind, lift, uuid4, gets. rewrite H. simpl.
  rewrite Hop. simpl. now rewrite Hin.
Qed.

(** *** One pass of the loop *)

Lemma loop_body_reply st reply :
  chain_invoke env (messages st) = Ok reply ->
  loop_body env st =
    match handle_llm_response env reply (after_reply reply st) with
    | (Ok (AI _), st') => (Ok tt, set_AI_responded true st')
    | (Ok (Tool text _), st') =>
        (Ok tt,
         set_tool_response text
           (set_messages (messages st' ++ [{| role := "user"; msg_content := text |}]) st'))
    | (Raise e, st') => (Raise e, st')
    end.
Proof.
  intros H. unfold loop_body, bind, lift, gets, modify, messages_append.
  rewrite H. simpl. fold (after_reply reply st).
  destruct (handle_llm_response env reply (after_reply reply st)) as [[[text|text id]|e] st'];
    reflexivity.
Qed.

(** *** From [is_valid_json] to [is_tool_use] *)

Lemma is_tool_use_request reply d op :
  is_valid_json env reply = Ok {| isJSON := true; parsedJson := PyDict d |} ->
  dict_get "operation" d = Some op ->
  is_tool_use env reply = Ok {| tool_use := PyDict d; inputMessage := "" |}.
Proof.
  intros H Hop. unfold is_tool_use. rewrite H. simpl.
  now rewrite Hop, bool_decide_true by eauto.
Qed.

Lemma is_tool_use_cases reply r :
  is_tool_use env reply = Ok r ->
  exists vj,
    is_valid_json env reply = Ok vj /\
    ((r = {| tool_use := PyStr ""; inputMessage := reply |} /\
      (isJSON vj = false \/ py_contains "operation" (parsedJson vj) = Ok false)) \/
     (r = {| tool_use := parsedJson vj; inputMessage := "" |} /\
      isJSON vj = true /\ py_contains "operation" (parsedJson vj) = Ok true)).
Proof.
  unfold is_tool_use. destruct (is_valid_json env reply) as [vj|e]; [|discriminate].
  intros H. exists vj. split; [reflexivity |].
  destruct (isJSON vj).
  - destruct (py_contains "operation" (parsedJson vj)) as [[|]|e]; [| |discriminate];
      injection H as <-; [right | left]; auto.
  - injection H as <-. left; auto.
Qed.

(** *** Where [handle_llm_response] leaves the world *)

(** Either nothing happened outside the notebook but, at most, the drawing
    of a UUID, or a method was called through the operation table under a
    key that the request names. *)
Lemma handle_llm_response_world st reply :
  snd (handle_llm_response env reply st) = st \/
  snd (handle_llm_response env reply st) = after_uuid4 st \/
  exists r k f kw,
    is_tool_use env reply = Ok r /\
    py_getitem (tool_use r) "operation" = Ok (PyStr k) /\
    operation (weather_client st) !! k = Some f /\
    snd (handle_llm_response env reply st) = snd (call_method env f kw (after_uuid4 st)).
Proof.
  unfold handle_llm_response, bind, lift, uuid4, gets.
  destruct (is_tool_use env reply) as [r|e] eqn:Hr; simpl; [|now left].
  fold (after_uuid4 st).
  destruct (str_truthy (inputMessage r)); simpl; [now right; left |].
  destruct (py_getitem (tool_use r) "operation") as [op|e] eqn:Hop; simpl;
    [|now right; left].
  destruct (py_in_table op (operation (weather_client st))) as [[|]|e] eqn:Hin; simpl;
    [|now right; left..].
  destruct (kwarg_of (tool_use r) "tool_name") as [n|e]; simpl; [|now right; left].
  destruct (kwarg_of (tool_use r) "tool_parameters") as [p|e]; simpl; [|now right; left].
  destruct op as [| | | |k| |]; simpl in Hin; try discriminate.
  injection Hin as Hin. apply bool_decide_eq_true in Hin as [f Hf].
  simpl. rewrite Hf.
  right; right.
  exists r, k, f, {| kw_tool_name := n; kw_tool_parameters := p |}.
  repeat split; try assumption.
  destruct (call_method env f _ (after_uuid4 st)) as [[[out [|]]|e] st']; reflexivity.
Qed.

(** *** The two methods, run *)

Lemma list_tools_run st :
  let params := server_params (weather_client st) in
  let sid := sessions st in
  list_tools env st =
    match server_initialize env params sid with
    | Raise e => (Raise (in_session e), after_session [] st)
    | Ok _ =>
        (match server_list_tools env params sid with
         | Raise e => Raise (in_session e)
         | Ok tools =>
             Ok ("[" ++ str_join comma_newline (map (model_dump_json env) tools) ++ "]",
                 false)
         end,
         after_session [session_list_tools sid] st)
    end.
Proof.
  unfold list_tools, async_with_session, bind, lift, emit, modify, ret. simpl.
  destruct (server_initialize env _ _) as [[]|e]; simpl.
  - destruct (server_list_tools env _ _) as [tools|e]; simpl;
      unfold after_session, session_events; simpl;
      rewrite <- !app_assoc; reflexivity.
  - unfold after_session, session_events. simpl. rewrite <- !app_assoc. reflexivity.
Qed.

Lemma execute_tool_run st tool_name tool_parameters :
  let params := server_params (weather_client st) in
  let sid := sessions st in
  execute_tool env tool_name tool_parameters st =
    match server_initialize env params sid with
    | Raise e => (Raise (in_session e), after_session [] st)
    | Ok _ =>
        (match server_call_tool env params sid tool_name tool_parameters with
         | Raise e => Raise (in_session e)
         | Ok result =>
             match content result with
             | [] => Raise (in_session IndexError)
             | TextContent text :: _ => Ok (text, isError result)
             | _ :: _ => Raise (in_session (AttributeError "text"))
             end
         end,
         after_session [session_call_tool sid tool_name tool_parameters] st)
    end.
Proof.
  unfold execute_tool, async_with_session, bind, lift, emit, modify, ret, raise, lift.
  simpl.
  destruct (server_initialize env _ _) as [[]|e]; simpl.
  - destruct (server_call_tool env _ _ _ _) as [result|e]; simpl;
      [destruct (content result) as [|[] ?]; simpl|];
      unfold after_session, session_events; simpl;
      rewrite <- !app_assoc; reflexivity.
  - unfold after_session, session_events. simpl. rewrite <- !app_assoc. reflexivity.
Qed.

Lemma sessions_counted_after_session request st :
  Forall (fun e => event_session e = sessions st) request ->
  sessions_counted st -> sessions_counted (after_session request st).
Proof.
  intros Hreq Hst. unfold sessions_counted, after_session, session_events in *. simpl.
  apply Forall_app; split.
  - eapply Forall_impl; [exact Hst|]. simpl. intros; lia.
  - repeat (constructor; [simpl; lia|]).
    apply Forall_app; split.
    + eapply Forall_impl; [exact Hreq|]. simpl. intros ? ->. lia.
    + repeat (constructor; [simpl; lia|]). constructor.
Qed.

(** The session of a call is new: no earlier event belongs to it. *)
Lemma session_is_fresh st :
  sessions_counted st -> Forall (fun e => event_session e <> sessions st) (trace st).
Proof.
  intros H. eapply Forall_impl; [exact H|]. simpl. intros; lia.
Qed.

End NotebookProperties.

(** ** The operation table *)

Lemma init_table_lookup (params : StdioServerParameters) (k : string) (f : method) :
  operation (MCP_client_init params) !! k = Some f <->
  (k = "list_tools" /\ f = list_tools_method) \/
  (k = "execute_tool" /\ f = execute_tool_method).
Proof.
  unfold MCP_client_init. simpl.
  destruct (decide (k = "list_tools")) as [->|H1].
  - rewrite lookup_insert_eq. split.
    + intros [= <-]. now left.
    + intros [[_ ->]|[? _]]; [reflexivity | discriminate].
  - rewrite lookup_insert_ne by congruence.
    destruct (decide (k = "execute_tool")) as [->|H2].
    + rewrite lookup_insert_eq. split.
      * intros [= <-]. now right.
      * intros [[? _]|[_ ->]]; [discriminate | reflexivity].
    + rewrite lookup_insert_ne by congruence. rewrite lookup_empty. split.
      * discriminate.
      * intros [[? _]|[? _]]; contradiction.
Qed.

Lemma init_table_dom (params : StdioServerParameters) :
  dom (operation (MCP_client_init params)) = ({["list_tools"; "execute_tool"]} : gset string).
Proof.
  unfold MCP_client_init. simpl. rewrite !dom_insert_L, dom_empty_L. set_solver.
Qed.

Lemma init_table_size (params : StdioServerParameters) :
  size (operation (MCP_client_init params)) = 2.
Proof.
  unfold MCP_client_init. simpl.
  rewrite map_size_insert_None.
  - rewrite map_size_insert_None by apply lookup_empty. now rewrite map_size_empty.
  - rewrite lookup_insert_ne by discriminate. apply lookup_empty.
Qed.

(** ** When the loop ends *)

Section LoopEnd.

Variable env : environment.

Lemma is_tool_use_answer reply vj :
  is_valid_json env reply = Ok vj ->
  isJSON vj = false \/ py_contains "operation" (parsedJson vj) = Ok false ->
  is_tool_use env reply = Ok {| tool_use := PyStr ""; inputMessage := reply |}.
Proof.
  intros H Hcond. unfold is_tool_use. rewrite H.
  destruct (isJSON vj); [|reflexivity].
  destruct Hcond as [?|Hc]; [discriminate | now rewrite Hc].
Qed.

Lemma str_truthy_true s : str_truthy s = true <-> s <> "".
Proof. destruct s; simpl; split; congruence. Qed.

(** Only the first branch of [handle_llm_response] returns an [AI] result. *)
Lemma handle_llm_response_AI st reply text st' :
  handle_llm_response env reply st = (Ok (AI text), st') ->
  exists r, is_tool_use env reply = Ok r /\
            str_truthy (inputMessage r) = true /\ text = inputMessage r.
Proof.
  unfold handle_llm_response, bind, lift, uuid4, gets.
  destruct (is_tool_use env reply) as [r|e]; simpl; [|discriminate].
  destruct (str_truthy (inputMessage r)) eqn:Ht; simpl.
  - intros [= <- _]. now exists r.
  - destruct (py_getitem (tool_use r) "operation") as [op|e]; simpl; [|discriminate].
    destruct (py_in_table op _) as [[|]|e]; simpl; [|discriminate..].
    destruct (kwarg_of (tool_use r) "tool_name") as [n|e]; simpl; [|discriminate].
    destruct (kwarg_of (tool_use r) "tool_parameters") as [p|e]; simpl; [|discriminate].
    destruct (py_table_getitem _ op) as [f|e]; simpl; [|discriminate].
    destruct (call_method env f _ _) as [[[out [|]]|e] st'']; simpl; discriminate.
Qed.

(** A pass of the loop sets [AI_responded] exactly when
    [handle_llm_response] returns an [AI] result. *)
Lemma loop_body_AI_responded st reply :
  chain_invoke env (messages st) = Ok reply ->
  AI_responded st = false ->
  AI_responded (snd (loop_body env st)) = true <->
  exists text, fst (handle_llm_response env reply (after_reply reply st)) = Ok (AI text).
Proof.
  intros Hreply Hfalse. rewrite (loop_body_reply env st reply Hreply).
  pose proof (keeps_globals_handle_llm_response env reply (after_reply reply st))
    as (_ & _ & Ha & _).
  destruct (handle_llm_response env reply (after_reply reply st))
    as [[[text|text id]|e] st']; simpl in *.
  - split; eauto.
  - rewrite Ha, Hfalse. split; [discriminate | intros [? [=]]].
  - rewrite Ha, Hfalse. split; [discriminate | intros [? [=]]].
Qed.

End LoopEnd.

(** ** The loop around a pass *)

Lemma while_not_AI_responded_step (env : environment) (fuel : nat) (st : state) :
  AI_responded st = false ->
  fst (loop_body env st) = Ok tt ->
  while_not_AI_responded env (S fuel) st
    = while_not_AI_responded env fuel (snd (loop_body env st)).
Proof.
  intros Hfalse Hok. simpl. rewrite Hfalse. unfold bind.
  destruct (loop_body env st) as [[[]|e] st']; simpl in *; [reflexivity | discriminate].
Qed.

Lemma while_not_AI_responded_done (env : environment) (fuel : nat) (st : state) :
  AI_responded st = true ->
  while_not_AI_responded env fuel st = (Ok true, st).
Proof. intros H. destruct fuel; simpl; now rewrite H. Qed.

(** ** The reference decoder reads a prefix *)

Module json_facts.
Import json.

Lemma length_append (a b : string) :
  String.length (a ++ b) = String.length a + String.length b.
Proof.
  induction a as [|x a IH]; simpl_append; [reflexivity | now rewrite IH].
Qed.

Lemma skip_whitespace_append (s t : string) :
  skip_whitespace s <> "" -> skip_whitespace (s ++ t) = skip_whitespace s ++ t.
Proof.
  induction s as [|c s IH]; simpl_append; [congruence |].
  destruct (is_whitespace c); auto.
Qed.

Lemma skip_whitespace_blank (s t : string) :
  skip_whitespace s = "" -> skip_whitespace (s ++ t) = skip_whitespace t.
Proof.
  induction s as [|c s IH]; simpl_append; [reflexivity |].
  destruct (is_whitespace c); [auto | discriminate].
Qed.

Lemma cons_scan_Ok prefix r text rest :
  cons_scan prefix r = Ok (text, rest) ->
  exists text', r = Ok (text', rest) /\ text = prefix ++ text'.
Proof.
  destruct r as [[text' rest']|e]; simpl; [|discriminate].
  intros [= <- <-]. eauto.
Qed.

(** Without the escape of a second code point at [s6] there is no pair. *)
Lemma surrogate_pair_alone uni rest s6 :
  starts_with_escape_u s6 = false ->
  surrogate_pair uni rest s6 = cons_scan (utf8 uni) (rest s6).
Proof.
  destruct s6 as [|b [|u [|l1 [|l2 [|l3 [|l4 s12]]]]]]; try reflexivity.
  simpl. intros H. destruct (decode_uXXXX l1 l2 l3 l4); [|reflexivity].
  rewrite <- !andb_assoc.
  destruct (is_high_surrogate uni); [|reflexivity]. simpl.
  rewrite andb_assoc, H. reflexivity.
Qed.

Lemma py_scanstring_escape_u_long s text rest :
  starts_with_escape_u s = true ->
  py_scanstring s = Ok (text, rest) ->
  6 <= String.length s.
Proof.
  destruct s as [|b [|u [|l1 [|l2 [|l3 [|l4 s12]]]]]]; simpl; try discriminate;
    try lia;
    intros H; apply andb_prop in H as [Hb Hu];
    apply Ascii.eqb_eq in Hb, Hu; subst; simpl; discriminate.
Qed.

Lemma starts_with_escape_u_keep s t text rest :
  py_scanstring s = Ok (text, rest) ->
  starts_with_escape_u s = false ->
  starts_with_escape_u (s ++ t) = false.
Proof.
  destruct s as [|b [|u s']]; [discriminate | | now simpl_append].
  simpl_append. intros H _.
  destruct (Ascii.eqb b "\") eqn:Hb.
  - apply Ascii.eqb_eq in Hb. subst b. discriminate.
  - destruct t; simpl; now rewrite ?Hb.
Qed.

(** [py_scanstring] stops at the closing quote: what follows the string is
    not looked at. *)
Lemma py_scanstring_append (t : string) :
  forall n s text rest,
    String.length s <= n ->
    py_scanstring s = Ok (text, rest) ->
    py_scanstring (s ++ t) = Ok (text, rest ++ t).
Proof.
  induction n as [|n IH]; intros s text rest Hn H.
  { destruct s; simpl in *; [discriminate | lia]. }
  destruct s as [|c s1]; [discriminate |].
  simpl_append. simpl in H, Hn.
  destruct (Ascii.eqb c "034"); [now injection H as <- <- |].
  destruct (Ascii.eqb c "\").
  - destruct s1 as [|esc s2]; [discriminate |]. simpl_append. simpl in Hn.
    destruct (Ascii.eqb esc "u").
    + destruct s2 as [|h1 [|h2 [|h3 [|h4 s6]]]]; try discriminate.
      simpl_append. simpl in Hn.
      destruct (decode_uXXXX h1 h2 h3 h4) as [uni|]; [|discriminate].
      destruct (starts_with_escape_u s6) eqn:Hu.
      * destruct s6 as [|b [|u [|l1 [|l2 [|l3 [|l4 s12]]]]]];
          try (apply cons_scan_Ok in H as (text' & H & _);
               apply (py_scanstring_escape_u_long _ _ _ Hu) in H;
               simpl in H; lia).
        rewrite !append_cons. simpl in Hn.
        cbv beta iota delta [surrogate_pair] in H |- *.
        destruct (decode_uXXXX l1 l2 l3 l4) as [uni2|].
        -- destruct (is_high_surrogate uni && Ascii.eqb b "\" && Ascii.eqb u "u"
                     && is_low_surrogate uni2).
           ++ apply cons_scan_Ok in H as (text' & H & ->).
              rewrite (IH s12 text' rest) by (auto; lia). reflexivity.
           ++ apply cons_scan_Ok in H as (text' & H & ->).
              change (String b (String u (String l1 (String l2 (String l3 (String l4 (s12 ++ t)))))))
                with (String b (String u (String l1 (String l2 (String l3 (String l4 s12))))) ++ t).
              rewrite (IH _ text' rest) by (auto; simpl; lia). reflexivity.
        -- apply cons_scan_Ok in H as (text' & H & ->).
           change (String b (String u (String l1 (String l2 (String l3 (String l4 (s12 ++ t)))))))
             with (String b (String u (String l1 (String l2 (String l3 (String l4 s12))))) ++ t).
           rewrite (IH _ text' rest) by (auto; simpl; lia). reflexivity.
      * rewrite surrogate_pair_alone in H by assumption.
        apply cons_scan_Ok in H as (text' & H & ->).
        rewrite surrogate_pair_alone
          by (eapply starts_with_escape_u_keep; eassumption).
        rewrite (IH s6 text' rest) by (auto; lia). reflexivity.
    + destruct (backslash esc) as [char|]; [|discriminate].
      apply cons_scan_Ok in H as (text' & H & ->).
      rewrite (IH s2 text' rest) by (auto; lia). reflexivity.
  - destruct (N.ltb (N_of_ascii c) 32); [discriminate |].
    apply cons_scan_Ok in H as (text' & H & ->).
    rewrite (IH s1 text' rest) by (auto; lia). reflexivity.
Qed.


(** *** Numbers and literals *)

Lemma delimiter_cases c :
  delimiter c = true ->
  c = " "%char \/ c = "009"%char \/ c = "010"%char \/ c = "013"%char \/
  c = ","%char \/ c = "]"%char \/ c = "}"%char.
Proof.
  unfold delimiter, is_whitespace. intros H.
  repeat (apply orb_prop in H as [H|H]); apply Ascii.eqb_eq in H; auto 10.
Qed.

Lemma delimiter_not_number c :
  delimiter c = true ->
  is_digit c = false /\ Ascii.eqb c "." = false /\
  Ascii.eqb c "e" = false /\ Ascii.eqb c "E" = false.
Proof.
  intros H. apply delimiter_cases in H.
  repeat (destruct H as [H|H]); subst c; repeat split.
Qed.

Lemma span_digits_append s t digits c rest :
  span_digits s = (digits, String c rest) ->
  span_digits (s ++ t) = (digits, String c rest ++ t).
Proof.
  revert digits. induction s as [|x s IH]; intros digits; simpl_append; [discriminate |].
  destruct (is_digit x).
  - destruct (span_digits s) as [d r]. intros [= <- ->].
    now rewrite (IH d eq_refl).
  - intros [= <- <- <-]. reflexivity.
Qed.

Lemma match_integer_append s t integer c rest :
  match_integer s = Some (integer, String c rest) ->
  match_integer (s ++ t) = Some (integer, String c rest ++ t).
Proof.
  unfold match_integer.
  destruct s as [|x s]; simpl_append; [discriminate |].
  destruct (Ascii.eqb x "-").
  - destruct s as [|y s]; simpl_append; [discriminate |].
    destruct (Ascii.eqb y "0"); [now intros [= <- ->] |].
    destruct (is_digit y); [|discriminate].
    destruct (span_digits s) as [d r] eqn:Hs. intros [= <- ->].
    now rewrite (span_digits_append _ t _ _ _ Hs).
  - destruct (Ascii.eqb x "0"); [now intros [= <- ->] |].
    destruct (is_digit x); [|discriminate].
    destruct (span_digits s) as [d r] eqn:Hs. intros [= <- ->].
    now rewrite (span_digits_append _ t _ _ _ Hs).
Qed.


Lemma match_frac_append s t frac c rest :
  match_frac s = (frac, String c rest) ->
  Ascii.eqb c "." = false ->
  match_frac (s ++ t) = (frac, String c rest ++ t).
Proof.
  unfold match_frac. destruct s as [|x s]; simpl_append; [discriminate |].
  destruct (Ascii.eqb x ".") eqn:Hx.
  - destruct (span_digits s) as [[|d ds] r] eqn:Hs.
    + intros [= <- <- <-] Hc. congruence.
    + intros [= <- ->] _. now rewrite (span_digits_append _ t _ _ _ Hs).
  - now intros [= <- <- <-] _.
Qed.

Lemma match_frac_start s frac c rest :
  match_frac s = (frac, String c rest) -> exists c' rest', s = String c' rest'.
Proof.
  destruct s as [|x s]; [discriminate | eauto].
Qed.

Lemma match_exp_append s t exp c rest :
  match_exp s = (exp, String c rest) ->
  Ascii.eqb c "e" = false -> Ascii.eqb c "E" = false ->
  match_exp (s ++ t) = (exp, String c rest ++ t).
Proof.
  unfold match_exp. destruct s as [|x s]; simpl_append; [discriminate |].
  destruct (Ascii.eqb x "e" || Ascii.eqb x "E") eqn:Hx.
  - destruct s as [|d s]; simpl_append.
    + intros [= <- <- <-] He HE. rewrite He, HE in Hx. discriminate.
    + destruct (Ascii.eqb d "-" || Ascii.eqb d "+").
      * destruct (span_digits s) as [[|y ds] r] eqn:Hs.
        -- intros [= <- <- <-] He HE. rewrite He, HE in Hx. discriminate.
        -- intros [= <- ->] _ _. now rewrite (span_digits_append _ t _ _ _ Hs).
      * destruct (span_digits (String d s)) as [[|y ds] r] eqn:Hs.
        -- intros [= <- <- <-] He HE. rewrite He, HE in Hx. discriminate.
        -- intros [= <- ->] _ _.
           change (String d (s ++ t)) with (String d s ++ t).
           now rewrite (span_digits_append _ t _ _ _ Hs).
  - now intros [= <- <- <-] _ _.
Qed.

(** Before the exponent there is a character, and it is not a dot: the
    fraction, if any, was read already. *)
Lemma match_exp_start s exp c rest :
  match_exp s = (exp, String c rest) ->
  Ascii.eqb c "." = false ->
  exists c' rest', s = String c' rest' /\ Ascii.eqb c' "." = false.
Proof.
  unfold match_exp. destruct s as [|x s]; [discriminate |].
  intros H Hc. exists x, s. split; [reflexivity |].
  destruct (Ascii.eqb x "e" || Ascii.eqb x "E") eqn:Hx.
  - apply orb_prop in Hx as [Hx|Hx]; apply Ascii.eqb_eq in Hx; now subst x.
  - now injection H as _ <- _.
Qed.

Lemma match_number_append s t integer frac exp rest :
  match_number s = Some (integer, frac, exp, rest) ->
  delimited rest ->
  match_number (s ++ t) = Some (integer, frac, exp, rest ++ t).
Proof.
  unfold match_number.
  destruct (match_integer s) as [[i s1]|] eqn:Hi; [|discriminate].
  destruct (match_frac s1) as [f s2] eqn:Hf.
  destruct (match_exp s2) as [e s3] eqn:He.
  intros [= <- <- <- <-] (c & r & -> & Hd).
  apply delimiter_not_number in Hd as (_ & Hdot & Hlow & Hup).
  destruct (match_exp_start _ _ _ _ He Hdot) as (c2 & r2 & -> & Hdot2).
  destruct (match_frac_start _ _ _ _ Hf) as (c1 & r1 & ->).
  rewrite (match_integer_append _ t _ _ _ Hi).
  rewrite (match_frac_append _ t _ _ _ Hf Hdot2).
  now rewrite (match_exp_append _ t _ _ _ He Hlow Hup).
Qed.

Lemma match_number_head s r :
  match_number s = Some r ->
  exists c s', s = String c s' /\ (c = "-"%char \/ is_digit c = true).
Proof.
  unfold match_number, match_integer.
  destruct s as [|x s]; [discriminate |]. intros H. exists x, s. split; [reflexivity |].
  destruct (Ascii.eqb_spec x "-"); [now left | right].
  destruct (Ascii.eqb_spec x "0"); [now subst |].
  destruct (is_digit x); [reflexivity | discriminate].
Qed.

Lemma strip_prefix_Some literal s rest :
  strip_prefix literal s = Some rest -> s = literal ++ rest.
Proof.
  revert s. induction literal as [|a literal IH]; intros s; simpl.
  - now intros [= ->].
  - destruct s as [|b s]; [discriminate |].
    destruct (Ascii.eqb_spec a b) as [->|]; [|discriminate].
    intros H. simpl_append. now rewrite (IH s H).
Qed.

Lemma strip_prefix_append literal rest :
  strip_prefix literal (literal ++ rest) = Some rest.
Proof.
  induction literal as [|a literal IH]; simpl_append; [reflexivity |].
  now rewrite Ascii.eqb_refl.
Qed.

Lemma strip_prefix_cons a literal b s :
  strip_prefix (String a literal) (String b s)
  = if Ascii.eqb a b then strip_prefix literal s else None.
Proof. reflexivity. Qed.

Lemma scan_scalar_append s t v rest :
  scan_scalar s = Ok (v, rest) ->
  delimited rest ->
  scan_scalar (s ++ t) = Ok (v, rest ++ t).
Proof.
  unfold scan_scalar. intros H Hd.
  destruct (strip_prefix "null" s) as [r|] eqn:E1.
  { apply strip_prefix_Some in E1. subst s. injection H as <- <-.
    now rewrite append_assoc, strip_prefix_append. }
  destruct (strip_prefix "true" s) as [r|] eqn:E2.
  { apply strip_prefix_Some in E2. subst s. injection H as <- <-.
    rewrite append_assoc. now rewrite (strip_prefix_append "true"). }
  destruct (strip_prefix "false" s) as [r|] eqn:E3.
  { apply strip_prefix_Some in E3. subst s. injection H as <- <-.
    rewrite append_assoc. now rewrite (strip_prefix_append "false"). }
  destruct (match_number s) as [[[[i f] e] r]|] eqn:Em.
  { assert (r = rest) as ->.
    { destruct f, e; try (now injection H as _ ->).
      destruct (parse_int i); [now injection H as _ -> | discriminate]. }
    destruct (match_number_head _ _ Em) as (c & s' & -> & Hc).
    rewrite (match_number_append _ t _ _ _ _ Em Hd).
    rewrite append_cons, !strip_prefix_cons.
    assert (Ascii.eqb "n" c = false /\ Ascii.eqb "t" c = false /\ Ascii.eqb "f" c = false)
      as (-> & -> & ->).
    { destruct Hc as [->|Hc]; [repeat split |].
      repeat split; apply Ascii.eqb_neq; intros <-; discriminate. }
    destruct f, e; try (now injection H as <-).
    destruct (parse_int i); [now injection H as <- | discriminate]. }
  destruct (strip_prefix "NaN" s) as [r|] eqn:E4.
  { apply strip_prefix_Some in E4. subst s. injection H as <- <-.
    rewrite append_assoc. reflexivity. }
  destruct (strip_prefix "Infinity" s) as [r|] eqn:E5.
  { apply strip_prefix_Some in E5. subst s. injection H as <- <-.
    rewrite append_assoc. reflexivity. }
  destruct (strip_prefix "-Infinity" s) as [r|] eqn:E6; [|discriminate].
  apply strip_prefix_Some in E6. subst s. injection H as <- <-.
  rewrite append_assoc. reflexivity.
Qed.


(** *** Containers *)

Lemma scan_once_empty fuel v rest : scan_once fuel "" <> Ok (v, rest).
Proof. destruct fuel; discriminate. Qed.

Lemma array_items_empty fuel values v rest : array_items fuel "" values <> Ok (v, rest).
Proof. destruct fuel as [|[|fuel]]; discriminate. Qed.

Lemma skip_whitespace_delimited s c rest :
  skip_whitespace s = String c rest -> delimiter c = true -> delimited s.
Proof.
  destruct s as [|x s]; [discriminate |]. simpl.
  destruct (is_whitespace x) eqn:Hx.
  - intros _ _. exists x, s. split; [reflexivity |]. unfold delimiter. now rewrite Hx.
  - intros [= -> ->] Hc. now exists c, rest.
Qed.

Lemma skip_whitespace_cons_append s t c rest :
  skip_whitespace s = String c rest ->
  skip_whitespace (s ++ t) = String c (rest ++ t).
Proof.
  intros H. rewrite skip_whitespace_append by (rewrite H; discriminate).
  now rewrite H.
Qed.

#[local] Arguments scan_scalar : simpl never.
#[local] Arguments py_scanstring : simpl never.
#[local] Arguments skip_whitespace : simpl never.

(** Text appended after a value that was read, and more fuel, change
    nothing, provided the value is self-delimiting or a delimiter follows
    it. *)
Lemma scan_append (t : string) (fuel : nat) :
  (forall s v rest,
     scan_once fuel s = Ok (v, rest) ->
     self_delimiting s = true \/ delimited rest ->
     forall fuel', fuel <= fuel' -> scan_once fuel' (s ++ t) = Ok (v, rest ++ t)) /\
  (forall s pairs v rest,
     object_members fuel s pairs = Ok (v, rest) ->
     forall fuel', fuel <= fuel' ->
     object_members fuel' (s ++ t) pairs = Ok (v, rest ++ t)) /\
  (forall s values v rest,
     array_items fuel s values = Ok (v, rest) ->
     forall fuel', fuel <= fuel' ->
     array_items fuel' (s ++ t) values = Ok (v, rest ++ t)).
Proof.
  induction fuel as [|fuel (IHscan & IHobject & IHarray)].
  { repeat split; intros; discriminate. }
  repeat split.
  - (* scan_once *)
    intros s v rest H Hd [|fuel'] Hle; [lia |]. apply le_S_n in Hle.
    destruct s as [|c s]; [discriminate |]. simpl_append. simpl in H.
    destruct (Ascii.eqb c "034") eqn:Hquote.
    { destruct (py_scanstring s) as [[text rest']|e] eqn:Hs; [|discriminate].
      injection H as <- <-.
      now rewrite (py_scanstring_append t _ s text rest' (le_n _) Hs). }
    destruct (Ascii.eqb c "{") eqn:Hbrace.
    { destruct (skip_whitespace s) as [|c' s'] eqn:Hs; [discriminate |].
      rewrite (skip_whitespace_cons_append _ t _ _ Hs).
      destruct (Ascii.eqb c' "}"); [now injection H as <- <- |].
      destruct (Ascii.eqb c' "034"); [|discriminate].
      now apply IHobject. }
    destruct (Ascii.eqb c "[") eqn:Hbracket.
    { destruct (skip_whitespace s) as [|c' s'] eqn:Hs; [discriminate |].
      rewrite (skip_whitespace_cons_append _ t _ _ Hs).
      destruct (Ascii.eqb c' "]"); [now injection H as <- <- |].
      now apply (IHarray (String c' s')). }
    destruct Hd as [Hd|Hd]; [simpl in Hd; now rewrite Hquote, Hbrace, Hbracket in Hd |].
    now apply (scan_scalar_append (String c s)).
  - (* object_members *)
    intros s pairs v rest H [|fuel'] Hle; [lia |]. apply le_S_n in Hle.
    simpl in H |- *.
    destruct (py_scanstring s) as [[key s1]|e] eqn:Hkey; [|discriminate].
    rewrite (py_scanstring_append t _ s key s1 (le_n _) Hkey).
    destruct (skip_whitespace s1) as [|colon s2] eqn:Hs1; [discriminate |].
    rewrite (skip_whitespace_cons_append _ t _ _ Hs1).
    destruct (Ascii.eqb colon ":"); [|discriminate].
    destruct (scan_once fuel (skip_whitespace s2)) as [[value s3]|e] eqn:Hvalue;
      [|discriminate].
    destruct (skip_whitespace s3) as [|c s4] eqn:Hs3; [discriminate |].
    assert (Hs2 : skip_whitespace s2 <> "").
    { intros E. rewrite E in Hvalue. now apply scan_once_empty in Hvalue. }
    rewrite (skip_whitespace_append _ t Hs2).
    assert (Hd : delimited s3).
    { apply (skip_whitespace_delimited _ _ _ Hs3). unfold delimiter.
      destruct (Ascii.eqb c "}") eqn:E1; [now rewrite !orb_true_r |].
      destruct (Ascii.eqb c ",") eqn:E2; [now rewrite !orb_true_r |].
      discriminate. }
    rewrite (IHscan _ _ _ Hvalue (or_intror Hd) fuel' Hle).
    rewrite (skip_whitespace_cons_append _ t _ _ Hs3).
    destruct (Ascii.eqb c "}"); [now injection H as <- <- |].
    destruct (Ascii.eqb c ","); [|discriminate].
    destruct (skip_whitespace s4) as [|quote s5] eqn:Hs4; [discriminate |].
    rewrite (skip_whitespace_cons_append _ t _ _ Hs4).
    destruct (Ascii.eqb quote "034"); [|discriminate].
    now apply IHobject.
  - (* array_items *)
    intros s values v rest H [|fuel'] Hle; [lia |]. apply le_S_n in Hle.
    simpl in H |- *.
    destruct (scan_once fuel s) as [[value s1]|e] eqn:Hvalue; [|discriminate].
    destruct (skip_whitespace s1) as [|c s2] eqn:Hs1; [discriminate |].
    assert (Hd : delimited s1).
    { apply (skip_whitespace_delimited _ _ _ Hs1). unfold delimiter.
      destruct (Ascii.eqb c "]") eqn:E1; [now rewrite !orb_true_r |].
      destruct (Ascii.eqb c ",") eqn:E2; [now rewrite !orb_true_r |].
      discriminate. }
    rewrite (IHscan _ _ _ Hvalue (or_intror Hd) fuel' Hle).
    rewrite (skip_whitespace_cons_append _ t _ _ Hs1).
    destruct (Ascii.eqb c "]"); [now injection H as <- <- |].
    destruct (Ascii.eqb c ","); [|discriminate].
    assert (Hs2 : skip_whitespace s2 <> "").
    { intros E. rewrite E in H. now apply array_items_empty in H. }
    rewrite (skip_whitespace_append _ t Hs2).
    now apply IHarray.
Qed.


End json_facts.

(** ** The reference decoder never runs out of fuel *)

Module json_fuel.
Import json json_facts.

Lemma skip_whitespace_length s : String.length (skip_whitespace s) <= String.length s.
Proof.
  induction s as [|c s IH]; simpl; [lia |].
  destruct (is_whitespace c); simpl; lia.
Qed.

Lemma skip_whitespace_cons_length s c rest :
  skip_whitespace s = String c rest -> String.length rest < String.length s.
Proof.
  intros H. pose proof (skip_whitespace_length s) as Hl. rewrite H in Hl.
  simpl in Hl. lia.
Qed.

(** What [py_scanstring] read is at least the closing quote, and it fails
    with [JSONDecodeError] only. *)
Lemma py_scanstring_outcome :
  forall n s,
    String.length s <= n ->
    match py_scanstring s with
    | Ok (_, rest) => String.length rest < String.length s
    | Raise e => e = JSONDecodeError
    end.
Proof.
  assert (Hcons : forall prefix (s s' : string),
    String.length s' < String.length s ->
    match py_scanstring s' with
    | Ok (_, rest) => String.length rest < String.length s'
    | Raise e => e = JSONDecodeError
    end ->
    match cons_scan prefix (py_scanstring s') with
    | Ok (_, rest) => String.length rest < String.length s
    | Raise e => e = JSONDecodeError
    end).
  { intros prefix s s' Hlt H. destruct (py_scanstring s') as [[? ?]|?]; simpl; [lia | auto]. }
  induction n as [|n IH]; intros s Hn.
  { destruct s; simpl in *; [reflexivity | lia]. }
  destruct s as [|c s1]; [reflexivity |].
  simpl in Hn. cbn [py_scanstring].
  destruct (Ascii.eqb c "034"); [simpl; lia |].
  destruct (Ascii.eqb c "\").
  - destruct s1 as [|esc s2]; [reflexivity |]. simpl in Hn.
    destruct (Ascii.eqb esc "u").
    + destruct s2 as [|h1 [|h2 [|h3 [|h4 s6]]]]; try reflexivity. simpl in Hn.
      destruct (decode_uXXXX h1 h2 h3 h4) as [uni|]; [|reflexivity].
      unfold surrogate_pair.
      destruct s6 as [|b [|u [|l1 [|l2 [|l3 [|l4 s12]]]]]];
        try (apply Hcons; [simpl; lia | apply IH; simpl in *; lia]).
      destruct (decode_uXXXX l1 l2 l3 l4) as [uni2|];
        [destruct (_ && _)|];
        (apply Hcons; [simpl; lia | apply IH; simpl in *; lia]).
    + destruct (backslash esc); [|reflexivity].
      apply Hcons; [simpl; lia | apply IH; lia].
  - destruct (N.ltb _ _); [reflexivity |].
    apply Hcons; [simpl; lia | apply IH; lia].
Qed.


Lemma span_digits_length s :
  String.length (snd (span_digits s)) <= String.length s.
Proof.
  induction s as [|c s IH]; simpl; [lia |].
  destruct (is_digit c); [|simpl; lia].
  destruct (span_digits s); simpl in *. lia.
Qed.

Lemma match_integer_length s integer rest :
  match_integer s = Some (integer, rest) -> String.length rest < String.length s.
Proof.
  unfold match_integer. destruct s as [|x s]; [discriminate |].
  destruct (Ascii.eqb x "-").
  - destruct s as [|y s]; [discriminate |].
    destruct (Ascii.eqb y "0"); [intros [= _ <-]; simpl; lia |].
    destruct (is_digit y); [|discriminate].
    pose proof (span_digits_length s) as Hl.
    destruct (span_digits s). intros [= _ <-]. simpl in *. lia.
  - destruct (Ascii.eqb x "0"); [intros [= _ <-]; simpl; lia |].
    destruct (is_digit x); [|discriminate].
    pose proof (span_digits_length s) as Hl.
    destruct (span_digits s). intros [= _ <-]. simpl in *. lia.
Qed.

Lemma match_frac_length s :
  String.length (snd (match_frac s)) <= String.length s.
Proof.
  unfold match_frac. destruct s as [|x s]; [simpl; lia |].
  destruct (Ascii.eqb x "."); [|simpl; lia].
  pose proof (span_digits_length s) as Hl.
  destruct (span_digits s) as [[|d ds] r]; simpl in *; lia.
Qed.

Lemma match_exp_length s :
  String.length (snd (match_exp s)) <= String.length s.
Proof.
  unfold match_exp. destruct s as [|x s]; [simpl; lia |].
  destruct (_ || _); [|simpl; lia].
  destruct s as [|d s]; [simpl; lia |].
  destruct (_ || _).
  - pose proof (span_digits_length s) as Hl.
    destruct (span_digits s) as [[|y ds] r]; simpl in *; lia.
  - pose proof (span_digits_length (String d s)) as Hl.
    destruct (span_digits (String d s)) as [[|y ds] r]; simpl in *; lia.
Qed.

Lemma match_number_length s integer frac exp rest :
  match_number s = Some (integer, frac, exp, rest) ->
  String.length rest < String.length s.
Proof.
  unfold match_number.
  destruct (match_integer s) as [[i s1]|] eqn:Hi; [|discriminate].
  apply match_integer_length in Hi.
  pose proof (match_frac_length s1) as Hf. destruct (match_frac s1) as [f s2].
  pose proof (match_exp_length s2) as He. destruct (match_exp s2) as [e s3].
  intros [= _ _ _ <-]. simpl in *. lia.
Qed.

Lemma strip_prefix_length literal s rest :
  strip_prefix literal s = Some rest ->
  String.length s = String.length literal + String.length rest.
Proof.
  intros H. apply strip_prefix_Some in H. subst s. apply length_append.
Qed.

Lemma scan_scalar_outcome s :
  match scan_scalar s with
  | Ok (_, rest) => String.length rest < String.length s
  | Raise e => e <> RecursionError
  end.
Proof.
  unfold scan_scalar.
  destruct (strip_prefix "null" s) eqn:E1;
    [apply strip_prefix_length in E1; simpl in E1; lia |].
  destruct (strip_prefix "true" s) eqn:E2;
    [apply strip_prefix_length in E2; simpl in E2; lia |].
  destruct (strip_prefix "false" s) eqn:E3;
    [apply strip_prefix_length in E3; simpl in E3; lia |].
  destruct (match_number s) as [[[[i f] e] r]|] eqn:Em.
  { apply match_number_length in Em.
    destruct f, e; try assumption.
    unfold parse_int.
    destruct i as [|[[] [] [] [] [] [] [] []] ?];
      repeat match goal with |- context [if ?b then _ else _] => destruct b end;
      (assumption || discriminate). }
  destruct (strip_prefix "NaN" s) eqn:E4;
    [apply strip_prefix_length in E4; simpl in E4; lia |].
  destruct (strip_prefix "Infinity" s) eqn:E5;
    [apply strip_prefix_length in E5; simpl in E5; lia |].
  destruct (strip_prefix "-Infinity" s) eqn:E6;
    [apply strip_prefix_length in E6; simpl in E6; lia | discriminate].
Qed.

#[local] Arguments scan_scalar : simpl never.
#[local] Arguments py_scanstring : simpl never.
#[local] Arguments skip_whitespace : simpl never.

(** What the three scanners read is not empty, and fuel runs out only when
    there was less of it than twice the length of the text. *)
Lemma scan_outcome (fuel : nat) :
  (forall s,
     match scan_once fuel s with
     | Ok (_, rest) => String.length rest < String.length s
     | Raise e => e = RecursionError -> fuel < 2 * String.length s + 1
     end) /\
  (forall s pairs,
     match object_members fuel s pairs with
     | Ok (_, rest) => String.length rest < String.length s
     | Raise e => e = RecursionError -> fuel < 2 * String.length s + 2
     end) /\
  (forall s values,
     match array_items fuel s values with
     | Ok (_, rest) => String.length rest < String.length s
     | Raise e => e = RecursionError -> fuel < 2 * String.length s + 2
     end).
Proof.
  induction fuel as [|fuel (IHscan & IHobject & IHarray)].
  { repeat split; intros; simpl; lia. }
  repeat split.
  - intros s. destruct s as [|c s]; [simpl; discriminate |]. simpl.
    destruct (Ascii.eqb c "034").
    { pose proof (py_scanstring_outcome _ s (le_n _)) as Hs.
      destruct (py_scanstring s) as [[text rest]|e]; [lia | now subst e]. }
    destruct (Ascii.eqb c "{").
    { destruct (skip_whitespace s) as [|c' s'] eqn:Hs; [discriminate |].
      apply skip_whitespace_cons_length in Hs.
      destruct (Ascii.eqb c' "}"); [lia |].
      destruct (Ascii.eqb c' "034"); [|discriminate].
      specialize (IHobject s' []).
      destruct (object_members fuel s' []) as [[v rest]|e]; [lia |].
      intros He. specialize (IHobject He). lia. }
    destruct (Ascii.eqb c "[").
    { destruct (skip_whitespace s) as [|c' s'] eqn:Hs; [discriminate |].
      apply skip_whitespace_cons_length in Hs.
      destruct (Ascii.eqb c' "]"); [lia |].
      specialize (IHarray (String c' s') []).
      destruct (array_items fuel (String c' s') []) as [[v rest]|e];
        simpl in IHarray; [lia |].
      intros He. specialize (IHarray He). lia. }
    pose proof (scan_scalar_outcome (String c s)) as Hs.
    destruct (scan_scalar (String c s)) as [[v rest]|e]; simpl in Hs; [lia | contradiction].
  - intros s pairs. simpl.
    pose proof (py_scanstring_outcome _ s (le_n _)) as Hkey.
    destruct (py_scanstring s) as [[key s1]|e]; [|now subst e].
    destruct (skip_whitespace s1) as [|colon s2] eqn:Hs1; [discriminate |].
    apply skip_whitespace_cons_length in Hs1.
    destruct (Ascii.eqb colon ":"); [|discriminate].
    pose proof (skip_whitespace_length s2) as Hs2.
    specialize (IHscan (skip_whitespace s2)).
    destruct (scan_once fuel (skip_whitespace s2)) as [[value s3]|e];
      [|intros He; specialize (IHscan He); lia].
    destruct (skip_whitespace s3) as [|c s4] eqn:Hs3; [discriminate |].
    apply skip_whitespace_cons_length in Hs3.
    destruct (Ascii.eqb c "}"); [lia |].
    destruct (Ascii.eqb c ","); [|discriminate].
    destruct (skip_whitespace s4) as [|quote s5] eqn:Hs4; [discriminate |].
    apply skip_whitespace_cons_length in Hs4.
    destruct (Ascii.eqb quote "034"); [|discriminate].
    specialize (IHobject s5 (pairs ++ [(key, value)])%list).
    destruct (object_members fuel s5 _) as [[v rest]|e]; [lia |].
    intros He. specialize (IHobject He). lia.
  - intros s values. simpl.
    specialize (IHscan s).
    destruct (scan_once fuel s) as [[value s1]|e];
      [|intros He; specialize (IHscan He); lia].
    destruct (skip_whitespace s1) as [|c s2] eqn:Hs1; [discriminate |].
    apply skip_whitespace_cons_length in Hs1.
    destruct (Ascii.eqb c "]"); [lia |].
    destruct (Ascii.eqb c ","); [|discriminate].
    pose proof (skip_whitespace_length s2) as Hs2.
    specialize (IHarray (skip_whitespace s2) (values ++ [value])%list).
    destruct (array_items fuel (skip_whitespace s2) _) as [[v rest]|e]; [lia |].
    intros He. specialize (IHarray He). lia.
Qed.

(** [loads] gives its scanner fuel that cannot run out. *)
Theorem loads_has_fuel (s : string) : loads s <> Raise RecursionError.
Proof.
  unfold loads. destruct (String.prefix BOM s); [discriminate |].
  destruct (scan_outcome (2 * String.length s + 1)) as (Hscan & _ & _).
  specialize (Hscan (skip_whitespace s)).
  pose proof (skip_whitespace_length s) as Hl.
  destruct (scan_once _ (skip_whitespace s)) as [[obj rest]|e].
  - destruct (skip_whitespace rest); discriminate.
  - intros [= ->]. specialize (Hscan eq_refl). lia.
Qed.


(** A document that starts with a brace decodes to a [dict]. *)
Lemma object_members_dict fuel :
  forall s pairs v rest,
    object_members fuel s pairs = Ok (v, rest) -> exists d, v = PyDict d.
Proof.
  induction fuel as [|fuel IH]; intros s pairs v rest; simpl; [discriminate |].
  destruct (py_scanstring s) as [[key s1]|e]; [|discriminate].
  destruct (skip_whitespace s1) as [|colon s2]; [discriminate |].
  destruct (Ascii.eqb colon ":"); [|discriminate].
  destruct (scan_once fuel (skip_whitespace s2)) as [[value s3]|e]; [|discriminate].
  destruct (skip_whitespace s3) as [|c s4]; [discriminate |].
  destruct (Ascii.eqb c "}"); [intros [= <- _]; eauto |].
  destruct (Ascii.eqb c ","); [|discriminate].
  destruct (skip_whitespace s4) as [|quote s5]; [discriminate |].
  destruct (Ascii.eqb quote "034"); [|discriminate].
  apply IH.
Qed.

Theorem loads_object (body : string) (v : py_value) :
  loads (String "{" body) = Ok v -> exists d, v = PyDict d.
Proof.
  unfold loads.
  change (String.prefix BOM (String "{" body)) with false. cbv iota.
  change (skip_whitespace (String "{" body)) with (String "{" body).
  destruct (scan_once _ (String "{" body)) as [[obj rest]|e] eqn:Hscan; [|discriminate].
  destruct (skip_whitespace rest); [|discriminate]. intros [= <-].
  destruct (2 * String.length (String "{" body) + 1) as [|fuel]; [discriminate |].
  simpl in Hscan.
  destruct (skip_whitespace body) as [|c s]; [discriminate |].
  destruct (Ascii.eqb c "}"); [injection Hscan as <- _; eauto |].
  destruct (Ascii.eqb c "034"); [|discriminate].
  eapply object_members_dict; eassumption.
Qed.

End json_fuel.

(** ** What [is_valid_json] takes for JSON *)

Lemma is_valid_json_candidate (env : environment) (pre group post : string) :
  occurs "{" pre = false ->
  occurs "}" post = false ->
  is_valid_json env (pre ++ "{" ++ group ++ "}" ++ post) =
    match json_loads env ("{" ++ group ++ "}") with
    | Ok parsed_json => Ok {| isJSON := true; parsedJson := parsed_json |}
    | Raise JSONDecodeError => Ok {| isJSON := false; parsedJson := PyNone |}
    | Raise e => Raise e
    end.
Proof.
  intros Hpre Hpost. unfold is_valid_json.
  change (pre ++ "{" ++ group ++ "}" ++ post)
    with (pre ++ String "{" (group ++ String "}" post)).
  now rewrite re_search_braces_first_last.
Qed.


(** With the reference decoder, what [is_valid_json] hands on is a [dict]:
    the candidate starts with a brace. *)
Lemma is_valid_json_dict (model : list message -> py_result string)
    (text : string) (v : py_value) :
  is_valid_json (weather_env model) text = Ok {| isJSON := true; parsedJson := v |} ->
  exists d, v = PyDict d.
Proof.
  unfold is_valid_json. destruct (re_search_braces text) as [group|]; [|discriminate].
  change (json_loads (weather_env model)) with json.loads.
  destruct (json.loads ("{" ++ group ++ "}")) as [parsed|e] eqn:Hloads.
  - intros [= <-]. exact (json_fuel.loads_object _ _ Hloads).
  - destruct e; discriminate.
Qed.

(** ** The recorded run *)

(** The loop of the notebook, run with the weather server and the replies of
    the recorded run, ends after three passes with the chat history that the
    notebook printed: the model lists the tools, calls [get_weather] for New
    York, and answers. *)
Example recorded_run :
  let '(result, final) :=
    invoke_example (weather_env recorded_model) "You are a helpful assistance."
      "What's the weather in New York?" 3 notebook_state in
  result = Ok true /\
  map role (messages final) = ["system"; "user"; "ai"; "user"; "ai"; "user"; "ai"] /\
  tool_response final = "It's sunny in New York" /\
  response final = "The weather in New York is currently sunny." /\
  sessions final = 2.
Proof. vm_compute. repeat split. Qed.

(** ** The join of [list_tools] *)

Lemma str_join_concat (sep : string) (parts : list string) :
  str_join sep parts = String.concat sep parts.
Proof.
  induction parts as [|p [|q parts] IH]; [reflexivity..|].
  change (str_join sep (p :: q :: parts)) with (p ++ sep ++ str_join sep (q :: parts)).
  rewrite IH. reflexivity.
Qed.

Lemma str_join_separated (documents : list string) :
  documents <> [] ->
  separated_by_commas documents (str_join comma_newline documents).
Proof.
  induction documents as [|p [|q documents] IH]; intros Hsome.
  - contradiction.
  - constructor.
  - change (str_join comma_newline (p :: q :: documents))
      with (p ++ "" ++ "," ++ String "010"%char "" ++ str_join comma_newline (q :: documents)).
    constructor; [reflexivity | reflexivity | now apply IH].
Qed.

Lemma str_join_array_text (documents : list string) :
  json_array_text documents ("[" ++ str_join comma_newline documents ++ "]").
Proof.
  destruct documents as [|p documents].
  - exact (array_text_empty "" eq_refl).
  - exact (array_text_elements "" _ _ "" eq_refl eq_refl
             (str_join_separated (p :: documents) ltac:(discriminate))).
Qed.


(** * The claims *)

(** C1, as the claim states it, fails: the reply below parses as JSON, and
    the pass of the loop still sets [AI_responded], because the object has
    no ["operation"] key. *)
Lemma C1_json_reply_ends_the_loop :
  let reply := dq "{'a': 1}" in
  let env := weather_env (constant_model reply) in
  is_valid_json env reply
    = Ok {| isJSON := true; parsedJson := PyDict [("a", PyInt 1)] |} /\
  AI_responded recorded_state = false /\
  AI_responded (snd (loop_body env recorded_state)) = true.
Proof.
  repeat split; vm_compute; reflexivity.
Qed.

(** C1, amended.  For a reply that is not empty, a pass of the loop sets
    [AI_responded] if and only if [is_valid_json] finds no JSON in the reply
    or finds an object without the key ["operation"].  Such a reply is the
    final answer: [handle_llm_response] returns it as the [AI] result and
    the pass ends with [AI_responded] set.  A reply in which [is_valid_json]
    finds an object with the key ["operation"] does not set
    [AI_responded]. *)
Theorem C1_loop_ends_iff_no_operation
    (env : environment) (st : state) (reply : string) :
  chain_invoke env (messages st) = Ok reply ->
  AI_responded st = false ->
  reply <> "" ->
  let final := snd (loop_body env st) in
  (AI_responded final = true <->
   exists vj,
     is_valid_json env reply = Ok vj /\
     (isJSON vj = false \/ py_contains "operation" (parsedJson vj) = Ok false)) /\
  (forall vj,
     is_valid_json env reply = Ok vj ->
     isJSON vj = false \/ py_contains "operation" (parsedJson vj) = Ok false ->
     handle_llm_response env reply (after_reply reply st)
       = (Ok (AI reply), after_uuid4 (after_reply reply st)) /\
     loop_body env st
       = (Ok tt, set_AI_responded true (after_uuid4 (after_reply reply st)))) /\
  (forall vj,
     is_valid_json env reply = Ok vj ->
     isJSON vj = true ->
     py_contains "operation" (parsedJson vj) = Ok true ->
     AI_responded final = false).
Proof.
  intros Hreply Hfalse Hne final.
  assert (Hanswer : forall vj,
    is_valid_json env reply = Ok vj ->
    isJSON vj = false \/ py_contains "operation" (parsedJson vj) = Ok false ->
    handle_llm_response env reply (after_reply reply st)
      = (Ok (AI reply), after_uuid4 (after_reply reply st))).
  { intros vj Hvj Hcond.
    pose proof (is_tool_use_answer env reply vj Hvj Hcond) as Huse.
    apply (handle_llm_response_answer env _ reply _ Huse).
    now apply str_truthy_true. }
  assert (Hiff : AI_responded final = true <->
    exists vj,
      is_valid_json env reply = Ok vj /\
      (isJSON vj = false \/ py_contains "operation" (parsedJson vj) = Ok false)).
  { subst final. rewrite (loop_body_AI_responded env st reply Hreply Hfalse). split.
    - intros [text Htext].
      destruct (handle_llm_response env reply (after_reply reply st)) as [res st'] eqn:Hrun.
      simpl in Htext. subst res.
      destruct (handle_llm_response_AI env _ _ _ _ Hrun) as (r & Hr & Ht & _).
      destruct (is_tool_use_cases env reply r Hr) as (vj & Hvj & [[_ Hc]|[-> _]]).
      + now exists vj.
      + discriminate.
    - intros (vj & Hvj & Hcond). exists reply. now rewrite (Hanswer vj Hvj Hcond). }
  split; [exact Hiff | split].
  - intros vj Hvj Hcond. split; [now apply (Hanswer vj) |].
    now rewrite (loop_body_reply env st reply Hreply), (Hanswer vj Hvj Hcond).
  - intros vj Hvj Hjson Hop.
    destruct (AI_responded final); [|reflexivity].
    destruct (proj1 Hiff eq_refl) as (vj' & Hvj' & Hcond).
    rewrite Hvj in Hvj'. injection Hvj' as <-.
    destruct Hcond; congruence.
Qed.

(** The amended C1 at the final answer of the recorded run. *)
Lemma C1_witness :
  let reply := "The weather in New York is currently sunny." in
  let env := weather_env (constant_model reply) in
  loop_body env recorded_state
    = (Ok tt, set_AI_responded true (after_uuid4 (after_reply reply recorded_state))) /\
  AI_responded (snd (loop_body env recorded_state)) = true.
Proof.
  intros reply env.
  assert (Hne : reply <> "") by discriminate.
  destruct (C1_loop_ends_iff_no_operation env recorded_state reply eq_refl eq_refl Hne)
    as (Hiff & Hanswer & _).
  pose (vj := {| isJSON := false; parsedJson := PyNone |}).
  split.
  - exact (proj2 (Hanswer vj eq_refl (or_introl eq_refl))).
  - apply Hiff. exists vj. split; [reflexivity | now left].
Defined.

(** C2, as the claim states it, fails: the reply below is classified as a
    request ([tool_use] holds the object), yet no operation is dispatched:
    the server sees nothing and what is appended to [messages] is the fixed
    [NoSuchOperationError] text, not the result of an operation. *)
Lemma C2_request_without_dispatch :
  let reply := dq "{'operation': 'get_weather'}" in
  let env := weather_env (constant_model reply) in
  let final := snd (loop_body env recorded_state) in
  is_tool_use env reply
    = Ok {| tool_use := PyDict [("operation", PyStr "get_weather")]; inputMessage := "" |} /\
  trace final = [] /\
  sessions final = 0 /\
  messages final
    = (messages recorded_state
         ++ [ {| role := "ai"; msg_content := reply |};
              {| role := "user"; msg_content := NoSuchOperationError_text |} ])%list.
Proof.
  repeat split; vm_compute; reflexivity.
Qed.

(** C2, amended.  Every reply that is not empty and on which [is_tool_use]
    returns is classified as the final answer ([inputMessage] is the reply)
    or as a request ([inputMessage] is empty and [tool_use] has the key
    ["operation"]), never both.  For the final answer the pass sets
    [AI_responded], so the loop ends, with the reply in [response].  For a
    request whose ["operation"] is a key of the table and whose call returns,
    the output (after ["Error: "] when flagged) is appended to [messages] as
    a user message after the reply and the loop goes on.  For a request
    whose ["operation"] can be hashed and is no key of the table nothing is
    dispatched: the [NoSuchOperationError] text is appended instead and the
    loop goes on. *)
Theorem C2_classify_then_dispatch
    (env : environment) (st : state) (reply : string) (r : tool_use_result) :
  chain_invoke env (messages st) = Ok reply ->
  AI_responded st = false ->
  reply <> "" ->
  is_tool_use env reply = Ok r ->
  let start := after_reply reply st in
  let final := snd (loop_body env st) in
  let ai := {| role := "ai"; msg_content := reply |} in
  (r = {| tool_use := PyStr ""; inputMessage := reply |} \/
   (inputMessage r = "" /\ py_contains "operation" (tool_use r) = Ok true)) /\
  (r = {| tool_use := PyStr ""; inputMessage := reply |} ->
   AI_responded final = true /\
   response final = reply /\
   messages final = (messages st ++ [ai])%list /\
   trace final = trace st /\
   forall fuel, while_not_AI_responded env (S fuel) st = (Ok true, final)) /\
  (forall d k f out flag st',
     r = {| tool_use := PyDict d; inputMessage := "" |} ->
     dict_get "operation" d = Some (PyStr k) ->
     operation (weather_client st) !! k = Some f ->
     call_method env f (kwargs_of d) (after_uuid4 start) = (Ok (out, flag), st') ->
     let text := if flag then "Error: " ++ out else out in
     messages final = (messages st ++ [ai; {| role := "user"; msg_content := text |}])%list /\
     AI_responded final = false /\
     forall fuel,
       while_not_AI_responded env (S fuel) st = while_not_AI_responded env fuel final) /\
  (forall d op,
     r = {| tool_use := PyDict d; inputMessage := "" |} ->
     dict_get "operation" d = Some op ->
     py_in_table op (operation (weather_client st)) = Ok false ->
     trace final = trace st /\
     sessions final = sessions st /\
     messages final
       = (messages st
            ++ [ai; {| role := "user"; msg_content := NoSuchOperationError_text |}])%list /\
     AI_responded final = false /\
     forall fuel,
       while_not_AI_responded env (S fuel) st = while_not_AI_responded env fuel final).
Proof.
  intros Hreply Hfalse Hne Hr start final ai. subst start.
  assert (Hstep : forall st',
    loop_body env st = (Ok tt, st') ->
    forall fuel,
      while_not_AI_responded env (S fuel) st = while_not_AI_responded env fuel st').
  { intros st' Hbody fuel.
    rewrite while_not_AI_responded_step; rewrite ?Hbody; auto. }
  split; [|split; [|split]].
  - destruct (is_tool_use_cases env reply r Hr) as (vj & _ & [[-> _]|[-> [_ Hc]]]); auto.
  - intros ->.
    assert (Hrun : handle_llm_response env reply (after_reply reply st)
                   = (Ok (AI reply), after_uuid4 (after_reply reply st))).
    { apply (handle_llm_response_answer env _ reply _ Hr). now apply str_truthy_true. }
    assert (Hbody : loop_body env st
                    = (Ok tt, set_AI_responded true (after_uuid4 (after_reply reply st)))).
    { now rewrite (loop_body_reply env st reply Hreply), Hrun. }
    subst final. rewrite Hbody.
    split; [reflexivity | split; [reflexivity | split; [reflexivity | split; [reflexivity |]]]].
    intros fuel. rewrite (Hstep _ Hbody).
    now apply while_not_AI_responded_done.
  - intros d k f out flag st' -> Hop Hf Hcall text.
    assert (Hrun : handle_llm_response env reply (after_reply reply st)
                   = (Ok (Tool text (uuid4_value env (uuids st))), st')).
    { rewrite (handle_llm_response_dispatch env (after_reply reply st) reply d k f Hr Hop Hf),
        Hcall.
      subst text. now destruct flag. }
    pose proof (keeps_globals_call_method env f (kwargs_of d)
                  (after_uuid4 (after_reply reply st))) as Hkeep.
    rewrite Hcall in Hkeep. destruct Hkeep as (_ & Hm & Ha & _ & _). simpl in Hm, Ha.
    assert (Hbody : loop_body env st
      = (Ok tt, set_tool_response text
                  (set_messages (messages st' ++ [{| role := "user"; msg_content := text |}]) st'))).
    { now rewrite (loop_body_reply env st reply Hreply), Hrun. }
    subst final. rewrite Hbody.
    split; [|split].
    + simpl. now rewrite Hm, <- app_assoc.
    + simpl. now rewrite Ha.
    + apply (Hstep _ Hbody).
  - intros d op -> Hop Hin.
    assert (Hrun : handle_llm_response env reply (after_reply reply st)
      = (Ok (Tool NoSuchOperationError_text (uuid4_value env (uuids st))),
         after_uuid4 (after_reply reply st))).
    { apply (handle_llm_response_no_such_operation env (after_reply reply st) reply d op
               Hr Hop Hin). }
    assert (Hbody : loop_body env st
      = (Ok tt, set_tool_response NoSuchOperationError_text
                  (set_messages
                     (messages (after_uuid4 (after_reply reply st))
                        ++ [{| role := "user"; msg_content := NoSuchOperationError_text |}])
                     (after_uuid4 (after_reply reply st))))).
    { now rewrite (loop_body_reply env st reply Hreply), Hrun. }
    subst final. rewrite Hbody.
    split; [reflexivity | split; [reflexivity | split; [|split]]].
    + simpl. now rewrite <- app_assoc.
    + assumption.
    + apply (Hstep _ Hbody).
Qed.

(** The amended C2 at the call of [get_weather] of the recorded run. *)
Lemma C2_witness :
  let reply :=
    dq "{'operation': 'execute_tool', 'tool_name': 'get_weather', 'tool_parameters': {'location': 'New York'}}" in
  let env := weather_env (constant_model reply) in
  let final := snd (loop_body env recorded_state) in
  messages final
    = (messages recorded_state
         ++ [ {| role := "ai"; msg_content := reply |};
              {| role := "user"; msg_content := "It's sunny in New York" |} ])%list /\
  AI_responded final = false.
Proof.
  intros reply env final.
  pose (d := [("operation", PyStr "execute_tool"); ("tool_name", PyStr "get_weather");
              ("tool_parameters", PyDict [("location", PyStr "New York")])]).
  assert (Hr : is_tool_use env reply = Ok {| tool_use := PyDict d; inputMessage := "" |})
    by (vm_compute; reflexivity).
  assert (Hne : reply <> "") by discriminate.
  destruct (C2_classify_then_dispatch env recorded_state reply _ eq_refl eq_refl Hne Hr)
    as (_ & _ & Hdispatch & _).
  destruct (Hdispatch d "execute_tool" execute_tool_method "It's sunny in New York" false
              (after_session
                 [session_call_tool 0 (PyStr "get_weather")
                    (PyDict [("location", PyStr "New York")])]
                 (after_uuid4 (after_reply reply recorded_state))))
    as (Hm & Ha & _).
  - reflexivity.
  - reflexivity.
  - reflexivity.
  - vm_compute. reflexivity.
  - split; assumption.
Defined.

(** C3.  The operation table of a client built by [MCP_client.__init__] has
    exactly the two keys ["list_tools"] and ["execute_tool"], bound to the
    client's methods [list_tools] and [execute_tool].  [handle_llm_response]
    never changes the client, and it reaches the server only through this
    table: if the server saw anything, the request's ["operation"] is one of
    the two keys; and for a request under a key of the table the outcome is
    the outcome of calling the method found there. *)
Theorem C3_dispatch_table
    (env : environment) (params : StdioServerParameters) (st : state) (reply : string) :
  weather_client st = MCP_client_init params ->
  (dom (operation (weather_client st)) = ({["list_tools"; "execute_tool"]} : gset string) /\
   size (operation (weather_client st)) = 2 /\
   operation (weather_client st) !! "list_tools" = Some list_tools_method /\
   operation (weather_client st) !! "execute_tool" = Some execute_tool_method) /\
  (call_method env list_tools_method {| kw_tool_name := None; kw_tool_parameters := None |}
     = list_tools env /\
   forall tool_name tool_parameters,
     call_method env execute_tool_method
       {| kw_tool_name := Some tool_name; kw_tool_parameters := Some tool_parameters |}
     = execute_tool env tool_name tool_parameters) /\
  weather_client (snd (handle_llm_response env reply st)) = weather_client st /\
  (trace (snd (handle_llm_response env reply st)) <> trace st ->
   exists r k,
     is_tool_use env reply = Ok r /\
     py_getitem (tool_use r) "operation" = Ok (PyStr k) /\
     (k = "list_tools" \/ k = "execute_tool")) /\
  (forall d k f,
     is_tool_use env reply = Ok {| tool_use := PyDict d; inputMessage := "" |} ->
     dict_get "operation" d = Some (PyStr k) ->
     operation (weather_client st) !! k = Some f ->
     handle_llm_response env reply st =
       match call_method env f (kwargs_of d) (after_uuid4 st) with
       | (Ok (out, true), st') =>
           (Ok (Tool ("Error: " ++ out) (uuid4_value env (uuids st))), st')
       | (Ok (out, false), st') => (Ok (Tool out (uuid4_value env (uuids st))), st')
       | (Raise e, st') => (Raise e, st')
       end).
Proof.
  intros Hclient. repeat split.
  - rewrite Hclient. apply init_table_dom.
  - rewrite Hclient. apply init_table_size.
  - rewrite Hclient. apply init_table_lookup. now left.
  - rewrite Hclient. apply init_table_lookup. now right.
  - apply keeps_globals_handle_llm_response.
  - intros Htrace.
    destruct (handle_llm_response_world env st reply) as [H|[H|(r & k & f & kw & Hr & Hop & Hf & _)]].
    + rewrite H in Htrace. contradiction.
    + rewrite H in Htrace. contradiction.
    + exists r, k. repeat split; [assumption.. |].
      rewrite Hclient in Hf. apply init_table_lookup in Hf as [[-> _]|[-> _]]; auto.
  - intros d k f. apply handle_llm_response_dispatch.
Qed.

(** C3 at the client of the notebook and a request for [list_tools]. *)
Lemma C3_witness :
  let reply := dq "{'operation': 'list_tools'}" in
  let env := weather_env (constant_model reply) in
  size (operation (weather_client recorded_state)) = 2 /\
  fst (handle_llm_response env reply recorded_state)
    = Ok (Tool (dq "[{'name': 'get_weather', 'description': 'Get weather for location.'}]") 0).
Proof.
  intros reply env.
  destruct (C3_dispatch_table env notebook_server_params recorded_state reply eq_refl)
    as ((_ & Hsize & _) & _ & _ & _ & Hdispatch).
  split; [exact Hsize |].
  rewrite (Hdispatch [("operation", PyStr "list_tools")] "list_tools" list_tools_method
             eq_refl eq_refl eq_refl).
  reflexivity.
Defined.



(** C5.  The claim: a JSON object whose ["operation"] is neither
    ["list_tools"] nor ["execute_tool"] gets the [NoSuchOperationError] text
    as a [Tool] message and the loop goes on.  The code does so when the
    value can be hashed ([handle_llm_response_no_such_operation]); when it is
    a list or an object, the test [... in weather_client.operation] raises
    [TypeError] ([handle_llm_response_unhashable]) and the pass of the loop
    ends with the exception.  Here the reply is an object whose
    ["operation"] is the empty list. *)
Theorem C5_unhashable_operation_raises :
  let reply := dq "{'operation': []}" in
  let env := weather_env (constant_model reply) in
  is_valid_json env reply
    = Ok {| isJSON := true; parsedJson := PyDict [("operation", PyList [])] |} /\
  handle_llm_response env reply (after_reply reply recorded_state)
    = (Raise (TypeError Unhashable), after_uuid4 (after_reply reply recorded_state)) /\
  loop_body env recorded_state
    = (Raise (TypeError Unhashable), after_uuid4 (after_reply reply recorded_state)).
Proof.
  repeat split; vm_compute; reflexivity.
Qed.

(** C6.  Neither method changes the client: after [list_tools] and after
    [execute_tool] the object [weather_client], hence its [server_params]
    and its operation table, is what it was, and so are the other globals of
    the notebook.  Each call starts a server process and a session of its
    own, initializes the session and leaves both before it returns; no
    earlier event belongs to that session, and the result of the call
    depends on nothing but the client's [server_params], the arguments and
    the new session. *)
Theorem C6_methods_keep_the_client
    (env : environment) (st : state) (tool_name tool_parameters : py_value) :
  sessions_counted st ->
  let params := server_params (weather_client st) in
  let sid := sessions st in
  let st1 := snd (list_tools env st) in
  let st2 := snd (execute_tool env tool_name tool_parameters st) in
  (weather_client st1 = weather_client st /\ same_globals st st1 /\
   weather_client st2 = weather_client st /\ same_globals st st2) /\
  (exists request,
     (request = [] \/ request = [session_list_tools sid]) /\
     trace st1 = (trace st ++ session_events params sid request)%list) /\
  (exists request,
     (request = [] \/ request = [session_call_tool sid tool_name tool_parameters]) /\
     trace st2 = (trace st ++ session_events params sid request)%list) /\
  Forall (fun e => event_session e <> sid) (trace st) /\
  (sessions st1 = S sid /\ sessions_counted st1) /\
  (sessions st2 = S sid /\ sessions_counted st2) /\
  (forall other,
     server_params (weather_client other) = params ->
     sessions other = sid ->
     fst (list_tools env other) = fst (list_tools env st) /\
     fst (execute_tool env tool_name tool_parameters other)
       = fst (execute_tool env tool_name tool_parameters st)).
Proof.
  intros Hcounted params sid st1 st2.
  pose proof (keeps_globals_list_tools env st) as H1.
  pose proof (keeps_globals_execute_tool env tool_name tool_parameters st) as H2.
  subst st1 st2.
  split; [repeat split; solve [apply H1 | apply H2] |].
  rewrite list_tools_run, execute_tool_run. fold params sid.
  split; [|split; [|split; [|split; [|split]]]].
  - destruct (server_initialize env params sid);
      eexists; (split; [|reflexivity]); auto.
  - destruct (server_initialize env params sid);
      eexists; (split; [|reflexivity]); auto.
  - now apply session_is_fresh.
  - destruct (server_initialize env params sid); (split; [reflexivity |]);
      apply sessions_counted_after_session; auto.
  - destruct (server_initialize env params sid); (split; [reflexivity |]);
      apply sessions_counted_after_session; auto.
  - intros other Hp Hs. rewrite !list_tools_run, !execute_tool_run.
    rewrite Hp, Hs. fold params sid.
    destruct (server_initialize env params sid); split; reflexivity.
Qed.

(** C6 at the client of the notebook, as in its cell of tests. *)
Lemma C6_witness :
  let env := weather_env recorded_model in
  let st1 := snd (list_tools env recorded_state) in
  let st2 :=
    snd (execute_tool env (PyStr "get_weather") (PyDict [("location", PyStr "Sydney")])
           recorded_state) in
  weather_client st1 = weather_client recorded_state /\
  weather_client st2 = weather_client recorded_state /\
  sessions st1 = 1 /\ sessions st2 = 1.
Proof.
  intros env st1 st2.
  destruct (C6_methods_keep_the_client env recorded_state (PyStr "get_weather")
              (PyDict [("location", PyStr "Sydney")]))
    as ((H1 & _ & H2 & _) & _ & _ & _ & (H3 & _) & (H4 & _) & _).
  - constructor.
  - repeat split; assumption.
Defined.

(** C7.  When the session is initialized and the server lists its tools,
    [list_tools] returns a text and the flag [False].  The text is the JSON
    documents of the tools, in the order of the tools, joined with a comma
    (followed by a line feed) and wrapped in square brackets, which makes it
    the text of a JSON array with these documents as elements; for two tools
    it is an opening bracket, the first document, a comma, a line feed, the
    second document and a closing bracket, and for no tool the two brackets.
    Whenever [list_tools] returns at all its flag is [False].  When the
    server answers a call with a result whose first content item is a text,
    [execute_tool] returns that text and the result's [isError]. *)
Theorem C7_method_results
    (env : environment) (st : state) (tool_name tool_parameters : py_value) :
  let params := server_params (weather_client st) in
  let sid := sessions st in
  server_initialize env params sid = Ok tt ->
  (forall tools,
     server_list_tools env params sid = Ok tools ->
     let documents := map (model_dump_json env) tools in
     exists text,
       fst (list_tools env st) = Ok (text, false) /\
       text = "[" ++ String.concat (String "," (String "010"%char "")) documents ++ "]" /\
       json_array_text documents text) /\
  (server_list_tools env params sid = Ok [] ->
   fst (list_tools env st) = Ok ("[]", false)) /\
  (forall first second,
     server_list_tools env params sid = Ok [first; second] ->
     fst (list_tools env st)
       = Ok ("[" ++ model_dump_json env first ++ "," ++ String "010"%char ""
                 ++ model_dump_json env second ++ "]",
             false)) /\
  (forall other text flag, fst (list_tools env other) = Ok (text, flag) -> flag = false) /\
  (forall result text rest,
     server_call_tool env params sid tool_name tool_parameters = Ok result ->
     content result = TextContent text :: rest ->
     fst (execute_tool env tool_name tool_parameters st) = Ok (text, isError result)).
Proof.
  intros params sid Hinit.
  assert (Hlist : forall tools,
            server_list_tools env params sid = Ok tools ->
            fst (list_tools env st)
              = Ok ("[" ++ str_join comma_newline (map (model_dump_json env) tools) ++ "]",
                    false)).
  { intros tools Htools. rewrite list_tools_run. fold params sid.
    now rewrite Hinit, Htools. }
  split; [|split; [|split; [|split]]].
  - intros tools Htools documents. eexists. split; [exact (Hlist tools Htools)|]. split.
    + fold documents. now rewrite str_join_concat.
    + apply str_join_array_text.
  - intros Htools. exact (Hlist [] Htools).
  - intros first second Htools. rewrite (Hlist [first; second] Htools). simpl.
    unfold comma_newline. now normalize_append.
  - intros other text flag. rewrite list_tools_run. clear Hinit Hlist.
    destruct (server_initialize env (server_params (weather_client other))
                (sessions other)); simpl; [|discriminate].
    destruct (server_list_tools env (server_params (weather_client other))
                (sessions other)); simpl; [|discriminate].
    intros H. injection H as _ <-. reflexivity.
  - intros result text rest Hcall Hcontent. rewrite execute_tool_run. fold params sid.
    now rewrite Hinit, Hcall, Hcontent.
Qed.

(** C7 at a server with two tools, and at the weather server as in the
    notebook's cell of tests. *)
Lemma C7_witness :
  fst (list_tools (two_tools_env recorded_model) recorded_state)
    = Ok (dq "[{'name': 'get_weather', 'description': 'Get weather for location.'},"
            ++ String "010"%char ""
            ++ dq "{'name': 'get_forecast', 'description': 'Get forecast for location.'}]",
          false) /\
  fst (list_tools (weather_env recorded_model) recorded_state)
    = Ok (dq "[{'name': 'get_weather', 'description': 'Get weather for location.'}]",
          false) /\
  fst (execute_tool (weather_env recorded_model)
         (PyStr "get_weather") (PyDict [("location", PyStr "Sydney")]) recorded_state)
    = Ok ("It's sunny in Sydney", false).
Proof.
  destruct (C7_method_results (two_tools_env recorded_model) recorded_state
              PyNone PyNone eq_refl) as (_ & _ & Htwo & _).
  destruct (C7_method_results (weather_env recorded_model) recorded_state
              (PyStr "get_weather") (PyDict [("location", PyStr "Sydney")]) eq_refl)
    as (Hany & _ & _ & _ & Hcall).
  split; [|split].
  - exact (Htwo get_weather_tool get_forecast_tool eq_refl).
  - destruct (Hany [get_weather_tool] eq_refl) as (text & -> & -> & _). reflexivity.
  - exact (Hcall {| content := [TextContent "It's sunny in Sydney"]; isError := false |}
             "It's sunny in Sydney" [] eq_refl eq_refl).
Defined.




(** C9.  [handle_llm_response] is not total on the empty reply.  For the
    empty string [is_tool_use] returns both fields empty, whatever the
    environment; [handle_llm_response] then indexes the empty string
    [tool_use] with the key ["operation"], which raises [TypeError], so it
    returns neither an [AI] nor a [Tool] result. *)
Theorem C9_empty_reply_raises (env : environment) (st : state) :
  is_tool_use env "" = Ok {| tool_use := PyStr ""; inputMessage := "" |} /\
  py_getitem (PyStr "") "operation" = Raise (TypeError StrIndicesMustBeIntegers) /\
  handle_llm_response env "" st
    = (Raise (TypeError StrIndicesMustBeIntegers), after_uuid4 st).
Proof.
  repeat split.
Qed.



(** * Further properties of the notebook *)

(** ** [is_valid_json] *)

Lemma re_search_braces_None_iff (text : string) :
  re_search_braces text = None <->
  forall pre group post, text <> pre ++ "{" ++ group ++ "}" ++ post.
Proof.
  split; [apply re_search_braces_none |].
  intros H. destruct (re_search_braces text) as [group|] eqn:Hsearch; [|reflexivity].
  destruct (re_search_braces_some _ _ Hsearch) as (pre & post & -> & _).
  now destruct (H pre group post).
Qed.

(** X1.  [is_valid_json] raises exactly when the text has a brace pair and
    [json.loads] raises something other than [JSONDecodeError] on the text
    from the first opening brace to the last closing brace; that exception is
    passed on as it is.  A [JSONDecodeError] never leaves [is_valid_json]. *)
Theorem is_valid_json_raises_iff (env : environment) (text : string) (e : exn) :
  is_valid_json env text = Raise e <->
  e <> JSONDecodeError /\
  exists pre group post,
    text = pre ++ "{" ++ group ++ "}" ++ post /\
    occurs "{" pre = false /\ occurs "}" post = false /\
    json_loads env ("{" ++ group ++ "}") = Raise e.
Proof.
  split.
  - unfold is_valid_json.
    destruct (re_search_braces text) as [group|] eqn:Hsearch; [|discriminate].
    destruct (re_search_braces_some _ _ Hsearch) as (pre & post & -> & Hpre & Hpost).
    destruct (json_loads env ("{" ++ group ++ "}")) as [parsed|e'] eqn:Hloads;
      [discriminate |].
    intros H.
    destruct e'; try discriminate; injection H as <-;
      (split; [discriminate | now exists pre, group, post]).
  - intros (Hne & pre & group & post & -> & Hpre & Hpost & Hloads).
    rewrite is_valid_json_candidate by assumption. rewrite Hloads.
    destruct e; congruence.
Qed.

(** X2.  [is_valid_json] answers that the text is not JSON exactly when the
    text has no opening brace with a closing brace after it, or [json.loads]
    raises [JSONDecodeError] on the text from the first opening brace to the
    last closing brace; [parsedJson] is then [None]. *)
Theorem is_valid_json_not_json_iff (env : environment) (text : string) (vj : valid_json) :
  is_valid_json env text = Ok vj /\ isJSON vj = false <->
  vj = {| isJSON := false; parsedJson := PyNone |} /\
  ((forall pre group post, text <> pre ++ "{" ++ group ++ "}" ++ post) \/
   exists pre group post,
     text = pre ++ "{" ++ group ++ "}" ++ post /\
     occurs "{" pre = false /\ occurs "}" post = false /\
     json_loads env ("{" ++ group ++ "}") = Raise JSONDecodeError).
Proof.
  split.
  - intros [H Hfalse]. unfold is_valid_json in H.
    destruct (re_search_braces text) as [group|] eqn:Hsearch.
    + destruct (re_search_braces_some _ _ Hsearch) as (pre & post & -> & Hpre & Hpost).
      destruct (json_loads env ("{" ++ group ++ "}")) as [parsed|e'] eqn:Hloads.
      * injection H as <-. discriminate.
      * destruct e'; try discriminate. injection H as <-.
        split; [reflexivity |]. right. now exists pre, group, post.
    + injection H as <-. split; [reflexivity |]. left.
      now apply re_search_braces_None_iff.
  - intros [-> [Hnone|(pre & group & post & -> & Hpre & Hpost & Hloads)]].
    + apply re_search_braces_None_iff in Hnone. unfold is_valid_json.
      now rewrite Hnone.
    + rewrite is_valid_json_candidate by assumption. now rewrite Hloads.
Qed.

(** ** From the reply to the classification *)

(** The prose around the braces plays no part in [is_valid_json]. *)
Lemma is_valid_json_bare (env : environment) (pre group post : string) :
  occurs "{" pre = false ->
  occurs "}" post = false ->
  is_valid_json env (pre ++ "{" ++ group ++ "}" ++ post)
    = is_valid_json env ("{" ++ group ++ "}").
Proof.
  intros Hpre Hpost. rewrite is_valid_json_candidate by assumption.
  symmetry. exact (is_valid_json_candidate env "" group "" eq_refl eq_refl).
Qed.

(** [handle_llm_response] looks at the reply through [is_tool_use] only. *)
Lemma handle_llm_response_classified (env : environment) (st : state) (reply reply' : string) :
  is_tool_use env reply = is_tool_use env reply' ->
  handle_llm_response env reply st = handle_llm_response env reply' st.
Proof.
  intros H. unfold handle_llm_response, bind, lift. now rewrite H.
Qed.

(** With a decoder that returns a [dict] for a document in braces, what
    [is_valid_json] takes for JSON is a [dict]. *)
Lemma is_valid_json_decodes_dict (env : environment) (text : string) (vj : valid_json) :
  decodes_objects env ->
  is_valid_json env text = Ok vj ->
  isJSON vj = true ->
  exists d, vj = {| isJSON := true; parsedJson := PyDict d |}.
Proof.
  intros Hdec. unfold is_valid_json.
  destruct (re_search_braces text) as [group|]; [|intros [= <-]; discriminate].
  destruct (json_loads env ("{" ++ group ++ "}")) as [parsed|e] eqn:Hloads.
  - intros [= <-] _. destruct (Hdec _ _ Hloads) as [d ->]. now exists d.
  - destruct e; try discriminate. intros [= <-]. discriminate.
Qed.

(** With such a decoder [is_tool_use] raises nothing of its own, and a
    request is a [dict] that has the key ["operation"]. *)
Lemma is_tool_use_decoded (env : environment) (reply : string) :
  decodes_objects env ->
  match is_tool_use env reply with
  | Raise e => is_valid_json env reply = Raise e
  | Ok r =>
      r = {| tool_use := PyStr ""; inputMessage := reply |} \/
      exists d op,
        r = {| tool_use := PyDict d; inputMessage := "" |} /\
        dict_get "operation" d = Some op /\
        is_valid_json env reply = Ok {| isJSON := true; parsedJson := PyDict d |}
  end.
Proof.
  intros Hdec. unfold is_tool_use.
  destruct (is_valid_json env reply) as [vj|e] eqn:Hvj; [|reflexivity].
  destruct (isJSON vj) eqn:Hjson; [|now left].
  destruct (is_valid_json_decodes_dict env reply vj Hdec Hvj Hjson) as [d ->]. simpl.
  destruct (dict_get "operation" d) as [op|] eqn:Hop.
  - rewrite bool_decide_true by eauto. right. now exists d, op.
  - rewrite bool_decide_false by (now intros [? ?]). now left.
Qed.

(** X3.  Prose around a request is dropped: when the text in braces is
    classified as a request, the same text with prose before and after it
    (no opening brace before, no closing brace after) is classified as the
    same request, and [handle_llm_response] does with it what it does with
    the bare request. *)
Theorem request_in_prose
    (env : environment) (st : state) (pre group post : string) (v : py_value) :
  occurs "{" pre = false ->
  occurs "}" post = false ->
  is_tool_use env ("{" ++ group ++ "}") = Ok {| tool_use := v; inputMessage := "" |} ->
  is_tool_use env (pre ++ "{" ++ group ++ "}" ++ post)
    = Ok {| tool_use := v; inputMessage := "" |} /\
  handle_llm_response env (pre ++ "{" ++ group ++ "}" ++ post) st
    = handle_llm_response env ("{" ++ group ++ "}") st.
Proof.
  intros Hpre Hpost Hbare.
  assert (Huse : is_tool_use env (pre ++ "{" ++ group ++ "}" ++ post)
                 = Ok {| tool_use := v; inputMessage := "" |}).
  { revert Hbare. unfold is_tool_use.
    rewrite (is_valid_json_bare env pre group post Hpre Hpost).
    destruct (is_valid_json env ("{" ++ group ++ "}")) as [vj|e]; [|discriminate].
    destruct (isJSON vj); [|discriminate].
    destruct (py_contains "operation" (parsedJson vj)) as [[|]|e];
      [trivial | discriminate | discriminate]. }
  split; [exact Huse |].
  apply handle_llm_response_classified. now rewrite Huse, Hbare.
Qed.

(** X3 at the request for [list_tools], announced and followed by prose. *)
Lemma request_in_prose_witness :
  let env := weather_env recorded_model in
  let reply := dq "I will list the tools: {'operation': 'list_tools'} Please wait." in
  is_tool_use env reply
    = Ok {| tool_use := PyDict [("operation", PyStr "list_tools")]; inputMessage := "" |} /\
  handle_llm_response env reply recorded_state
    = handle_llm_response env (dq "{'operation': 'list_tools'}") recorded_state.
Proof.
  intros env reply.
  exact (request_in_prose env recorded_state "I will list the tools: "
           (dq "'operation': 'list_tools'") " Please wait."
           (PyDict [("operation", PyStr "list_tools")]) eq_refl eq_refl eq_refl).
Defined.

(** X4.  With a decoder that returns a [dict] for every document in braces,
    [is_tool_use] raises only what [is_valid_json] raises, and what it
    returns is either the reply as the input message, or a request: a [dict]
    with the key ["operation"], which is what [is_valid_json] parsed. *)
Theorem is_tool_use_outcomes (env : environment) (reply : string) :
  decodes_objects env ->
  (forall e, is_tool_use env reply = Raise e <-> is_valid_json env reply = Raise e) /\
  (forall r,
     is_tool_use env reply = Ok r ->
     r = {| tool_use := PyStr ""; inputMessage := reply |} \/
     exists d op,
       r = {| tool_use := PyDict d; inputMessage := "" |} /\
       dict_get "operation" d = Some op /\
       is_valid_json env reply = Ok {| isJSON := true; parsedJson := PyDict d |}).
Proof.
  intros Hdec. pose proof (is_tool_use_decoded env reply Hdec) as H.
  split.
  - intros e. split.
    + intros He. now rewrite He in H.
    + intros He. unfold is_tool_use. now rewrite He.
  - intros r Hr. now rewrite Hr in H.
Qed.

(** The reference decoder returns a [dict] for a document in braces. *)
Lemma weather_env_decodes_objects (model : list message -> py_result string) :
  decodes_objects (weather_env model).
Proof. intros body v. apply json_fuel.loads_object. Qed.

(** X4 with the reference decoder, at the request for [list_tools]. *)
Lemma is_tool_use_outcomes_witness :
  let env := weather_env recorded_model in
  let reply := dq "{'operation': 'list_tools'}" in
  decodes_objects env /\
  (forall e, is_tool_use env reply = Raise e <-> is_valid_json env reply = Raise e) /\
  (forall r,
     is_tool_use env reply = Ok r ->
     r = {| tool_use := PyStr ""; inputMessage := reply |} \/
     exists d op,
       r = {| tool_use := PyDict d; inputMessage := "" |} /\
       dict_get "operation" d = Some op /\
       is_valid_json env reply = Ok {| isJSON := true; parsedJson := PyDict d |}).
Proof.
  intros env reply.
  split; [apply weather_env_decodes_objects |].
  exact (is_tool_use_outcomes env reply (weather_env_decodes_objects recorded_model)).
Defined.

(** ** What [handle_llm_response] raises and what it touches *)

(** X5.  With a decoder that returns a [dict] for every document in braces,
    [handle_llm_response] raises in four situations only: [json.loads]
    raised something other than [JSONDecodeError] (nothing has happened
    yet); the reply is empty ([TypeError], after the UUID was drawn); the
    request's ["operation"] cannot be hashed ([TypeError], likewise); or the
    method found in the operation table under the request's ["operation"]
    raised when called with the request's arguments. *)
Theorem handle_llm_response_raises
    (env : environment) (st st' : state) (reply : string) (e : exn) :
  decodes_objects env ->
  handle_llm_response env reply st = (Raise e, st') ->
  (is_valid_json env reply = Raise e /\ st' = st) \/
  (reply = "" /\ e = TypeError StrIndicesMustBeIntegers /\ st' = after_uuid4 st) \/
  exists d op,
    is_valid_json env reply = Ok {| isJSON := true; parsedJson := PyDict d |} /\
    dict_get "operation" d = Some op /\
    (((exists items, op = PyList items) \/ (exists items, op = PyDict items)) /\
     e = TypeError Unhashable /\ st' = after_uuid4 st
     \/
     exists k f,
       op = PyStr k /\
       operation (weather_client st) !! k = Some f /\
       call_method env f (kwargs_of d) (after_uuid4 st) = (Raise e, st')).
Proof.
  intros Hdec. pose proof (is_tool_use_decoded env reply Hdec) as Huse.
  unfold handle_llm_response, bind, lift, uuid4, gets.
  destruct (is_tool_use env reply) as [r|e'] eqn:Hr; simpl.
  - fold (after_uuid4 st).
    destruct Huse as [->|(d & op & -> & Hop & Hvj)]; simpl.
    + destruct reply as [|c reply]; simpl; [|discriminate].
      intros [= <- <-]. right; left. auto.
    + rewrite Hop. simpl.
      destruct op as [| b | z | x | k | items | items]; simpl;
        try discriminate.
      * (* a string *)
        destruct (operation (weather_client st) !! k) as [f|] eqn:Hf.
        -- rewrite bool_decide_true by eauto.
           rewrite !kwarg_of_dict. simpl. fold (kwargs_of d).
           destruct (call_method env f (kwargs_of d) (after_uuid4 st))
             as [[[out [|]]|e''] st''] eqn:Hcall; simpl; try discriminate.
           intros [= <- <-]. right; right. exists d, (PyStr k).
           repeat split; try assumption. right. now exists k, f.
        -- rewrite bool_decide_false by (now intros [? ?]). simpl. discriminate.
      * intros [= <- <-]. right; right. exists d, (PyList items).
        repeat split; try assumption. left. repeat split. left. now exists items.
      * intros [= <- <-]. right; right. exists d, (PyDict items).
        repeat split; try assumption. left. repeat split. right. now exists items.
  - intros [= <- <-]. left. auto.
Qed.

(** X5 with the reference decoder, at a request for [list_tools] that names
    a tool: the call of the method raises. *)
Lemma handle_llm_response_raises_witness :
  let env := weather_env recorded_model in
  let reply := dq "{'operation': 'list_tools', 'tool_name': 'get_weather'}" in
  exists d op,
    is_valid_json env reply = Ok {| isJSON := true; parsedJson := PyDict d |} /\
    dict_get "operation" d = Some op /\
    exists k f,
      op = PyStr k /\
      operation (weather_client recorded_state) !! k = Some f /\
      call_method env f (kwargs_of d) (after_uuid4 recorded_state)
        = (Raise (TypeError (UnexpectedKeyword "tool_name")), after_uuid4 recorded_state).
Proof.
  intros env reply.
  destruct (handle_llm_response_raises env recorded_state (after_uuid4 recorded_state) reply
              (TypeError (UnexpectedKeyword "tool_name"))
              (weather_env_decodes_objects recorded_model))
    as [[H _]|[(H & _)|(d & op & Hvj & Hop & [(_ & H & _)|H])]].
  - vm_compute. reflexivity.
  - vm_compute in H. discriminate.
  - discriminate.
  - discriminate.
  - exists d, op. auto.
Defined.

(** A method call draws no UUID; it opens no session at all (its arguments
    did not fit) or exactly one, in which it sends at most one request and
    which it leaves. *)
Lemma call_method_world (env : environment) (f : method) (kw : kwargs) (st : state) :
  let final := snd (call_method env f kw st) in
  uuids final = uuids st /\
  (final = st \/
   exists request, one_request request /\ final = after_session request st).
Proof.
  destruct f, kw as [[n|] [p|]]; simpl; auto;
    rewrite ?list_tools_run, ?execute_tool_run;
    destruct (server_initialize env _ _); simpl;
    (split; [reflexivity |]); right; eexists; (split; [|reflexivity]); exact I.
Qed.

(** The state in which [handle_llm_response] ends is the state it started
    from, or that state after the UUID was drawn, or the state in which the
    method call ended that it made after drawing the UUID. *)
Lemma handle_llm_response_final (env : environment) (st : state) (reply : string) :
  let final := snd (handle_llm_response env reply st) in
  match is_tool_use env reply with
  | Raise _ => final = st
  | Ok _ =>
      final = after_uuid4 st \/
      exists f kw, final = snd (call_method env f kw (after_uuid4 st))
  end.
Proof.
  unfold handle_llm_response, bind, lift, uuid4, gets.
  destruct (is_tool_use env reply) as [r|e]; simpl; [|reflexivity].
  fold (after_uuid4 st).
  destruct (str_truthy (inputMessage r)); simpl; [auto |].
  destruct (py_getitem (tool_use r) "operation") as [op|e]; simpl; [|auto].
  destruct (py_in_table op (operation (weather_client st))) as [[|]|e]; simpl; [|auto..].
  destruct (kwarg_of (tool_use r) "tool_name") as [n|e]; simpl; [|auto].
  destruct (kwarg_of (tool_use r) "tool_parameters") as [p|e]; simpl; [|auto].
  destruct (py_table_getitem (operation (weather_client st)) op) as [f|e]; simpl; [|auto].
  right. exists f, {| kw_tool_name := n; kw_tool_parameters := p |}.
  destruct (call_method env f _ (after_uuid4 st)) as [[[out [|]]|e] st']; reflexivity.
Qed.

Lemma handle_llm_response_uuids (env : environment) (st : state) (reply : string) :
  uuids (snd (handle_llm_response env reply st))
    = match is_tool_use env reply with
      | Ok _ => S (uuids st)
      | Raise _ => uuids st
      end.
Proof.
  pose proof (handle_llm_response_final env st reply) as H. cbv zeta in H.
  destruct (is_tool_use env reply) as [r|e]; [|now rewrite H].
  destruct H as [->|(f & kw & ->)]; [reflexivity |].
  now rewrite (proj1 (call_method_world env f kw (after_uuid4 st))).
Qed.

Lemma handle_llm_response_sessions (env : environment) (st : state) (reply : string) :
  let final := snd (handle_llm_response env reply st) in
  (sessions final = sessions st /\ trace final = trace st) \/
  (sessions final = S (sessions st) /\
   exists request,
     one_request request /\
     trace final
       = (trace st ++ session_events (server_params (weather_client st)) (sessions st)
                        request)%list).
Proof.
  pose proof (handle_llm_response_final env st reply) as H. cbv zeta in H |- *.
  destruct (is_tool_use env reply) as [r|e]; [|rewrite H; auto].
  destruct H as [->|(f & kw & ->)]; [auto |].
  destruct (call_method_world env f kw (after_uuid4 st)) as [_ [->|(request & Hone & ->)]];
    [auto |].
  right. split; [reflexivity |]. now exists request.
Qed.

(** X6.  Whatever the reply and whatever the outcome, [handle_llm_response]
    changes none of the notebook's globals ([weather_client], [messages],
    [AI_responded], [tool_response], [response]).  It draws exactly one UUID
    when [is_tool_use] returns (also for a final answer, which has no use
    for it) and none when [is_tool_use] raises, and it opens at most one
    session, in which it sends at most one request and which it leaves
    before it returns or raises. *)
Theorem handle_llm_response_footprint (env : environment) (st : state) (reply : string) :
  let final := snd (handle_llm_response env reply st) in
  same_globals st final /\
  uuids final
    = match is_tool_use env reply with
      | Ok _ => S (uuids st)
      | Raise _ => uuids st
      end /\
  ((sessions final = sessions st /\ trace final = trace st) \/
   (sessions final = S (sessions st) /\
    exists request,
      one_request request /\
      trace final
        = (trace st ++ session_events (server_params (weather_client st)) (sessions st)
                         request)%list)).
Proof.
  intros final. split; [|split].
  - apply keeps_globals_handle_llm_response.
  - apply handle_llm_response_uuids.
  - apply handle_llm_response_sessions.
Qed.

(** ** Requests and their arguments *)

(** X7.  A request whose ["operation"] is ["list_tools"] and that has the
    key ["tool_name"] or the key ["tool_parameters"] makes
    [handle_llm_response] call [list_tools] with a keyword argument it does
    not take: the call raises [TypeError] before any session is opened, and
    the pass of the loop ends with that exception, the reply being the last
    message. *)
Theorem list_tools_unexpected_keyword
    (env : environment) (params : StdioServerParameters) (st : state)
    (reply : string) (d : list (string * py_value)) :
  weather_client st = MCP_client_init params ->
  chain_invoke env (messages st) = Ok reply ->
  is_valid_json env reply = Ok {| isJSON := true; parsedJson := PyDict d |} ->
  dict_get "operation" d = Some (PyStr "list_tools") ->
  dict_get "tool_name" d <> None \/ dict_get "tool_parameters" d <> None ->
  let name := match dict_get "tool_name" d with
              | Some _ => "tool_name"
              | None => "tool_parameters"
              end in
  (forall st0, call_method env list_tools_method (kwargs_of d) st0
               = (Raise (TypeError (UnexpectedKeyword name)), st0)) /\
  handle_llm_response env reply (after_reply reply st)
    = (Raise (TypeError (UnexpectedKeyword name)), after_uuid4 (after_reply reply st)) /\
  loop_body env st
    = (Raise (TypeError (UnexpectedKeyword name)), after_uuid4 (after_reply reply st)).
Proof.
  intros Hclient Hreply Hjson Hop Hextra name.
  assert (Htable : operation (weather_client (after_reply reply st)) !! "list_tools"
                   = Some list_tools_method).
  { simpl. rewrite Hclient. apply init_table_lookup. now left. }
  pose proof (is_tool_use_request env reply d _ Hjson Hop) as Huse.
  pose proof (handle_llm_response_dispatch env _ reply d _ _ Huse Hop Htable) as Hrun.
  rewrite (loop_body_reply env st reply Hreply), Hrun.
  subst name. unfold kwargs_of.
  destruct (dict_get "tool_name" d) as [n|], (dict_get "tool_parameters" d) as [p|];
    simpl; try (repeat split; reflexivity).
  destruct Hextra; congruence.
Qed.

(** X7 at a request for [list_tools] that names a tool. *)
Lemma list_tools_unexpected_keyword_witness :
  let reply := dq "{'operation': 'list_tools', 'tool_name': 'get_weather'}" in
  let env := weather_env (constant_model reply) in
  loop_body env recorded_state
    = (Raise (TypeError (UnexpectedKeyword "tool_name")),
       after_uuid4 (after_reply reply recorded_state)) /\
  trace (snd (loop_body env recorded_state)) = [].
Proof.
  intros reply env.
  pose proof (list_tools_unexpected_keyword env notebook_server_params recorded_state reply
                [("operation", PyStr "list_tools"); ("tool_name", PyStr "get_weather")]
                eq_refl eq_refl) as H.
  destruct H as (_ & _ & H).
  - vm_compute. reflexivity.
  - reflexivity.
  - left. discriminate.
  - split; [exact H | now rewrite H].
Defined.

(** X8.  Of a request, [handle_llm_response] reads the keys ["operation"],
    ["tool_name"] and ["tool_parameters"] and nothing else: two requests
    that agree on these three keys have the same outcome and leave the same
    state, whatever other keys (a chain of thoughts, say) they carry. *)
Theorem request_other_keys_ignored
    (env : environment) (st : state) (reply reply' : string)
    (d d' : list (string * py_value)) :
  is_tool_use env reply = Ok {| tool_use := PyDict d; inputMessage := "" |} ->
  is_tool_use env reply' = Ok {| tool_use := PyDict d'; inputMessage := "" |} ->
  dict_get "operation" d = dict_get "operation" d' ->
  dict_get "tool_name" d = dict_get "tool_name" d' ->
  dict_get "tool_parameters" d = dict_get "tool_parameters" d' ->
  handle_llm_response env reply st = handle_llm_response env reply' st.
Proof.
  intros Hr Hr' Hop Hname Hparams.
  unfold handle_llm_response, bind, lift, uuid4, gets. rewrite Hr, Hr'. simpl.
  rewrite !kwarg_of_dict, Hop, Hname, Hparams. reflexivity.
Qed.

(** X8 at the call of [get_weather] of the recorded run, with and without
    its chain of thoughts. *)
Lemma request_other_keys_ignored_witness :
  let env := weather_env recorded_model in
  handle_llm_response env
    (dq "{'operation': 'execute_tool', 'tool_name': 'get_weather', 'tool_parameters': {'location': 'New York'}, 'ChainOfThoughts': 'The user wants to know the weather in New York.'}")
    recorded_state
  = handle_llm_response env
      (dq "{'operation': 'execute_tool', 'tool_name': 'get_weather', 'tool_parameters': {'location': 'New York'}}")
      recorded_state.
Proof.
  intros env.
  apply (request_other_keys_ignored env recorded_state _ _
           [("operation", PyStr "execute_tool"); ("tool_name", PyStr "get_weather");
            ("tool_parameters", PyDict [("location", PyStr "New York")]);
            ("ChainOfThoughts", PyStr "The user wants to know the weather in New York.")]
           [("operation", PyStr "execute_tool"); ("tool_name", PyStr "get_weather");
            ("tool_parameters", PyDict [("location", PyStr "New York")])]).
  - vm_compute. reflexivity.
  - vm_compute. reflexivity.
  - reflexivity.
  - reflexivity.
  - reflexivity.
Defined.

(** ** Results of tools *)

(** X9.  [execute_tool] reads the text of the first item of the result and
    nothing checks that there is one.  When the server answers the call of
    a request with a result that has no content, [IndexError] is raised
    inside the session; when the first item is not a text,
    [AttributeError].  Each of the two [async with] blocks is left with
    the exception in a group of its own, so the pass of the loop ends with
    an [ExceptionGroup] whose one member is an [ExceptionGroup] whose one
    member is that exception.  In both cases the session was left, nothing
    is fed back to the model, and the error flag of the result plays no
    part. *)
Theorem execute_tool_content_bounds
    (env : environment) (params : StdioServerParameters) (st : state) (reply : string)
    (d : list (string * py_value)) (tool_name tool_parameters : py_value)
    (result : CallToolResult) :
  weather_client st = MCP_client_init params ->
  chain_invoke env (messages st) = Ok reply ->
  is_valid_json env reply = Ok {| isJSON := true; parsedJson := PyDict d |} ->
  dict_get "operation" d = Some (PyStr "execute_tool") ->
  dict_get "tool_name" d = Some tool_name ->
  dict_get "tool_parameters" d = Some tool_parameters ->
  server_initialize env params (sessions st) = Ok tt ->
  server_call_tool env params (sessions st) tool_name tool_parameters = Ok result ->
  let final :=
    after_session [session_call_tool (sessions st) tool_name tool_parameters]
      (after_uuid4 (after_reply reply st)) in
  (content result = [] ->
   loop_body env st = (Raise (ExceptionGroup [ExceptionGroup [IndexError]]), final)) /\
  (forall item rest,
     content result = item :: rest ->
     (forall text, item <> TextContent text) ->
     loop_body env st
       = (Raise (ExceptionGroup [ExceptionGroup [AttributeError "text"]]), final)).
Proof.
  intros Hclient Hreply Hjson Hop Hname Hparams Hinit Hcall final.
  assert (Htable : operation (weather_client (after_reply reply st)) !! "execute_tool"
                   = Some execute_tool_method).
  { simpl. rewrite Hclient. apply init_table_lookup. now right. }
  pose proof (is_tool_use_request env reply d _ Hjson Hop) as Huse.
  pose proof (handle_llm_response_dispatch env _ reply d _ _ Huse Hop Htable) as Hrun.
  rewrite (loop_body_reply env st reply Hreply), Hrun.
  unfold kwargs_of. rewrite Hname, Hparams. simpl.
  rewrite execute_tool_run. simpl. rewrite Hclient. simpl.
  rewrite Hinit, Hcall. subst final. unfold after_session. simpl. rewrite Hclient. simpl.
  split.
  - intros ->. reflexivity.
  - intros item rest -> Hitem. destruct item; [now destruct (Hitem text) | reflexivity..].
Qed.

(** X9 at a server whose results have no content. *)
Lemma execute_tool_content_bounds_witness :
  let reply :=
    dq "{'operation': 'execute_tool', 'tool_name': 'get_weather', 'tool_parameters': {'location': 'Sydney'}}" in
  let env := silent_env (constant_model reply) in
  fst (loop_body env recorded_state)
    = Raise (ExceptionGroup [ExceptionGroup [IndexError]]) /\
  messages (snd (loop_body env recorded_state))
    = (messages recorded_state ++ [{| role := "ai"; msg_content := reply |}])%list.
Proof.
  intros reply env.
  pose proof (execute_tool_content_bounds env notebook_server_params recorded_state reply
                [("operation", PyStr "execute_tool"); ("tool_name", PyStr "get_weather");
                 ("tool_parameters", PyDict [("location", PyStr "Sydney")])]
                (PyStr "get_weather") (PyDict [("location", PyStr "Sydney")])
                {| content := []; isError := false |}
                eq_refl eq_refl) as H.
  destruct H as [H _].
  - vm_compute. reflexivity.
  - reflexivity.
  - reflexivity.
  - reflexivity.
  - reflexivity.
  - reflexivity.
  - rewrite (H eq_refl). split; reflexivity.
Defined.

(** ** The loop as a whole *)

Lemma exchanges_cons (turn : string * string) (turns : list (string * string)) :
  exchanges (turn :: turns)
    = {| role := "ai"; msg_content := fst turn |}
        :: {| role := "user"; msg_content := snd turn |} :: exchanges turns.
Proof. reflexivity. Qed.

Lemma exchanges_length (turns : list (string * string)) :
  length (exchanges turns) = 2 * length turns.
Proof. induction turns as [|turn turns IH]; simpl; lia. Qed.

(** A pass in which the model raises changes nothing. *)
Lemma loop_body_model_raises (env : environment) (st : state) (e : exn) :
  chain_invoke env (messages st) = Raise e -> loop_body env st = (Raise e, st).
Proof.
  intros H. unfold loop_body, bind, lift, gets. now rewrite H.
Qed.

(** What the handler returns as the [AI] result is the reply itself. *)
Lemma handle_llm_response_AI_reply (env : environment) (st st' : state) (reply text : string) :
  handle_llm_response env reply st = (Ok (AI text), st') ->
  text = reply /\ reply <> "" /\ st' = after_uuid4 st.
Proof.
  intros H. destruct (handle_llm_response_AI env _ _ _ _ H) as (r & Hr & Ht & ->).
  rewrite (handle_llm_response_answer env st reply r Hr Ht) in H. injection H as <-.
  destruct (is_tool_use_cases env reply r Hr) as (vj & _ & [[-> _]|[-> _]]).
  - simpl in *. repeat split. now apply str_truthy_true.
  - discriminate.
Qed.

Lemma loop_body_outcome (env : environment) (st : state) :
  pass_outcome env st (fst (loop_body env st)) (snd (loop_body env st)).
Proof.
  destruct (chain_invoke env (messages st)) as [reply|e] eqn:Hreply.
  - rewrite (loop_body_reply env st reply Hreply).
    destruct (handle_llm_response env reply (after_reply reply st))
      as [[[text|text id]|e] st'] eqn:Hrun; simpl.
    + destruct (handle_llm_response_AI_reply env _ _ _ _ Hrun) as (-> & Hne & ->).
      now apply (pass_answer env st reply).
    + now apply (pass_tool env st reply text id).
    + now apply (pass_handler_raises env st reply).
  - rewrite (loop_body_model_raises env st e Hreply). now apply pass_model_raises.
Qed.

Lemma last_cons {A} (a d : A) (l : list A) : List.last (a :: l) d = List.last l a.
Proof.
  revert a d. induction l as [|b l IH]; intros a d; [reflexivity |].
  change (List.last (a :: b :: l) d) with (List.last (b :: l) d).
  now rewrite !IH.
Qed.

(** The state in which the handling of a reply ends, during a pass. *)
Lemma handler_state (env : environment) (st st' : state) (reply : string)
    (res : py_result llm_result) :
  handle_llm_response env reply (after_reply reply st) = (res, st') ->
  messages st' = (messages st ++ [{| role := "ai"; msg_content := reply |}])%list /\
  AI_responded st' = AI_responded st /\
  weather_client st' = weather_client st /\
  response st' = reply /\
  tool_response st' = tool_response st /\
  uuids st <= uuids st' <= S (uuids st) /\
  (forall x, res = Ok x -> uuids st' = S (uuids st)) /\
  sessions st <= sessions st' <= S (sessions st).
Proof.
  intros H.
  pose proof (keeps_globals_handle_llm_response env reply (after_reply reply st)) as Hkeep.
  pose proof (handle_llm_response_uuids env (after_reply reply st) reply) as Hu.
  pose proof (handle_llm_response_sessions env (after_reply reply st) reply) as Hs.
  pose proof (handle_llm_response_raise env (after_reply reply st) reply) as Hraise.
  rewrite H in Hkeep, Hu, Hs. simpl in Hkeep, Hu, Hs.
  destruct Hkeep as (Hc & Hm & Ha & Ht & Hr). simpl in *.
  repeat split; try assumption.
  - destruct (is_tool_use env reply); lia.
  - destruct (is_tool_use env reply); lia.
  - intros x ->. destruct (is_tool_use env reply) as [r|e]; [assumption |].
    rewrite (Hraise e eq_refl) in H. discriminate.
  - destruct Hs as [[-> _]|[-> _]]; lia.
  - destruct Hs as [[-> _]|[-> _]]; lia.
Qed.

(** The shape of a run of the loop, for each of its outcomes: [turns] are
    the passes that fed a text back to the model. *)
Lemma while_shape (env : environment) (fuel : nat) :
  forall st result final,
    AI_responded st = false ->
    while_not_AI_responded env fuel st = (result, final) ->
    exists turns,
      let history := (messages st ++ exchanges turns)%list in
      asked env (messages st) turns /\
      weather_client final = weather_client st /\
      tool_response final = List.last (map snd turns) (tool_response st) /\
      sessions st <= sessions final /\
      match result with
      | Ok true =>
          exists answer,
            chain_invoke env history = Ok answer /\
            answer <> "" /\
            messages final = (history ++ [{| role := "ai"; msg_content := answer |}])%list /\
            response final = answer /\
            AI_responded final = true /\
            length turns < fuel /\
            uuids final = uuids st + length turns + 1 /\
            sessions final <= sessions st + length turns
      | Ok false =>
          messages final = history /\
          AI_responded final = false /\
          length turns = fuel /\
          uuids final = uuids st + length turns /\
          sessions final <= sessions st + length turns
      | Raise e =>
          AI_responded final = false /\
          length turns < fuel /\
          sessions final <= sessions st + length turns + 1 /\
          ((chain_invoke env history = Raise e /\ messages final = history) \/
           exists reply,
             chain_invoke env history = Ok reply /\
             messages final
               = (history ++ [{| role := "ai"; msg_content := reply |}])%list /\
             response final = reply)
      end.
Proof.
  induction fuel as [|fuel IH]; intros st result final Hfalse; simpl; rewrite Hfalse.
  - intros [= <- <-]. exists []. simpl. rewrite app_nil_r.
    repeat split; first [assumption | lia].
  - unfold bind. pose proof (loop_body_outcome env st) as Hpass.
    destruct (loop_body env st) as [r st1]. simpl in Hpass.
    destruct Hpass as [reply Hreply Hne Hrun | reply text id st' Hreply Hrun
                      | e Hreply | reply e st' Hreply Hrun].
    + (* the answer *)
      rewrite while_not_AI_responded_done by reflexivity.
      intros [= <- <-]. exists []. simpl. rewrite app_nil_r.
      repeat split; try lia.
      exists reply. repeat split; try assumption; simpl; lia.
    + (* a text is fed back *)
      destruct (handler_state env st st' reply _ Hrun)
        as (Hm & Ha & Hc & Hr & Ht & _ & Hu & Hs).
      specialize (Hu _ eq_refl).
      set (st1 := set_tool_response text
                    (set_messages (messages st' ++ [{| role := "user"; msg_content := text |}])
                                  st')).
      intros Hrest.
      assert (Hfalse1 : AI_responded st1 = false) by (simpl; congruence).
      destruct (IH st1 result final Hfalse1 Hrest) as (turns & Hasked & Hc1 & Ht1 & Hs1 & Hcase).
      assert (Hm1 : messages st1 = (messages st ++ exchanges [(reply, text)])%list).
      { simpl. rewrite Hm, <- app_assoc. reflexivity. }
      assert (Hhist : (messages st1 ++ exchanges turns
                       = messages st ++ exchanges ((reply, text) :: turns))%list).
      { rewrite Hm1, <- app_assoc. reflexivity. }
      exists ((reply, text) :: turns). cbv zeta.
      rewrite <- Hhist.
      split; [split; [exact Hreply | now rewrite <- Hm1] |].
      split; [simpl in Hc1; congruence |].
      split; [rewrite Ht1; simpl map; now rewrite last_cons |].
      split; [simpl in Hs1; lia |].
      simpl in Hs1. simpl length.
      destruct result as [[|]|e]; simpl in Hcase.
      * destruct Hcase as (answer & H1 & H2 & H3 & H4 & H5 & H6 & H7 & H8).
        exists answer. simpl in H7, H8. repeat split; try assumption; lia.
      * destruct Hcase as (H1 & H2 & H3 & H4 & H5). simpl in H4, H5.
        repeat split; try assumption; lia.
      * destruct Hcase as (H1 & H2 & H3 & H4). simpl in H3.
        repeat split; try assumption; lia.
    + (* the model raised *)
      intros [= <- <-]. exists []. simpl. rewrite app_nil_r.
      repeat split; try assumption; try lia. now left.
    + (* the handling of the reply raised *)
      destruct (handler_state env st st' reply _ Hrun)
        as (Hm & Ha & Hc & Hr & Ht & _ & _ & Hs).
      intros [= <- <-]. exists []. simpl. rewrite app_nil_r.
      repeat split; try congruence; try lia.
      right. exists reply. repeat split; assumption.
Qed.

(** X10.  When the loop ends because [AI_responded] was set, the history is
    the history it started from, followed by the exchanges of the passes
    that fed a text back to the model (the reply, then that text as a user
    message) and by the answer.  Every reply is what the model made of the
    whole history before it; the answer is not empty and is left in
    [response]; [tool_response] holds the last text fed back; the client is
    what it was.  With [n] exchanges the loop ran [n + 1] passes, drew
    [n + 1] UUIDs and opened at most [n] sessions. *)
Theorem loop_ends_with_the_answer (env : environment) (fuel : nat) (st : state) :
  AI_responded st = false ->
  fst (while_not_AI_responded env fuel st) = Ok true ->
  let final := snd (while_not_AI_responded env fuel st) in
  exists turns answer,
    asked env (messages st) turns /\
    chain_invoke env (messages st ++ exchanges turns) = Ok answer /\
    answer <> "" /\
    messages final
      = (messages st ++ exchanges turns ++ [{| role := "ai"; msg_content := answer |}])%list /\
    response final = answer /\
    tool_response final = List.last (map snd turns) (tool_response st) /\
    AI_responded final = true /\
    weather_client final = weather_client st /\
    length turns < fuel /\
    uuids final = uuids st + length turns + 1 /\
    sessions st <= sessions final <= sessions st + length turns.
Proof.
  intros Hfalse Hend final. subst final.
  destruct (while_not_AI_responded env fuel st) as [result final] eqn:Hrun.
  simpl in *. subst result.
  destruct (while_shape env fuel st _ _ Hfalse Hrun)
    as (turns & Hasked & Hc & Ht & Hs & answer & H1 & H2 & H3 & H4 & H5 & H6 & H7 & H8).
  exists turns, answer. rewrite <- app_assoc in H3. repeat split; assumption.
Qed.

(** X10 at the recorded run: two exchanges, then the answer. *)
Lemma loop_ends_with_the_answer_witness :
  let env := weather_env recorded_model in
  let final := snd (while_not_AI_responded env 3 recorded_state) in
  exists turns answer,
    asked env (messages recorded_state) turns /\
    chain_invoke env (messages recorded_state ++ exchanges turns) = Ok answer /\
    answer <> "" /\
    messages final
      = (messages recorded_state ++ exchanges turns
           ++ [{| role := "ai"; msg_content := answer |}])%list /\
    response final = answer /\
    tool_response final = List.last (map snd turns) (tool_response recorded_state) /\
    AI_responded final = true /\
    weather_client final = weather_client recorded_state /\
    length turns < 3 /\
    uuids final = uuids recorded_state + length turns + 1 /\
    sessions recorded_state <= sessions final <= sessions recorded_state + length turns.
Proof.
  intros env.
  apply (loop_ends_with_the_answer env 3 recorded_state).
  - reflexivity.
  - vm_compute. reflexivity.
Defined.

(** X11.  The loop has no bound on its passes.  With a model that keeps
    sending the same request for an operation that can be hashed and is no
    key of the table, the loop is still running after any number of passes:
    every pass appends the reply and the [NoSuchOperationError] text,
    [AI_responded] stays false and the server is never contacted. *)
Theorem loop_has_no_bound
    (env : environment) (reply : string) (d : list (string * py_value)) (op : py_value) :
  (forall history, chain_invoke env history = Ok reply) ->
  is_tool_use env reply = Ok {| tool_use := PyDict d; inputMessage := "" |} ->
  dict_get "operation" d = Some op ->
  forall (fuel : nat) (st : state),
    py_in_table op (operation (weather_client st)) = Ok false ->
    AI_responded st = false ->
    let final := snd (while_not_AI_responded env fuel st) in
    fst (while_not_AI_responded env fuel st) = Ok false /\
    AI_responded final = false /\
    messages final
      = (messages st ++ exchanges (replicate fuel (reply, NoSuchOperationError_text)))%list /\
    sessions final = sessions st /\
    trace final = trace st.
Proof.
  intros Hmodel Huse Hop. induction fuel as [|fuel IH]; intros st Hin Hfalse final.
  - subst final. simpl. rewrite Hfalse. simpl. rewrite app_nil_r. auto.
  - assert (Hrun : handle_llm_response env reply (after_reply reply st)
      = (Ok (Tool NoSuchOperationError_text (uuid4_value env (uuids st))),
         after_uuid4 (after_reply reply st)))
      by (apply (handle_llm_response_no_such_operation env (after_reply reply st) reply d op
                   Huse Hop Hin)).
    pose proof (loop_body_reply env st reply (Hmodel _)) as Hbody.
    rewrite Hrun in Hbody.
    subst final. rewrite while_not_AI_responded_step by (rewrite ?Hbody; auto).
    rewrite Hbody. cbn [snd].
    match goal with
    | |- context [while_not_AI_responded env fuel ?s] =>
        destruct (IH s Hin Hfalse) as (H1 & H2 & H3 & H4 & H5)
    end.
    repeat split; try assumption.
    rewrite H3. simpl. rewrite <- !app_assoc. reflexivity.
Qed.

(** X11 at a model that keeps asking for the operation [get_weather]. *)
Lemma loop_has_no_bound_witness :
  let reply := dq "{'operation': 'get_weather'}" in
  let env := weather_env (constant_model reply) in
  fst (while_not_AI_responded env 50 recorded_state) = Ok false /\
  length (messages (snd (while_not_AI_responded env 50 recorded_state))) = 102.
Proof.
  intros reply env.
  destruct (loop_has_no_bound env reply [("operation", PyStr "get_weather")]
              (PyStr "get_weather") (fun _ => eq_refl) eq_refl eq_refl
              50 recorded_state eq_refl eq_refl) as (H1 & _ & H3 & _).
  split; [exact H1 |].
  rewrite H3, length_app, exchanges_length, length_replicate. reflexivity.
Defined.

(** X12.  An exception ends the loop at once: [AI_responded] is still false
    and no pass is run again.  The history is left as the exchanges
    completed so far, followed, when it was the handling of a reply that
    raised and not the model, by that reply, to which no text was fed
    back. *)
Theorem loop_stops_at_exception (env : environment) (fuel : nat) (st : state) (e : exn) :
  AI_responded st = false ->
  fst (while_not_AI_responded env fuel st) = Raise e ->
  let final := snd (while_not_AI_responded env fuel st) in
  exists turns,
    asked env (messages st) turns /\
    length turns < fuel /\
    AI_responded final = false /\
    weather_client final = weather_client st /\
    tool_response final = List.last (map snd turns) (tool_response st) /\
    ((chain_invoke env (messages st ++ exchanges turns) = Raise e /\
      messages final = (messages st ++ exchanges turns)%list)
     \/
     exists reply,
       chain_invoke env (messages st ++ exchanges turns) = Ok reply /\
       messages final
         = (messages st ++ exchanges turns ++ [{| role := "ai"; msg_content := reply |}])%list /\
       response final = reply).
Proof.
  intros Hfalse Hend final. subst final.
  destruct (while_not_AI_responded env fuel st) as [result final] eqn:Hrun.
  simpl in *. subst result.
  destruct (while_shape env fuel st _ _ Hfalse Hrun)
    as (turns & Hasked & Hc & Ht & Hs & H1 & H2 & H3 & H4).
  exists turns. repeat split; try assumption.
  destruct H4 as [H4|(reply & H4 & H5 & H6)]; [now left |].
  right. exists reply. rewrite <- app_assoc in H5. repeat split; assumption.
Qed.

(** X12 at a model that lists the tools and then asks for [execute_tool]
    without arguments: one exchange, then the reply that raised. *)
Lemma loop_stops_at_exception_witness :
  let env := weather_env careless_model in
  let final := snd (while_not_AI_responded env 5 recorded_state) in
  fst (while_not_AI_responded env 5 recorded_state)
    = Raise (TypeError (MissingArguments ["tool_name"; "tool_parameters"])) /\
  exists turns,
    length turns < 5 /\
    AI_responded final = false /\
    (exists reply,
       chain_invoke env (messages recorded_state ++ exchanges turns) = Ok reply /\
       messages final
         = (messages recorded_state ++ exchanges turns
              ++ [{| role := "ai"; msg_content := reply |}])%list /\
       response final = reply).
Proof.
  intros env final.
  assert (Hend : fst (while_not_AI_responded env 5 recorded_state)
                 = Raise (TypeError (MissingArguments ["tool_name"; "tool_parameters"])))
    by (vm_compute; reflexivity).
  split; [exact Hend |].
  destruct (loop_stops_at_exception env 5 recorded_state _ eq_refl Hend)
    as (turns & Hasked & Hlen & Ha & _ & _ & [[Hmodel _]|Hreply]).
  - exfalso. cbv [env weather_env chain_invoke careless_model] in Hmodel.
    destruct (length (messages recorded_state ++ exchanges turns)) as [|[|[|]]];
      discriminate.
  - exists turns. repeat split; assumption.
Defined.

(** ** The chat history *)

Lemma chat_history_exchanges (turns : list (string * string)) (rest : list message) :
  flat_map print_message (exchanges turns ++ rest)
    = (flat_map printed_turn turns ++ flat_map print_message rest)%list.
Proof.
  induction turns as [|turn turns IH]; [reflexivity |].
  rewrite exchanges_cons. simpl. now rewrite IH.
Qed.

(** X13.  When the loop of the cell ends with an answer, the cell prints the
    answer, the heading, the question after [User:], then, for every pass
    that fed a text back to the model, the reply after [AI:] and that text
    after [Tool:], and at last the answer again after [AI:], each entry
    followed by an empty line.  The system prompt is not printed, and the
    printing does not raise. *)
Theorem chat_history_after_the_loop
    (env : environment) (systemMessage question : string) (fuel : nat) (st : state) :
  fst (invoke_example env systemMessage question fuel st) = Ok true ->
  let final := snd (invoke_example env systemMessage question fuel st) in
  exists turns answer,
    asked env [ {| role := "system"; msg_content := systemMessage |};
                {| role := "user"; msg_content := question |} ] turns /\
    print_chat_history final
      = (([answer; ""; ""; "### CHAT HISTORY ###"; ""; ("User: " ++ question)%string; ""]
            ++ flat_map printed_turn turns ++ [("AI: " ++ answer)%string; ""])%list,
         Ok tt).
Proof.
  unfold invoke_example, bind, modify. simpl.
  set (st0 := set_tool_response "" _).
  intros Hend.
  destruct (while_not_AI_responded env fuel st0) as [result final] eqn:Hrun.
  simpl in *. subst result.
  destruct (while_shape env fuel st0 _ _ eq_refl Hrun)
    as (turns & Hasked & _ & _ & _ & answer & _ & _ & Hm & Hr & _).
  exists turns, answer. split; [exact Hasked |].
  unfold print_chat_history. rewrite Hm, Hr.
  cbn -[exchanges flat_map String.append].
  now rewrite drop_0, chat_history_exchanges.
Qed.

(** X13 at the recorded run. *)
Lemma chat_history_after_the_loop_witness :
  let final :=
    snd (invoke_example (weather_env recorded_model) "You are a helpful assistance."
           "What's the weather in New York?" 3 notebook_state) in
  exists turns answer,
    print_chat_history final
      = (([answer; ""; ""; "### CHAT HISTORY ###"; "";
           "User: What's the weather in New York?"; ""]
            ++ flat_map printed_turn turns ++ [("AI: " ++ answer)%string; ""])%list,
         Ok tt).
Proof.
  intros final.
  destruct (chat_history_after_the_loop (weather_env recorded_model)
              "You are a helpful assistance." "What's the weather in New York?" 3
              notebook_state) as (turns & answer & _ & H).
  - vm_compute. reflexivity.
  - now exists turns, answer.
Defined.

(** ** The sessions of a run *)

Lemma sessions_in_sequence_app (params : StdioServerParameters) (sid : nat)
    (requests requests' : list (list event)) :
  sessions_in_sequence params sid (requests ++ requests')
    = (sessions_in_sequence params sid requests
         ++ sessions_in_sequence params (sid + length requests) requests')%list.
Proof.
  revert sid. induction requests as [|request requests IH]; intros sid; simpl.
  - now rewrite Nat.add_0_r.
  - rewrite IH, <- !app_assoc. now replace (S sid + length requests) with (sid + S (length requests)) by lia.
Qed.

(** The sessions of one pass of the loop. *)
Lemma loop_body_sessions (env : environment) (st : state) :
  let final := snd (loop_body env st) in
  weather_client final = weather_client st /\
  exists requests,
    length requests <= 1 /\
    Forall one_request requests /\
    sessions final = sessions st + length requests /\
    trace final
      = (trace st ++ sessions_in_sequence (server_params (weather_client st)) (sessions st)
                       requests)%list.
Proof.
  assert (Hhandler : forall reply res st',
    handle_llm_response env reply (after_reply reply st) = (res, st') ->
    weather_client st' = weather_client st /\
    exists requests,
      length requests <= 1 /\
      Forall one_request requests /\
      sessions st' = sessions st + length requests /\
      trace st'
        = (trace st ++ sessions_in_sequence (server_params (weather_client st)) (sessions st)
                         requests)%list).
  { intros reply res st' Hrun.
    pose proof (keeps_globals_handle_llm_response env reply (after_reply reply st))
      as (Hc & _).
    pose proof (handle_llm_response_sessions env (after_reply reply st) reply) as Heff.
    rewrite Hrun in Hc, Heff. simpl in Hc, Heff.
    destruct Heff as [[Hs Ht]|(Hs & request & Hone & Ht)].
    - split; [exact Hc |]. exists []. simpl. rewrite app_nil_r, Nat.add_0_r. auto.
    - split; [exact Hc |]. exists [request]. simpl. rewrite app_nil_r.
      repeat split; auto; lia. }
  pose proof (loop_body_outcome env st) as Hpass.
  destruct (loop_body env st) as [r st1]. simpl in *.
  destruct Hpass as [reply Hreply Hne Hrun | reply text id st' Hreply Hrun
                    | e Hreply | reply e st' Hreply Hrun].
  - apply (Hhandler _ _ _ Hrun).
  - apply (Hhandler _ _ _ Hrun).
  - split; [reflexivity |]. exists []. simpl. rewrite app_nil_r, Nat.add_0_r. auto.
  - apply (Hhandler _ _ _ Hrun).
Qed.

(** X14.  Whatever the outcome of the loop, its sessions follow each other:
    what the server processes have seen after the loop is what they had seen
    before, followed by one block for each session opened, numbered in
    sequence; in each block a process is started, a session is entered and
    initialized, at most one request is sent, and the session and the
    process are left before the next block starts.  At most one session is
    opened in a pass. *)
Theorem loop_sessions_in_sequence (env : environment) (fuel : nat) (st : state) :
  let final := snd (while_not_AI_responded env fuel st) in
  exists requests,
    length requests <= fuel /\
    Forall one_request requests /\
    sessions final = sessions st + length requests /\
    trace final
      = (trace st ++ sessions_in_sequence (server_params (weather_client st)) (sessions st)
                       requests)%list.
Proof.
  revert st. induction fuel as [|fuel IH]; intros st; simpl.
  - exists []. simpl. rewrite app_nil_r, Nat.add_0_r.
    destruct (AI_responded st); simpl; auto.
  - destruct (AI_responded st); simpl.
    + exists []. simpl. rewrite app_nil_r, Nat.add_0_r. repeat split; auto; lia.
    + unfold bind.
      destruct (loop_body_sessions env st) as (Hc & requests & Hlen & Hone & Hs & Ht).
      destruct (loop_body env st) as [[[]|e] st1]; simpl in *.
      * destruct (IH st1) as (requests' & Hlen' & Hone' & Hs' & Ht').
        exists (requests ++ requests')%list.
        rewrite length_app, sessions_in_sequence_app.
        repeat split.
        -- lia.
        -- now apply Forall_app.
        -- lia.
        -- rewrite Ht', Ht, Hs, Hc, <- app_assoc. reflexivity.
      * exists requests. repeat split; auto; lia.
Qed.

(** ** The weather server *)

(** X15.  The weather is sunny wherever FastMCP lets the location through.
    The server reads a string argument as JSON before it calls the tool.
    Take a request to execute [get_weather] at the weather server for a
    location in plain text, a server whose [json.loads] is the reference
    decoder on plain text.  When the location is not JSON text, or is the
    JSON text of a string, the pass of the loop appends the reply and, as a
    user message, the text [It's sunny in] followed by the location as the
    request gave it.  When the location is the JSON text [null], the
    server reports an error instead and what is appended starts with
    [Error: ].  In both cases the loop goes on. *)
Theorem get_weather_is_sunny
    (env : environment) (loads : string -> py_result py_value)
    (params : StdioServerParameters)
    (st : state) (reply : string) (d arguments : list (string * py_value))
    (location : string) :
  weather_client st = MCP_client_init params ->
  chain_invoke env (messages st) = Ok reply ->
  is_valid_json env reply = Ok {| isJSON := true; parsedJson := PyDict d |} ->
  dict_get "operation" d = Some (PyStr "execute_tool") ->
  dict_get "tool_name" d = Some (PyStr "get_weather") ->
  dict_get "tool_parameters" d = Some (PyDict arguments) ->
  dict_get "location" arguments = Some (PyStr location) ->
  server_initialize env params (sessions st) = Ok tt ->
  server_call_tool env params (sessions st) = weather_server loads ->
  (forall text, plain_text text = true -> loads text = json.loads text) ->
  plain_text location = true ->
  let final := snd (loop_body env st) in
  let fed_back text :=
    messages final
      = (messages st ++ [ {| role := "ai"; msg_content := reply |};
                          {| role := "user"; msg_content := text |} ])%list /\
    tool_response final = text in
  fst (loop_body env st) = Ok tt /\
  AI_responded final = AI_responded st /\
  (json.loads location = Raise JSONDecodeError \/
   (exists text, json.loads location = Ok (PyStr text)) ->
   fed_back ("It's sunny in " ++ location)) /\
  (json.loads location = Ok PyNone -> exists report, fed_back ("Error: " ++ report)).
Proof.
  intros Hclient Hreply Hjson Hop Hname Hparams Hlocation Hinit Hserver Hloads Hplain
         final fed_back.
  assert (Htable : operation (weather_client (after_reply reply st)) !! "execute_tool"
                   = Some execute_tool_method).
  { simpl. rewrite Hclient. apply init_table_lookup. now right. }
  pose proof (is_tool_use_request env reply d _ Hjson Hop) as Huse.
  pose proof (handle_llm_response_dispatch env _ reply d _ _ Huse Hop Htable) as Hrun.
  subst fed_back final. rewrite (loop_body_reply env st reply Hreply), Hrun.
  unfold kwargs_of. rewrite Hname, Hparams. simpl.
  rewrite execute_tool_run. simpl. rewrite Hclient. simpl. rewrite Hinit, Hserver.
  unfold weather_server, run_get_weather. simpl. rewrite Hlocation.
  unfold pre_parse_json. rewrite (Hloads location Hplain).
  destruct (json.loads location) as [[]|[]]; simpl; rewrite <- app_assoc;
    (split; [reflexivity|]); (split; [reflexivity|]);
    (split; [intros [H|[text H]]; try discriminate; split; reflexivity
            |intros H; try discriminate]).
  exists "Error executing tool get_weather". split; reflexivity.
Qed.

(** X15 at the request of the recorded run, and at the same request for the
    location [null]. *)
Lemma get_weather_is_sunny_witness :
  let request location :=
    dq "{'operation': 'execute_tool', 'tool_name': 'get_weather', 'tool_parameters': {'location': '"
      ++ location ++ dq "'}}" in
  let final location :=
    snd (loop_body (weather_env (constant_model (request location))) recorded_state) in
  tool_response (final "New York") = "It's sunny in New York" /\
  exists report, tool_response (final "null") = "Error: " ++ report.
Proof.
  intros request final. split.
  - destruct (get_weather_is_sunny (weather_env (constant_model (request "New York")))
                json.loads notebook_server_params recorded_state (request "New York")
                [("operation", PyStr "execute_tool"); ("tool_name", PyStr "get_weather");
                 ("tool_parameters", PyDict [("location", PyStr "New York")])]
                [("location", PyStr "New York")] "New York" eq_refl eq_refl)
      as (_ & _ & H & _); [vm_compute; reflexivity | reflexivity..|].
    apply H. left. vm_compute. reflexivity.
  - destruct (get_weather_is_sunny (weather_env (constant_model (request "null")))
                json.loads notebook_server_params recorded_state (request "null")
                [("operation", PyStr "execute_tool"); ("tool_name", PyStr "get_weather");
                 ("tool_parameters", PyDict [("location", PyStr "null")])]
                [("location", PyStr "null")] "null" eq_refl eq_refl)
      as (_ & _ & _ & H); [vm_compute; reflexivity | reflexivity..|].
    destruct H as (report & _ & H); [vm_compute; reflexivity|].
    exists report. exact H.
Defined.

(** ** The call id *)

Lemma with_uuid4_handle_llm_response
    (value : nat -> N) (env : environment) (reply : string) (st : state) :
  same_but_call_id (fst (handle_llm_response (with_uuid4 value env) reply st))
                   (fst (handle_llm_response env reply st)) /\
  snd (handle_llm_response (with_uuid4 value env) reply st)
    = snd (handle_llm_response env reply st).
Proof.
  unfold handle_llm_response, bind, lift, uuid4, gets.
  change (is_tool_use (with_uuid4 value env) reply) with (is_tool_use env reply).
  destruct (is_tool_use env reply) as [r|e]; simpl; [|auto].
  destruct (str_truthy (inputMessage r)); simpl; [auto |].
  destruct (py_getitem (tool_use r) "operation") as [op|e]; simpl; [|auto].
  destruct (py_in_table op (operation (weather_client st))) as [[|]|e]; simpl; [|auto..].
  destruct (kwarg_of (tool_use r) "tool_name") as [n|e]; simpl; [|auto].
  destruct (kwarg_of (tool_use r) "tool_parameters") as [p|e]; simpl; [|auto].
  destruct (py_table_getitem (operation (weather_client st)) op) as [f|e]; simpl; [|auto].
  change (call_method (with_uuid4 value env) f) with (call_method env f).
  destruct (call_method env f _ _) as [[[out [|]]|e] st']; simpl; auto.
Qed.

Lemma with_uuid4_loop_body (value : nat -> N) (env : environment) (st : state) :
  loop_body (with_uuid4 value env) st = loop_body env st.
Proof.
  destruct (chain_invoke env (messages st)) as [reply|e] eqn:Hreply.
  - rewrite (loop_body_reply (with_uuid4 value env) st reply Hreply),
      (loop_body_reply env st reply Hreply).
    destruct (with_uuid4_handle_llm_response value env reply (after_reply reply st))
      as [Hres Hst].
    destruct (handle_llm_response (with_uuid4 value env) reply (after_reply reply st))
      as [[[text|text id]|e] st1],
      (handle_llm_response env reply (after_reply reply st))
      as [[[text'|text' id']|e'] st2]; simpl in *; try contradiction; now subst.
  - rewrite (loop_body_model_raises (with_uuid4 value env) st e Hreply),
      (loop_body_model_raises env st e Hreply). reflexivity.
Qed.

(** X16.  The call id that [handle_llm_response] draws is never used: with
    other values for [uuid.uuid4()] the loop has the same outcome and ends
    in the same state, with the same messages and the same requests to the
    server. *)
Theorem call_id_is_unused
    (value : nat -> N) (env : environment) (fuel : nat) (st : state) :
  while_not_AI_responded (with_uuid4 value env) fuel st
    = while_not_AI_responded env fuel st.
Proof.
  revert st. induction fuel as [|fuel IH]; intros st; simpl; [reflexivity |].
  destruct (AI_responded st); [reflexivity |].
  unfold bind. rewrite with_uuid4_loop_body.
  destruct (loop_body env st) as [[[]|e] st1]; [apply IH | reflexivity].
Qed.

(** ** Operations that the table does not have *)

(** X17.  A request whose ["operation"] is a string other than
    ["list_tools"] and ["execute_tool"] (the comparison is exact), or a
    number, a boolean or [null], is answered with the
    [NoSuchOperationError] text: the pass of the loop appends the reply
    and that text as a user message, opens no session and leaves
    [AI_responded] as it was, so that the model can try again. *)
Theorem unknown_operation_is_reported
    (env : environment) (params : StdioServerParameters) (st : state)
    (reply : string) (d : list (string * py_value)) (op : py_value) :
  weather_client st = MCP_client_init params ->
  chain_invoke env (messages st) = Ok reply ->
  is_valid_json env reply = Ok {| isJSON := true; parsedJson := PyDict d |} ->
  dict_get "operation" d = Some op ->
  (forall items, op <> PyList items) ->
  (forall items, op <> PyDict items) ->
  op <> PyStr "list_tools" ->
  op <> PyStr "execute_tool" ->
  let final := snd (loop_body env st) in
  handle_llm_response env reply (after_reply reply st)
    = (Ok (Tool NoSuchOperationError_text (uuid4_value env (uuids st))),
       after_uuid4 (after_reply reply st)) /\
  fst (loop_body env st) = Ok tt /\
  messages final
    = (messages st ++ [ {| role := "ai"; msg_content := reply |};
                        {| role := "user"; msg_content := NoSuchOperationError_text |} ])%list /\
  tool_response final = NoSuchOperationError_text /\
  AI_responded final = AI_responded st /\
  sessions final = sessions st /\
  trace final = trace st.
Proof.
  intros Hclient Hreply Hjson Hop Hlist Hdict Hl He final.
  assert (Hin : py_in_table op (operation (weather_client (after_reply reply st))) = Ok false).
  { simpl. rewrite Hclient.
    destruct op as [| b | z | x | k | items | items]; simpl; try reflexivity.
    - rewrite bool_decide_false; [reflexivity |].
      intros [f Hf]. apply init_table_lookup in Hf as [[-> _]|[-> _]]; congruence.
    - now destruct (Hlist items).
    - now destruct (Hdict items). }
  pose proof (is_tool_use_request env reply d _ Hjson Hop) as Huse.
  pose proof (handle_llm_response_no_such_operation env _ reply d op Huse Hop Hin) as Hrun.
  split; [exact Hrun |].
  subst final. rewrite (loop_body_reply env st reply Hreply), Hrun. simpl.
  rewrite <- app_assoc. repeat split.
Qed.

(** X17 at requests whose operation is written with capitals, and is
    [null]. *)
Lemma unknown_operation_is_reported_witness :
  let capitals := dq "{'operation': 'List_Tools'}" in
  let null := dq "{'operation': null}" in
  tool_response (snd (loop_body (weather_env (constant_model capitals)) recorded_state))
    = NoSuchOperationError_text /\
  tool_response (snd (loop_body (weather_env (constant_model null)) recorded_state))
    = NoSuchOperationError_text.
Proof.
  intros capitals null. split.
  - refine (proj1 (proj2 (proj2 (proj2
      (unknown_operation_is_reported (weather_env (constant_model capitals))
         notebook_server_params recorded_state capitals
         [("operation", PyStr "List_Tools")] (PyStr "List_Tools")
         eq_refl eq_refl _ eq_refl _ _ _ _))))); try discriminate.
    vm_compute. reflexivity.
  - refine (proj1 (proj2 (proj2 (proj2
      (unknown_operation_is_reported (weather_env (constant_model null))
         notebook_server_params recorded_state null
         [("operation", PyNone)] PyNone
         eq_refl eq_refl _ eq_refl _ _ _ _))))); try discriminate.
    vm_compute. reflexivity.
Defined.

(** ** The text of [list_tools] *)

Module json_array.
Import json json_facts.

Lemma object_document_scan (doc : string) (v : py_value) :
  object_document doc v ->
  exists rest,
    scan_once (2 * String.length doc + 1) doc = Ok (v, rest) /\
    skip_whitespace rest = "" /\ self_delimiting doc = true.
Proof.
  intros [[body ->] H]. unfold loads in H.
  change (String.prefix BOM (String "{" body)) with false in H. cbv iota in H.
  change (skip_whitespace (String "{" body)) with (String "{" body) in H.
  destruct (scan_once _ (String "{" body)) as [[obj rest]|e]; [|discriminate].
  destruct (skip_whitespace rest) eqn:Hrest; [|discriminate].
  injection H as ->. now exists rest.
Qed.

#[local] Arguments scan_once : simpl never.
#[local] Arguments skip_whitespace : simpl never.

(** The items of an array written as documents joined with a comma and a
    line feed. *)
Lemma array_items_join (docs : list string) (values : list py_value) :
  Forall2 object_document docs values ->
  docs <> [] ->
  forall (acc : list py_value) (fuel : nat) (t : string),
    2 * String.length (str_join comma_newline docs) + 2 <= fuel ->
    array_items fuel (str_join comma_newline docs ++ "]" ++ t) acc
      = Ok (PyList (acc ++ values), t).
Proof.
  induction 1 as [|doc v docs values Hdoc Hrest IH]; intros Hne acc fuel t Hfuel;
    [contradiction |].
  destruct (object_document_scan doc v Hdoc) as (rest & Hscan & Hblank & Hself).
  destruct (scan_append ("]" ++ t) (2 * String.length doc + 1)) as (Hclose & _ & _).
  destruct fuel as [|fuel]; [lia |].
  destruct docs as [|doc' docs].
  - (* the last document *)
    inversion Hrest; subst. simpl str_join in *. simpl array_items.
    rewrite (Hclose _ _ _ Hscan (or_introl Hself)) by lia.
    rewrite skip_whitespace_blank by assumption.
    reflexivity.
  - change (str_join comma_newline (doc :: doc' :: docs))
      with (doc ++ comma_newline ++ str_join comma_newline (doc' :: docs)) in *.
    set (J := str_join comma_newline (doc' :: docs)) in *.
    rewrite !length_append in Hfuel. simpl String.length in Hfuel.
    replace ((doc ++ comma_newline ++ J) ++ "]" ++ t)
      with (doc ++ (comma_newline ++ J ++ "]" ++ t)) by (now normalize_append).
    destruct (scan_append (comma_newline ++ J ++ "]" ++ t) (2 * String.length doc + 1))
      as (Hnext & _ & _).
    simpl array_items.
    rewrite (Hnext _ _ _ Hscan (or_introl Hself)) by lia.
    rewrite skip_whitespace_blank by assumption.
    assert (HJ : exists body, J ++ "]" ++ t = String "{" body).
    { inversion Hrest as [|? ? ? ? [[body ->] _] _]; subst. subst J.
      destruct docs; simpl str_join; rewrite ?append_cons; eauto. }
    destruct HJ as [body HJ].
    change (skip_whitespace (comma_newline ++ J ++ "]" ++ t))
      with (String "," (String "010" (J ++ "]" ++ t))).
    cbv iota beta.
    change (Ascii.eqb "," "]") with false. change (Ascii.eqb "," ",") with true.
    cbv iota.
    replace (skip_whitespace (String "010" (J ++ "]" ++ t))) with (J ++ "]" ++ t)
      by (rewrite HJ; reflexivity).
    rewrite (IH ltac:(discriminate) (acc ++ [v])%list fuel t) by lia.
    now rewrite <- app_assoc.
Qed.

(** Documents of objects, joined with a comma and a line feed and put in
    square brackets, are the text of the array of these objects. *)
Lemma loads_array_of_objects (docs : list string) (values : list py_value) :
  Forall2 object_document docs values ->
  loads ("[" ++ str_join comma_newline docs ++ "]") = Ok (PyList values).
Proof.
  intros Hdocs. unfold loads.
  change (String.prefix BOM ("[" ++ str_join comma_newline docs ++ "]")) with false.
  cbv iota.
  change (skip_whitespace ("[" ++ str_join comma_newline docs ++ "]"))
    with (String "[" (str_join comma_newline docs ++ "]")).
  replace (2 * String.length ("[" ++ str_join comma_newline docs ++ "]") + 1)
    with (S (2 * String.length (str_join comma_newline docs) + 4))
    by (rewrite append_cons, append_nil; simpl String.length; rewrite length_append;
        simpl String.length; lia).
  destruct docs as [|doc docs].
  - inversion Hdocs; subst. reflexivity.
  - assert (Hne : doc :: docs <> []) by discriminate.
    assert (Hitems :
      array_items (2 * String.length (str_join comma_newline (doc :: docs)) + 4)
        (str_join comma_newline (doc :: docs) ++ "]" ++ "") []
      = Ok (PyList ([] ++ values), "")) by (apply array_items_join; [assumption.. | lia]).
    assert (HJ : exists body, str_join comma_newline (doc :: docs) ++ "]" = String "{" body).
    { inversion Hdocs as [|? ? ? ? [[body ->] _] _]; subst.
      destruct docs; simpl str_join; rewrite ?append_cons; eauto. }
    destruct HJ as [body HJ].
    unfold scan_once; fold scan_once; fold object_members; fold array_items.
    change (Ascii.eqb "[" "034") with false. change (Ascii.eqb "[" "{") with false.
    change (Ascii.eqb "[" "[") with true. cbv iota.
    rewrite HJ. change (skip_whitespace (String "{" body)) with (String "{" body).
    cbv iota beta. change (Ascii.eqb "{" "]") with false. cbv iota.
    rewrite <- HJ.
    change (str_join comma_newline (doc :: docs) ++ "]")
      with (str_join comma_newline (doc :: docs) ++ "]" ++ "").
    rewrite Hitems. reflexivity.
Qed.

End json_array.

Lemma Forall2_map_documents {A} (f : A -> string) (items : list A) (values : list py_value) :
  Forall2 (fun item v => object_document (f item) v) items values ->
  Forall2 object_document (map f items) values.
Proof. induction 1; simpl; constructor; assumption. Qed.

Lemma openings_append (a b : string) : openings (a ++ b) = openings a + openings b.
Proof.
  induction a as [|c a IH]; simpl_append; [reflexivity|]. rewrite IH. lia.
Qed.

Lemma openings_str_join (docs : list string) :
  openings (str_join comma_newline docs) = list_sum (map openings docs).
Proof.
  induction docs as [|p [|q docs] IH]; [reflexivity | simpl; lia |].
  change (str_join comma_newline (p :: q :: docs))
    with (p ++ comma_newline ++ str_join comma_newline (q :: docs)).
  rewrite !openings_append, IH. reflexivity.
Qed.

(** X18.  What [list_tools] returns can be read back: when the session is
    initialized, the server lists its tools and the document that
    [model_dump_json] prints for each tool is the text of a JSON object,
    the text that [list_tools] returns is the text of the JSON array of
    these objects, in the order of the tools (the empty array when there is
    no tool).  It has one opening bracket more than the documents have
    opening brackets and braces, and a [json.loads] that decodes texts with
    that many of them reads it as the list of what the documents stand
    for. *)
Theorem list_tools_text_is_a_json_array
    (env : environment) (depth : nat) (st : state)
    (tools : list mcp_Tool) (values : list py_value) :
  decodes_to_depth depth env ->
  server_initialize env (server_params (weather_client st)) (sessions st) = Ok tt ->
  server_list_tools env (server_params (weather_client st)) (sessions st) = Ok tools ->
  Forall2 (fun tool v => object_document (model_dump_json env tool) v) tools values ->
  exists text,
    fst (list_tools env st) = Ok (text, false) /\
    openings text
      = 1 + list_sum (map (fun tool => openings (model_dump_json env tool)) tools) /\
    (openings text <= depth -> json_loads env text = Ok (PyList values)).
Proof.
  intros Hdepth Hinit Htools Hdocs. rewrite list_tools_run. cbv zeta.
  rewrite Hinit, Htools.
  eexists. split; [reflexivity |]. split.
  - rewrite append_cons, append_nil. simpl openings.
    rewrite openings_append, openings_str_join, map_map. simpl. lia.
  - intros Hshallow. rewrite (Hdepth _ Hshallow).
    apply json_array.loads_array_of_objects. now apply Forall2_map_documents.
Qed.

(** X18 at a server with two tools. *)
Lemma list_tools_text_is_a_json_array_witness :
  exists text,
    fst (list_tools (two_tools_env recorded_model) recorded_state) = Ok (text, false) /\
    openings text = 3 /\
    json.loads text
      = Ok (PyList [PyDict [("name", PyStr "get_weather");
                            ("description", PyStr "Get weather for location.")];
                    PyDict [("name", PyStr "get_forecast");
                            ("description", PyStr "Get forecast for location.")]]).
Proof.
  destruct (list_tools_text_is_a_json_array (two_tools_env recorded_model) 3 recorded_state
              [get_weather_tool; get_forecast_tool]
              [PyDict [("name", PyStr "get_weather");
                       ("description", PyStr "Get weather for location.")];
               PyDict [("name", PyStr "get_forecast");
                       ("description", PyStr "Get forecast for location.")]])
    as (text & Htext & Hopenings & Hloads).
  - intros text _. reflexivity.
  - reflexivity.
  - reflexivity.
  - repeat constructor; try (eexists; reflexivity); vm_compute; reflexivity.
  - exists text. split; [exact Htext|]. split; [exact Hopenings|].
    apply Hloads. rewrite Hopenings. vm_compute. lia.
Defined.

(** ** The cell that tests the client *)

(** X19.  However the cell that tests the client ends, it leaves in
    [weather_client] a client built from the server parameters, whose
    operation table has exactly the keys ["list_tools"] and
    ["execute_tool"]; this is the client that [handle_llm_response] uses
    afterwards.  The cell opens a session for each method it calls, one
    after the other and each left before the next, and when both calls
    return it has printed five entries: the two headings, the text of each
    result and an empty line; the error flags are not looked at. *)
Theorem test_cell_builds_the_client
    (env : environment) (params : StdioServerParameters) (st : state) :
  let '(printed, result, final) := test_cell env params st in
  weather_client final = MCP_client_init params /\
  dom (operation (weather_client final)) = ({["list_tools"; "execute_tool"]} : gset string) /\
  messages final = messages st /\
  (exists requests,
     Forall one_request requests /\
     1 <= length requests <= 2 /\
     (result = Ok tt -> length requests = 2) /\
     sessions final = sessions st + length requests /\
     trace final = (trace st ++ sessions_in_sequence params (sessions st) requests)%list) /\
  (result = Ok tt ->
   exists listed executed flag,
     fst (list_tools env (set_weather_client (MCP_client_init params) st))
       = Ok (listed, false) /\
     fst (execute_tool env (PyStr "get_weather") (PyDict [("location", PyStr "Sydney")])
            (snd (list_tools env (set_weather_client (MCP_client_init params) st))))
       = Ok (executed, flag) /\
     printed = ["Calling list_tools operation"; listed; "";
                "Calling execute_tool operation"; executed]).
Proof.
  unfold test_cell.
  pose proof (init_table_dom params) as Hdom.
  assert (Hp : server_params (MCP_client_init params) = params) by reflexivity.
  generalize dependent (MCP_client_init params). intros client Hdom Hp.
  set (st0 := set_weather_client client st).
  rewrite list_tools_run. cbv zeta.
  change (weather_client st0) with client. change (sessions st0) with (sessions st).
  rewrite Hp.
  assert (Hone : forall r1 : list event,
    one_request r1 ->
    exists requests,
      Forall one_request requests /\
      1 <= length requests <= 2 /\
      (Raise (A:=unit) IndexError = Ok tt -> length requests = 2) /\
      sessions (after_session r1 st0) = sessions st + length requests /\
      trace (after_session r1 st0)
        = (trace st ++ sessions_in_sequence params (sessions st) requests)%list).
  { intros r1 H1. exists [r1].
    split; [repeat constructor; assumption |].
    simpl. rewrite Hp, app_nil_r.
    split; [lia |]. split; [discriminate |]. split; [lia | reflexivity]. }
  assert (Htwo : forall r1 r2 : list event,
    one_request r1 -> one_request r2 ->
    exists requests,
      Forall one_request requests /\
      1 <= length requests <= 2 /\
      length requests = 2 /\
      sessions (after_session r2 (after_session r1 st0)) = sessions st + length requests /\
      trace (after_session r2 (after_session r1 st0))
        = (trace st ++ sessions_in_sequence params (sessions st) requests)%list).
  { intros r1 r2 H1 H2. exists [r1; r2].
    split; [repeat constructor; assumption |].
    simpl. rewrite Hp, app_nil_r. unfold session_events. simpl.
    split; [lia |]. split; [reflexivity |]. split; [lia |].
    repeat (rewrite <- app_assoc; simpl). reflexivity. }
  destruct (server_initialize env params (sessions st)) as [[]|e].
  - destruct (server_list_tools env params (sessions st)) as [tools|e].
    + rewrite execute_tool_run. cbv zeta.
      change (weather_client (after_session _ st0)) with client.
      change (sessions (after_session _ st0)) with (S (sessions st)).
      rewrite Hp.
      set (r1 := [session_list_tools (sessions st)]).
      set (call := session_call_tool (S (sessions st)) _ _).
      destruct (server_initialize env params (S (sessions st))) as [[]|e] eqn:Hinit.
      * destruct (server_call_tool env params (S (sessions st)) _ _) as [result|e] eqn:Hcall.
        -- destruct (Htwo r1 [call] I I) as (requests & H1 & H2 & H3 & H4 & H5).
           destruct (content result) as [|[text| |] rest] eqn:Hcontent; cbn [fst snd];
             (split; [reflexivity |]); (split; [exact Hdom |]);
             (split; [reflexivity |]);
             (split; [exists requests; repeat split; solve [auto | lia] |]);
             try discriminate.
           intros _.
           exists ("[" ++ str_join comma_newline (map (model_dump_json env) tools) ++ "]"),
             text, (isError result).
           split; [reflexivity |]. split; [|reflexivity].
           rewrite execute_tool_run. cbv zeta.
           change (weather_client (after_session r1 st0)) with client.
           change (sessions (after_session r1 st0)) with (S (sessions st)).
           now rewrite Hp, Hinit, Hcall, Hcontent.
        -- destruct (Htwo r1 [call] I I) as (requests & H1 & H2 & H3 & H4 & H5).
           cbn [fst snd]. repeat split; try exact Hdom; try discriminate.
           exists requests; repeat split; solve [auto | lia].
      * destruct (Htwo r1 [] I I) as (requests & H1 & H2 & H3 & H4 & H5).
        cbn [fst snd]. repeat split; try exact Hdom; try discriminate.
        exists requests; repeat split; solve [auto | lia].
    + destruct (Hone [session_list_tools (sessions st)] I)
        as (requests & H1 & H2 & H3 & H4 & H5).
      cbn [fst snd]. repeat split; try exact Hdom; try discriminate.
      exists requests; repeat split; solve [auto | lia | discriminate].
  - destruct (Hone [] I) as (requests & H1 & H2 & H3 & H4 & H5).
    cbn [fst snd]. repeat split; try exact Hdom; try discriminate.
    exists requests; repeat split; solve [auto | lia | discriminate].
Qed.

(** ** From the request to the session *)

(** X20.  The arguments of a request for [execute_tool] are handed to the
    session as the reply gave them: whatever JSON values stand under
    ["tool_name"] and ["tool_parameters"] (the notebook does not check that
    the name is a string or that the parameters are an object), the pass of
    the loop opens one session and, once it is initialized, calls
    [session.call_tool] once, with exactly these values.  When the answer
    is a result whose first content item is a text, that text (after
    ["Error: "] when the result is flagged) is the user message appended
    after the reply. *)
Theorem execute_tool_arguments_pass_through
    (env : environment) (params : StdioServerParameters) (st : state) (reply : string)
    (d : list (string * py_value)) (tool_name tool_parameters : py_value) :
  weather_client st = MCP_client_init params ->
  chain_invoke env (messages st) = Ok reply ->
  is_valid_json env reply = Ok {| isJSON := true; parsedJson := PyDict d |} ->
  dict_get "operation" d = Some (PyStr "execute_tool") ->
  dict_get "tool_name" d = Some tool_name ->
  dict_get "tool_parameters" d = Some tool_parameters ->
  let sid := sessions st in
  let final := snd (loop_body env st) in
  let request :=
    match server_initialize env params sid with
    | Ok _ => [session_call_tool sid tool_name tool_parameters]
    | Raise _ => []
    end in
  sessions final = S sid /\
  trace final = (trace st ++ session_events params sid request)%list /\
  (forall result text rest,
     server_initialize env params sid = Ok tt ->
     server_call_tool env params sid tool_name tool_parameters = Ok result ->
     content result = TextContent text :: rest ->
     messages final
       = (messages st
            ++ [ {| role := "ai"; msg_content := reply |};
                 {| role := "user";
                    msg_content := if isError result then "Error: " ++ text else text |} ])%list).
Proof.
  intros Hclient Hreply Hjson Hop Hname Hparams sid final request.
  assert (Htable : operation (weather_client (after_reply reply st)) !! "execute_tool"
                   = Some execute_tool_method).
  { simpl. rewrite Hclient. apply init_table_lookup. now right. }
  pose proof (is_tool_use_request env reply d _ Hjson Hop) as Huse.
  pose proof (handle_llm_response_dispatch env _ reply d _ _ Huse Hop Htable) as Hrun.
  subst final. rewrite (loop_body_reply env st reply Hreply), Hrun.
  unfold kwargs_of. rewrite Hname, Hparams. simpl.
  rewrite execute_tool_run. unfold after_session. simpl. rewrite Hclient. simpl. fold sid.
  subst request.
  destruct (server_initialize env params sid) as [[]|e] eqn:Hinit; simpl.
  - destruct (server_call_tool env params sid tool_name tool_parameters)
      as [result|e] eqn:Hcall; simpl.
    + destruct (content result) as [|[text| |] rest] eqn:Hcontent; simpl.
      * repeat split. intros r t rs _ [= <-] Hc. rewrite Hcontent in Hc. discriminate.
      * destruct (isError result) eqn:Herr; simpl; repeat split;
          intros r t rs _ [= <-] Hc; rewrite Hcontent in Hc; injection Hc as <- _;
          now rewrite Herr, <- app_assoc.
      * repeat split. intros r t rs _ [= <-] Hc. rewrite Hcontent in Hc. discriminate.
      * repeat split. intros r t rs _ [= <-] Hc. rewrite Hcontent in Hc. discriminate.
    + repeat split. intros; discriminate.
  - repeat split. intros; discriminate.
Qed.

(** X20 at the request of the recorded run. *)
Lemma execute_tool_arguments_pass_through_witness :
  let reply :=
    dq "{'operation': 'execute_tool', 'tool_name': 'get_weather', 'tool_parameters': {'location': 'New York'}}" in
  let env := weather_env (constant_model reply) in
  let final := snd (loop_body env recorded_state) in
  sessions final = 1 /\
  trace final
    = session_events notebook_server_params 0
        [session_call_tool 0 (PyStr "get_weather") (PyDict [("location", PyStr "New York")])].
Proof.
  intros reply env final.
  pose proof (execute_tool_arguments_pass_through env notebook_server_params recorded_state
                reply
                [("operation", PyStr "execute_tool"); ("tool_name", PyStr "get_weather");
                 ("tool_parameters", PyDict [("location", PyStr "New York")])]
                (PyStr "get_weather") (PyDict [("location", PyStr "New York")])
                eq_refl eq_refl) as H.
  destruct H as (H1 & H2 & _).
  - vm_compute. reflexivity.
  - reflexivity.
  - reflexivity.
  - reflexivity.
  - split; [exact H1 | exact H2].
Defined.

(** ** What is fed back to the model *)

(** X21.  A [Tool] result of [handle_llm_response] has one of two origins.
    Either the request's ["operation"] is no key of the operation table,
    the text is the [NoSuchOperationError] text and nothing happened but
    the drawing of the UUID; or the ["operation"] is a key of the table and
    the text is the output of the method found there, as it is when the
    method returned the flag [False] and after ["Error: "] when it returned
    [True].  In both cases [inputMessage] was empty and the call id is the
    UUID drawn in this call. *)
Theorem tool_result_origins
    (env : environment) (st st' : state) (reply text : string) (call_id : N) :
  handle_llm_response env reply st = (Ok (Tool text call_id), st') ->
  call_id = uuid4_value env (uuids st) /\
  exists r op,
    is_tool_use env reply = Ok r /\
    inputMessage r = "" /\
    py_getitem (tool_use r) "operation" = Ok op /\
    ((py_in_table op (operation (weather_client st)) = Ok false /\
      text = NoSuchOperationError_text /\
      st' = after_uuid4 st)
     \/
     exists k f kw out flag,
       op = PyStr k /\
       operation (weather_client st) !! k = Some f /\
       kwarg_of (tool_use r) "tool_name" = Ok (kw_tool_name kw) /\
       kwarg_of (tool_use r) "tool_parameters" = Ok (kw_tool_parameters kw) /\
       call_method env f kw (after_uuid4 st) = (Ok (out, flag), st') /\
       text = if (flag : bool) then "Error: " ++ out else out).
Proof.
  unfold handle_llm_response, bind, lift, uuid4, gets.
  destruct (is_tool_use env reply) as [r|e] eqn:Hr; simpl; [|discriminate].
  fold (after_uuid4 st).
  destruct (str_truthy (inputMessage r)) eqn:Htruthy; simpl; [discriminate |].
  assert (Hempty : inputMessage r = "") by (destruct (inputMessage r); [reflexivity | discriminate]).
  destruct (py_getitem (tool_use r) "operation") as [op|e] eqn:Hop; simpl; [|discriminate].
  destruct (py_in_table op (operation (weather_client st))) as [[|]|e] eqn:Hin; simpl;
    [| |discriminate].
  - destruct (kwarg_of (tool_use r) "tool_name") as [n|e] eqn:Hn; simpl; [|discriminate].
    destruct (kwarg_of (tool_use r) "tool_parameters") as [p|e] eqn:Hp; simpl;
      [|discriminate].
    destruct op as [| b | z | x | k | items | items]; simpl in Hin; try discriminate.
    injection Hin as Hin. apply bool_decide_eq_true in Hin as [f Hf].
    simpl. rewrite Hf.
    destruct (call_method env f _ (after_uuid4 st)) as [[[out flag]|e] st''] eqn:Hcall;
      simpl; [|discriminate].
    intros H. split; [destruct flag; now injection H |].
    exists r, (PyStr k). repeat split; try assumption. right.
    exists k, f, {| kw_tool_name := n; kw_tool_parameters := p |}, out, flag.
    repeat split; try assumption.
    + rewrite Hcall. destruct flag; injection H as _ _ <-; reflexivity.
    + destruct flag; now injection H.
  - intros [= <- <- <-]. split; [reflexivity |].
    exists r, op. repeat split; try assumption. now left.
Qed.

(** X21 at the call of a tool that the weather server does not know. *)
Lemma tool_result_origins_witness :
  let reply :=
    dq "{'operation': 'execute_tool', 'tool_name': 'get_time', 'tool_parameters': {}}" in
  let env := weather_env (constant_model reply) in
  exists r op,
    is_tool_use env reply = Ok r /\
    inputMessage r = "" /\
    py_getitem (tool_use r) "operation" = Ok op /\
    exists k f kw out flag,
      op = PyStr k /\
      operation (weather_client recorded_state) !! k = Some f /\
      call_method env f kw (after_uuid4 recorded_state)
        = (Ok (out, flag),
           after_session [session_call_tool 0 (PyStr "get_time") (PyDict [])]
             (after_uuid4 recorded_state)) /\
      "Error: Unknown tool: get_time" = if (flag : bool) then "Error: " ++ out else out.
Proof.
  intros reply env.
  destruct (tool_result_origins env recorded_state
              (after_session [session_call_tool 0 (PyStr "get_time") (PyDict [])]
                 (after_uuid4 recorded_state))
              reply "Error: Unknown tool: get_time" 0)
    as (_ & r & op & Hr & Hempty & Hop & [(_ & H & _)|H]).
  - vm_compute. reflexivity.
  - discriminate.
  - destruct H as (k & f & kw & out & flag & H1 & H2 & _ & _ & H3 & H4).
    exists r, op. repeat split; try assumption.
    now exists k, f, kw, out, flag.
Defined.

(** ** The conversation plays no part in the handling of a reply *)

Lemma call_method_with_conversation
    (env : environment) (f : method) (kw : kwargs) (other st : state) :
  call_method env f kw (with_conversation other st)
    = (fst (call_method env f kw st),
       with_conversation other (snd (call_method env f kw st))).
Proof.
  destruct f, kw as [[n|] [p|]]; simpl; try reflexivity;
    rewrite ?list_tools_run, ?execute_tool_run; cbv zeta;
    change (server_params (weather_client (with_conversation other st)))
      with (server_params (weather_client st));
    change (sessions (with_conversation other st)) with (sessions st);
    destruct (server_initialize env _ _); reflexivity.
Qed.

(** X22.  [handle_llm_response] neither reads nor writes the conversation:
    run with other values of [messages], [AI_responded], [tool_response] and
    [response] it has the same result and the same effects, and it leaves
    these other values as they are.  What it does depends on the reply, the
    client and the world outside only. *)
Theorem handle_llm_response_ignores_the_conversation
    (env : environment) (reply : string) (other st : state) :
  handle_llm_response env reply (with_conversation other st)
    = (fst (handle_llm_response env reply st),
       with_conversation other (snd (handle_llm_response env reply st))).
Proof.
  unfold handle_llm_response, bind, lift, uuid4, gets.
  destruct (is_tool_use env reply) as [r|e]; simpl; [|reflexivity].
  destruct (str_truthy (inputMessage r)); simpl; [reflexivity |].
  destruct (py_getitem (tool_use r) "operation") as [op|e]; simpl; [|reflexivity].
  destruct (py_in_table op (operation (weather_client st))) as [[|]|e]; simpl;
    [|reflexivity..].
  destruct (kwarg_of (tool_use r) "tool_name") as [n|e]; simpl; [|reflexivity].
  destruct (kwarg_of (tool_use r) "tool_parameters") as [p|e]; simpl; [|reflexivity].
  destruct (py_table_getitem (operation (weather_client st)) op) as [f|e]; simpl;
    [|reflexivity].
  change (set_uuids (S (uuids st)) (with_conversation other st))
    with (with_conversation other (set_uuids (S (uuids st)) st)).
  rewrite call_method_with_conversation.
  destruct (call_method env f _ (set_uuids (S (uuids st)) st)) as [[[out [|]]|e] st'];
    reflexivity.
Qed.
